(** * SliderCam stepper firmware ([Video_slide_stepper.ino]): a shallow embedding

    The sketch runs on an 8-bit AVR board (the header speaks of 8 kB of SRAM,
    the pulse clock is the AVR Timer2 library [MsTimer2], and the code writes
    [1000L] where 16-bit arithmetic would not do), so [int] is a 16-bit
    two's-complement integer.  Its values are modelled in [Z]; arithmetic on
    [int] is wrapped by [wrap16], which is what the generated code does on
    overflow.

    The three [double] globals that hold user parameters are only ever
    assigned integers (the result of [getIntFromDigits], the constant 1300,
    integer initialisers), and so are [totalMotorSteps = distance * 5] and the
    truncated quotients stored in [intervalDistance] and [dotDistance]; they
    are modelled in [Z], a quotient of two such values truncated to [int]
    being [Z.quot].  [pulseDelay] is a genuine quotient and is kept as a
    rational; division by zero (an infinity or a NaN) is [None].

    Hardware is modelled by an input script and an output trace: analog
    samples of the keypad line are consumed from [adc_in], every pin write,
    delay, timer command and display command is recorded in [trace] (newest
    first).  The timer interrupt is asynchronous: the supervisory loop is run
    against a script that says, for each turn of the loop, how many times the
    interrupt fires before each read of the volatile counter [currentStep].
    A program that runs out of script before it returns is [Starved]: the
    code itself would still be waiting or looping. *)

From Stdlib Require Import ZArith QArith Qround Bool List String Lia.
From stdpp Require Import base list.
Import ListNotations.
Local Open Scope Z_scope.

(** ** Machine integers *)

Definition INT_MIN : Z := -32768.
Definition INT_MAX : Z := 32767.

(** Two's-complement wrap-around of a 16-bit [int]. *)
Definition wrap16 (z : Z) : Z := (z + 32768) mod 65536 - 32768.

Definition in_int (z : Z) : Prop := INT_MIN <= z <= INT_MAX.

(** ** Pins, constants and button identifiers (lines 25-56) *)

Definition stp : Z := 11.
Definition dir : Z := 12.
Definition trig : Z := 13.

Definition MAX_TRAVEL_DISTANCE : Z := 1300.

Definition btnUp : Z := 0.
Definition btnDn : Z := 1.
Definition btnL : Z := 2.
Definition btnR : Z := 3.
Definition btnSel : Z := 4.
Definition btnNone : Z := 5.

Definition NUM_DISTANCE_DIGITS : Z := 4.
Definition NUM_DURATION_DIGITS : Z := 6.
Definition NUM_STEPS_DIGITS : Z := 4.

Definition DEBOUNCE_TIME : Z := 10.

Definition shutterDuration : Z := 2.
Definition dotSteps : Z := 16.

(** ** Observable effects *)

Inductive event : Type :=
| DigitalWrite (pin : Z) (level : bool)
| Delay (ms : Z)
| TimerSet (ms : option Z)
| TimerStart
| TimerStop
| LcdClear
| LcdSetCursor (col row : Z)
| LcdPrint (s : string)
| LcdPrintInt (n : Z).

Definition HIGH : bool := true.
Definition LOW : bool := false.

(** ** Program state: the sketch's globals, the timer's enable bit and the
    input/output of the board *)

Record state : Type := mkState {
  adc_in : list Z;
  trace : list event;
  timer_on : bool;
  prevButton : Z;
  currentCursorPos : Z;
  currentChar : Z;
  LCDLine2Value : list Z;
  currentDistance : list Z;
  currentDuration : list Z;
  currentSteps : list Z;
  currentDistanceInt : Z;
  currentDurationInt : Z;
  currentStepsInt : Z;
  travelDir : Z;
  totalMotorSteps : Z;
  pulseDelay : option Q;
  intervalDistance : Z;
  currentStep : Z;
  dotDistance : Z
}.

Definition set_adc_in (v : list Z) (s : state) : state :=
  mkState v (trace s) (timer_on s) (prevButton s) (currentCursorPos s)
    (currentChar s) (LCDLine2Value s) (currentDistance s) (currentDuration
    s) (currentSteps s) (currentDistanceInt s) (currentDurationInt s)
    (currentStepsInt s) (travelDir s) (totalMotorSteps s) (pulseDelay s)
    (intervalDistance s) (currentStep s) (dotDistance s).

Definition set_trace (v : list event) (s : state) : state :=
  mkState (adc_in s) v (timer_on s) (prevButton s) (currentCursorPos s)
    (currentChar s) (LCDLine2Value s) (currentDistance s) (currentDuration
    s) (currentSteps s) (currentDistanceInt s) (currentDurationInt s)
    (currentStepsInt s) (travelDir s) (totalMotorSteps s) (pulseDelay s)
    (intervalDistance s) (currentStep s) (dotDistance s).

Definition set_timer_on (v : bool) (s : state) : state :=
  mkState (adc_in s) (trace s) v (prevButton s) (currentCursorPos s)
    (currentChar s) (LCDLine2Value s) (currentDistance s) (currentDuration
    s) (currentSteps s) (currentDistanceInt s) (currentDurationInt s)
    (currentStepsInt s) (travelDir s) (totalMotorSteps s) (pulseDelay s)
    (intervalDistance s) (currentStep s) (dotDistance s).

Definition set_prevButton (v : Z) (s : state) : state :=
  mkState (adc_in s) (trace s) (timer_on s) v (currentCursorPos s)
    (currentChar s) (LCDLine2Value s) (currentDistance s) (currentDuration
    s) (currentSteps s) (currentDistanceInt s) (currentDurationInt s)
    (currentStepsInt s) (travelDir s) (totalMotorSteps s) (pulseDelay s)
    (intervalDistance s) (currentStep s) (dotDistance s).

Definition set_currentCursorPos (v : Z) (s : state) : state :=
  mkState (adc_in s) (trace s) (timer_on s) (prevButton s) v (currentChar s)
    (LCDLine2Value s) (currentDistance s) (currentDuration s) (currentSteps
    s) (currentDistanceInt s) (currentDurationInt s) (currentStepsInt s)
    (travelDir s) (totalMotorSteps s) (pulseDelay s) (intervalDistance s)
    (currentStep s) (dotDistance s).

Definition set_currentChar (v : Z) (s : state) : state :=
  mkState (adc_in s) (trace s) (timer_on s) (prevButton s) (currentCursorPos
    s) v (LCDLine2Value s) (currentDistance s) (currentDuration s)
    (currentSteps s) (currentDistanceInt s) (currentDurationInt s)
    (currentStepsInt s) (travelDir s) (totalMotorSteps s) (pulseDelay s)
    (intervalDistance s) (currentStep s) (dotDistance s).

Definition set_LCDLine2Value (v : list Z) (s : state) : state :=
  mkState (adc_in s) (trace s) (timer_on s) (prevButton s) (currentCursorPos
    s) (currentChar s) v (currentDistance s) (currentDuration s)
    (currentSteps s) (currentDistanceInt s) (currentDurationInt s)
    (currentStepsInt s) (travelDir s) (totalMotorSteps s) (pulseDelay s)
    (intervalDistance s) (currentStep s) (dotDistance s).

Definition set_currentDistance (v : list Z) (s : state) : state :=
  mkState (adc_in s) (trace s) (timer_on s) (prevButton s) (currentCursorPos
    s) (currentChar s) (LCDLine2Value s) v (currentDuration s) (currentSteps
    s) (currentDistanceInt s) (currentDurationInt s) (currentStepsInt s)
    (travelDir s) (totalMotorSteps s) (pulseDelay s) (intervalDistance s)
    (currentStep s) (dotDistance s).

Definition set_currentDuration (v : list Z) (s : state) : state :=
  mkState (adc_in s) (trace s) (timer_on s) (prevButton s) (currentCursorPos
    s) (currentChar s) (LCDLine2Value s) (currentDistance s) v (currentSteps
    s) (currentDistanceInt s) (currentDurationInt s) (currentStepsInt s)
    (travelDir s) (totalMotorSteps s) (pulseDelay s) (intervalDistance s)
    (currentStep s) (dotDistance s).

Definition set_currentSteps (v : list Z) (s : state) : state :=
  mkState (adc_in s) (trace s) (timer_on s) (prevButton s) (currentCursorPos
    s) (currentChar s) (LCDLine2Value s) (currentDistance s)
    (currentDuration s) v (currentDistanceInt s) (currentDurationInt s)
    (currentStepsInt s) (travelDir s) (totalMotorSteps s) (pulseDelay s)
    (intervalDistance s) (currentStep s) (dotDistance s).

Definition set_currentDistanceInt (v : Z) (s : state) : state :=
  mkState (adc_in s) (trace s) (timer_on s) (prevButton s) (currentCursorPos
    s) (currentChar s) (LCDLine2Value s) (currentDistance s)
    (currentDuration s) (currentSteps s) v (currentDurationInt s)
    (currentStepsInt s) (travelDir s) (totalMotorSteps s) (pulseDelay s)
    (intervalDistance s) (currentStep s) (dotDistance s).

Definition set_currentDurationInt (v : Z) (s : state) : state :=
  mkState (adc_in s) (trace s) (timer_on s) (prevButton s) (currentCursorPos
    s) (currentChar s) (LCDLine2Value s) (currentDistance s)
    (currentDuration s) (currentSteps s) (currentDistanceInt s) v
    (currentStepsInt s) (travelDir s) (totalMotorSteps s) (pulseDelay s)
    (intervalDistance s) (currentStep s) (dotDistance s).

Definition set_currentStepsInt (v : Z) (s : state) : state :=
  mkState (adc_in s) (trace s) (timer_on s) (prevButton s) (currentCursorPos
    s) (currentChar s) (LCDLine2Value s) (currentDistance s)
    (currentDuration s) (currentSteps s) (currentDistanceInt s)
    (currentDurationInt s) v (travelDir s) (totalMotorSteps s) (pulseDelay
    s) (intervalDistance s) (currentStep s) (dotDistance s).

Definition set_travelDir (v : Z) (s : state) : state :=
  mkState (adc_in s) (trace s) (timer_on s) (prevButton s) (currentCursorPos
    s) (currentChar s) (LCDLine2Value s) (currentDistance s)
    (currentDuration s) (currentSteps s) (currentDistanceInt s)
    (currentDurationInt s) (currentStepsInt s) v (totalMotorSteps s)
    (pulseDelay s) (intervalDistance s) (currentStep s) (dotDistance s).

Definition set_totalMotorSteps (v : Z) (s : state) : state :=
  mkState (adc_in s) (trace s) (timer_on s) (prevButton s) (currentCursorPos
    s) (currentChar s) (LCDLine2Value s) (currentDistance s)
    (currentDuration s) (currentSteps s) (currentDistanceInt s)
    (currentDurationInt s) (currentStepsInt s) (travelDir s) v (pulseDelay
    s) (intervalDistance s) (currentStep s) (dotDistance s).

Definition set_pulseDelay (v : option Q) (s : state) : state :=
  mkState (adc_in s) (trace s) (timer_on s) (prevButton s) (currentCursorPos
    s) (currentChar s) (LCDLine2Value s) (currentDistance s)
    (currentDuration s) (currentSteps s) (currentDistanceInt s)
    (currentDurationInt s) (currentStepsInt s) (travelDir s)
    (totalMotorSteps s) v (intervalDistance s) (currentStep s) (dotDistance
    s).

Definition set_intervalDistance (v : Z) (s : state) : state :=
  mkState (adc_in s) (trace s) (timer_on s) (prevButton s) (currentCursorPos
    s) (currentChar s) (LCDLine2Value s) (currentDistance s)
    (currentDuration s) (currentSteps s) (currentDistanceInt s)
    (currentDurationInt s) (currentStepsInt s) (travelDir s)
    (totalMotorSteps s) (pulseDelay s) v (currentStep s) (dotDistance s).

Definition set_currentStep (v : Z) (s : state) : state :=
  mkState (adc_in s) (trace s) (timer_on s) (prevButton s) (currentCursorPos
    s) (currentChar s) (LCDLine2Value s) (currentDistance s)
    (currentDuration s) (currentSteps s) (currentDistanceInt s)
    (currentDurationInt s) (currentStepsInt s) (travelDir s)
    (totalMotorSteps s) (pulseDelay s) (intervalDistance s) v (dotDistance
    s).

Definition set_dotDistance (v : Z) (s : state) : state :=
  mkState (adc_in s) (trace s) (timer_on s) (prevButton s) (currentCursorPos
    s) (currentChar s) (LCDLine2Value s) (currentDistance s)
    (currentDuration s) (currentSteps s) (currentDistanceInt s)
    (currentDurationInt s) (currentStepsInt s) (travelDir s)
    (totalMotorSteps s) (pulseDelay s) (intervalDistance s) (currentStep s)
    v.

(** The globals as the sketch initialises them.  The initialisers [0100] and
    [000010] of [currentDistanceInt] and [currentDurationInt] are octal
    literals in C: 64 and 8. *)
Definition initial_state (adc : list Z) : state :=
  {| adc_in := adc; trace := []; timer_on := false;
     prevButton := 1;
     currentCursorPos := 0; currentChar := 0;
     LCDLine2Value := [0; 0; 0; 0; 0; 0];
     currentDistance := [0; 1; 0; 0];
     currentDuration := [0; 0; 0; 0; 1; 0];
     currentSteps := [0; 0; 0; 0];
     currentDistanceInt := 64; currentDurationInt := 8; currentStepsInt := 0;
     travelDir := 0;
     totalMotorSteps := 0; pulseDelay := Some 0%Q;
     intervalDistance := 0; currentStep := 0; dotDistance := 0 |}.

(** ** A small monad: state, plus two ways of not returning

    [Starved] - the input script ran out while the code still wanted input
    (the code itself would keep waiting or looping);
    [Undefined] - the code executed an operation C leaves undefined. *)

Inductive result (A : Type) : Type :=
| Done (a : A) (s : state)
| Starved (s : state)
| Undefined (s : state).

Arguments Done {A} a s.
Arguments Starved {A} s.
Arguments Undefined {A} s.

Definition final {A} (r : result A) : state :=
  match r with Done _ s | Starved s | Undefined s => s end.

Definition M (A : Type) : Type := state -> result A.

Definition ret {A} (a : A) : M A := fun s => Done a s.

Definition bind {A B} (m : M A) (k : A -> M B) : M B :=
  fun s =>
    match m s with
    | Done a s' => k a s'
    | Starved s' => Starved s'
    | Undefined s' => Undefined s'
    end.

Declare Scope prog_scope.
Delimit Scope prog_scope with prog.
Notation "x <- m ;; k" := (bind m (fun x => k))
  (at level 20, m at level 99, k at level 200, only parsing) : prog_scope.
Notation "m ;; k" := (bind m (fun _ => k))
  (at level 100, k at level 200, only parsing, right associativity) : prog_scope.
Local Open Scope prog_scope.

Definition gets {A} (f : state -> A) : M A := fun s => Done (f s) s.
Definition modify (f : state -> state) : M unit := fun s => Done tt (f s).
Definition undefined {A} : M A := fun s => Undefined s.

Definition emit (e : event) : M unit := modify (fun s => set_trace (e :: trace s) s).

Definition digitalWrite (pin : Z) (level : bool) : M unit := emit (DigitalWrite pin level).
Definition delay (ms : Z) : M unit := emit (Delay ms).

(** [analogRead(0)]: the next sample of the keypad line. *)
Definition analogRead0 : M Z :=
  fun s =>
    match adc_in s with
    | [] => Starved s
    | a :: rest => Done a (set_adc_in rest s)
    end.

(** ** Input layer (lines 58-127) *)

Definition button_of_adc (adcIn : Z) : Z :=
  if 1000 <? adcIn then btnNone
  else if adcIn <? 50 then btnR
  else if adcIn <? 250 then btnUp
  else if adcIn <? 450 then btnDn
  else if adcIn <? 650 then btnL
  else if adcIn <? 850 then btnSel
  else btnNone.

Definition getButtonfromRawData : M Z :=
  adcIn <- analogRead0 ;; ret (button_of_adc adcIn).

Definition readLcdButtons : M Z :=
  b <- getButtonfromRawData ;;
  prev <- gets prevButton ;;
  if b =? prev then ret prev
  else
    delay DEBOUNCE_TIME ;;
    b' <- getButtonfromRawData ;;
    modify (set_prevButton b') ;;
    ret b'.

(** States of the key-click machine. *)
Inductive fsm_state : Type := up_state | timer_done_state | wait_for_up_state.

(** The [while (true)] of [getKeyClick].  Every turn of the loop takes at
    least one sample, so the loop is run for as many turns as there are
    samples left: it returns, or the script runs out. *)
Fixpoint getKeyClick_loop (fuel : nat) (q : fsm_state) (btnVal : Z) : M Z :=
  match fuel with
  | O => fun s => Starved s
  | S fuel' =>
    match q with
    | up_state =>
        b <- readLcdButtons ;;
        if negb (b =? btnNone)
        then delay DEBOUNCE_TIME ;; getKeyClick_loop fuel' timer_done_state b
        else getKeyClick_loop fuel' up_state b
    | timer_done_state =>
        newbtnVal <- readLcdButtons ;;
        if newbtnVal =? btnVal
        then getKeyClick_loop fuel' wait_for_up_state btnVal
        else getKeyClick_loop fuel' up_state btnVal
    | wait_for_up_state =>
        newbtnVal <- readLcdButtons ;;
        if newbtnVal =? btnNone then ret btnVal
        else if negb (newbtnVal =? btnVal)
             then getKeyClick_loop fuel' up_state btnVal
             else getKeyClick_loop fuel' wait_for_up_state btnVal
    end
  end.

(** [btnVal] is not initialised in the source; the first turn assigns it. *)
Definition getKeyClick : M Z :=
  fun s => getKeyClick_loop (length (adc_in s)) up_state 0 s.


(** ** Parameter entry (lines 156-174, 309-371) *)

(** C arrays are lists; every index the sketch uses is within the array
    (the cursor is kept in [0, numDigits - 1]), an index outside reads 0 and
    writes nothing. *)
Definition array_get (a : list Z) (i : Z) : Z := default 0 (a !! Z.to_nat i).
Definition array_set (a : list Z) (i : Z) (v : Z) : list Z := <[Z.to_nat i := v]> a.

(** [x--] and [x++] are guarded by [x > 0] and [x < 9] and cannot overflow. *)
Definition adjustDigit (x dir_ : Z) : M Z :=
  let x := if (dir_ =? 0) && (0 <? x) then x - 1 else x in
  let x := if (dir_ =? 1) && (x <? 9) then x + 1 else x in
  pos <- gets currentCursorPos ;;
  emit (LcdSetCursor pos 1) ;;
  emit (LcdPrintInt x) ;;
  modify (set_currentChar x) ;;
  gets currentChar.

(** The [for] loop of [getIntFromDigits], entered with [i = n - 1]: [n] more
    digits to go, least significant first. *)
Fixpoint getIntFromDigits_loop (digits : list Z) (n : nat) (value power : Z) : Z :=
  match n with
  | O => value
  | S i =>
      getIntFromDigits_loop digits i
        (wrap16 (value + wrap16 (power * array_get digits (Z.of_nat i))))
        (wrap16 (power * 10))
  end.

Definition getIntFromDigits (digits : list Z) (num_digits : Z) : Z :=
  getIntFromDigits_loop digits (Z.to_nat num_digits) 0 1.

(** [for (i = 0; i < num_digits; i++) to[i] = from[i];] with [k] turns left. *)
Fixpoint copy_digits (k : nat) (i : Z) (from to : list Z) : list Z :=
  match k with
  | O => to
  | S k' => copy_digits k' (i + 1) from (array_set to i (array_get from i))
  end.

Definition writeToLCDLine2 (from : list Z) (num_digits : Z) : M unit :=
  modify (fun s =>
    set_LCDLine2Value (copy_digits (Z.to_nat num_digits) 0 from (LCDLine2Value s)) s).

(** [readFromLCDLine2(to, n)]: the digits the caller's array holds afterwards. *)
Definition readFromLCDLine2 (to : list Z) (num_digits : Z) : M (list Z) :=
  line <- gets LCDLine2Value ;;
  ret (copy_digits (Z.to_nat num_digits) 0 line to).

(** The [switch] of [getUserInputValue]; [true] stands for its [return]. *)
Definition getUserInputValue_switch (numDigits btnVal : Z) : M bool :=
  if btnVal =? btnUp then
    line <- gets LCDLine2Value ;; pos <- gets currentCursorPos ;;
    modify (set_currentChar (array_get line pos)) ;;
    c0 <- gets currentChar ;;
    adjustDigit c0 1 ;;
    c <- gets currentChar ;;
    modify (fun s => set_LCDLine2Value (array_set (LCDLine2Value s) (currentCursorPos s) c) s) ;;
    ret false
  else if btnVal =? btnDn then
    line <- gets LCDLine2Value ;; pos <- gets currentCursorPos ;;
    modify (set_currentChar (array_get line pos)) ;;
    c0 <- gets currentChar ;;
    adjustDigit c0 0 ;;
    c <- gets currentChar ;;
    modify (fun s => set_LCDLine2Value (array_set (LCDLine2Value s) (currentCursorPos s) c) s) ;;
    ret false
  else if btnVal =? btnL then
    pos <- gets currentCursorPos ;;
    (if pos =? 0 then ret tt else modify (set_currentCursorPos (pos - 1))) ;;
    ret false
  else if btnVal =? btnR then
    pos <- gets currentCursorPos ;;
    (if pos =? numDigits - 1 then ret tt else modify (set_currentCursorPos (pos + 1))) ;;
    ret false
  else if btnVal =? btnSel then ret true
  else ret false.

(** The [while (true)] of [getUserInputValue]; each turn takes a key click,
    hence at least one sample. *)
Fixpoint getUserInputValue_loop (fuel : nat) (numDigits : Z) : M unit :=
  match fuel with
  | O => fun s => Starved s
  | S fuel' =>
      btnVal <- getKeyClick ;;
      leave <- getUserInputValue_switch numDigits btnVal ;;
      if leave : bool then ret tt
      else
        pos <- gets currentCursorPos ;;
        emit (LcdSetCursor pos 1) ;;
        getUserInputValue_loop fuel' numDigits
  end.

Definition getUserInputValue (numDigits : Z) : M unit :=
  pos <- gets currentCursorPos ;;
  emit (LcdSetCursor pos 1) ;;
  fun s => getUserInputValue_loop (length (adc_in s)) numDigits s.

Definition getDistance : M unit :=
  getUserInputValue NUM_DISTANCE_DIGITS ;;
  to <- gets currentDistance ;;
  digits <- readFromLCDLine2 to NUM_DISTANCE_DIGITS ;;
  modify (set_currentDistance digits) ;;
  modify (set_currentDistanceInt (getIntFromDigits digits NUM_DISTANCE_DIGITS)) ;;
  d <- gets currentDistanceInt ;;
  if MAX_TRAVEL_DISTANCE <? d
  then modify (set_currentDistanceInt MAX_TRAVEL_DISTANCE)
  else ret tt.

Definition getDuration : M unit :=
  getUserInputValue NUM_DURATION_DIGITS ;;
  to <- gets currentDuration ;;
  digits <- readFromLCDLine2 to NUM_DURATION_DIGITS ;;
  modify (set_currentDuration digits) ;;
  modify (set_currentDurationInt (getIntFromDigits digits NUM_DURATION_DIGITS)).

Definition getSteps : M unit :=
  getUserInputValue NUM_STEPS_DIGITS ;;
  to <- gets currentSteps ;;
  digits <- readFromLCDLine2 to NUM_STEPS_DIGITS ;;
  modify (set_currentSteps digits) ;;
  modify (set_currentStepsInt (getIntFromDigits digits NUM_STEPS_DIGITS)).

(** ** Motion control (lines 176-260) *)

Definition MsTimer2_set (ms : option Z) : M unit := emit (TimerSet ms).
Definition MsTimer2_start : M unit := emit TimerStart ;; modify (set_timer_on true).
Definition MsTimer2_stop : M unit := emit TimerStop ;; modify (set_timer_on false).

(** The interrupt handler. *)
Definition stepperDriveUsingTimer : M unit :=
  digitalWrite stp LOW ;;
  digitalWrite stp HIGH ;;
  modify (fun s => set_currentStep (wrap16 (currentStep s + 1)) s).

(** [n] firings of the timer interrupt; none while the timer is stopped. *)
Fixpoint fire (n : nat) : M unit :=
  match n with
  | O => ret tt
  | S n' => stepperDriveUsingTimer ;; fire n'
  end.

Definition interrupts (n : nat) : M unit :=
  on <- gets timer_on ;; if on : bool then fire n else ret tt.

(** [a % b] on [int]: the remainder of the truncated quotient, undefined for
    [b = 0]. *)
Definition c_rem (a b : Z) : M Z :=
  if b =? 0 then undefined else ret (Z.rem a b).

(** [pulseDelay = (1000L * currentDurationInt) / totalMotorSteps], as an exact
    quotient: the rounding of the board's floating point is left out, and the
    delays examined below (0, 20 and 120 ms) are exact in it. *)
Definition pulse_delay (duration total : Z) : option Q :=
  if total =? 0 then None
  else Some (Qred (inject_Z (1000 * duration) / inject_Z total)).

(** The conversion of [pulseDelay] to the [unsigned long] that
    [MsTimer2::set] takes: the fractional part is discarded, so a value
    between -1 and 0 gives 0; undefined when the value without its
    fractional part is outside the type's range. *)
Definition ms_of_double (d : option Q) : option Z :=
  match d with
  | None => None
  | Some q =>
      if Qle_bool 0 q
      then (if Qfloor q <=? 4294967295 then Some (Qfloor q) else None)
      else if Qle_bool q (inject_Z (-1)) then None else Some 0
  end.

(** How the supervisory loop was left.  [motionControl] returns nothing; the
    outcome names the exit taken: the [break] of the Select check, or the
    loop condition. *)
Inductive outcome : Type := Completed | UserCancelled.

Inductive ctl : Type :=
| Again (prevStep : Z)
| Leave (o : outcome).

(** Timer firings during one turn of the supervisory loop, by the place of
    the turn they fall in: each place ends at a read of the volatile
    [currentStep].  When the turn skips the reads of [t_latch] and [t_dot]
    (the counter did not change), their firings fall before the next read. *)
Record ticks : Type := mkTicks {
  t_poll : nat;      (* while the button is polled, before the shutter test *)
  t_changed : nat;   (* before [currentStep != prevStep] *)
  t_latch : nat;     (* before [prevStep = currentStep] *)
  t_dot : nat;       (* before [currentStep % dotDistance] *)
  t_while : nat      (* before [currentStep < totalMotorSteps] *)
}.

(** Lines 241-247; the timer is stopped throughout. *)
Definition shutter : M unit :=
  MsTimer2_stop ;;
  delay 20 ;;
  digitalWrite trig HIGH ;;
  delay 80 ;;
  digitalWrite trig LOW ;;
  delay (shutterDuration * 1000 - 80) ;;
  MsTimer2_start.

(** One turn of the [do ... while] loop: body, then condition. *)
Definition iteration (e : ticks) (prevStep : Z) : M ctl :=
  interrupts (t_poll e) ;;
  b <- readLcdButtons ;;
  if b =? btnSel then ret (Leave UserCancelled)
  else
    steps <- gets currentStepsInt ;;
    due <- (if 0 <? steps
            then cs <- gets currentStep ;; iv <- gets intervalDistance ;;
                 r <- c_rem cs iv ;; ret (r =? 0)
            else ret false) ;;
    (if due : bool then shutter else ret tt) ;;
    interrupts (t_changed e) ;;
    cs <- gets currentStep ;;
    prevStep' <- (if negb (cs =? prevStep)
                  then interrupts (t_latch e) ;;
                       p <- gets currentStep ;;
                       interrupts (t_dot e) ;;
                       cs' <- gets currentStep ;; dd <- gets dotDistance ;;
                       r <- c_rem cs' dd ;;
                       (if r =? 0 then emit (LcdPrint ".") else ret tt) ;;
                       ret p
                  else interrupts (t_latch e) ;; interrupts (t_dot e) ;;
                       ret prevStep) ;;
    interrupts (t_while e) ;;
    cs <- gets currentStep ;; total <- gets totalMotorSteps ;;
    if cs <? total then ret (Again prevStep') else ret (Leave Completed).

(** The loop, run against a script of timer firings, one entry a turn.
    [turns] runs the scripted turns and says where that leaves the loop:
    left, or about to go round [Again]. *)
Fixpoint turns (sch : list ticks) (prevStep : Z) : M ctl :=
  match sch with
  | [] => ret (Again prevStep)
  | e :: sch' =>
      c <- iteration e prevStep ;;
      match c with
      | Again p => turns sch' p
      | Leave o => ret (Leave o)
      end
  end.

(** The whole loop: it returns once it is left; a script that ends before
    that leaves it running. *)
Definition supervise (sch : list ticks) (prevStep : Z) : M outcome :=
  c <- turns sch prevStep ;;
  match c with
  | Again _ => fun s => Starved s
  | Leave o => ret o
  end.

(** Lines 205-225: the motion plan, the direction line, the timer armed. *)
Definition plan : M unit :=
  modify (set_currentStep 0) ;;
  modify (fun s => set_totalMotorSteps (currentDistanceInt s * 5) s) ;;
  modify (fun s => set_pulseDelay (pulse_delay (currentDurationInt s) (totalMotorSteps s)) s) ;;
  steps <- gets currentStepsInt ;;
  (if 0 <? steps
   then modify (fun s => set_intervalDistance (Z.quot (totalMotorSteps s) (currentStepsInt s)) s)
   else ret tt) ;;
  modify (fun s => set_dotDistance (Z.quot (totalMotorSteps s) dotSteps) s) ;;
  d <- gets travelDir ;;
  (if d =? 0 then digitalWrite dir LOW
   else if d =? 1 then digitalWrite dir HIGH else ret tt) ;;
  emit (LcdSetCursor 0 1) ;;
  p <- gets pulseDelay ;;
  MsTimer2_set (ms_of_double p) ;;
  MsTimer2_start.

Definition motionControl (sch : list ticks) : M outcome :=
  plan ;;
  o <- supervise sch 0 ;;
  MsTimer2_stop ;;
  ret o.

(** ** Reading a trace *)

Definition is_dot (e : event) : bool :=
  match e with LcdPrint s => String.eqb s "." | _ => false end.

Definition is_shutter (e : event) : bool :=
  match e with DigitalWrite p true => p =? trig | _ => false end.

Definition is_step (e : event) : bool :=
  match e with DigitalWrite p true => p =? stp | _ => false end.

Definition count_events (f : event -> bool) (tr : list event) : nat :=
  length (List.filter f tr).

(** Progress markers printed, shutter pulses given, motor pulses given. *)
Definition dots (s : state) : nat := count_events is_dot (trace s).
Definition shutter_pulses (s : state) : nat := count_events is_shutter (trace s).
Definition motor_pulses (s : state) : nat := count_events is_step (trace s).

(** For each shutter pulse, oldest first, the number of motor pulses given
    before it: the value of [currentStep] at which the camera fired in a run
    that started from an empty trace.  [tr] is oldest first. *)
Fixpoint shutter_positions_from (n : Z) (tr : list event) : list Z :=
  match tr with
  | [] => []
  | e :: tr' =>
      if is_shutter e then n :: shutter_positions_from n tr'
      else if is_step e then shutter_positions_from (n + 1) tr'
      else shutter_positions_from n tr'
  end.

Definition shutter_positions (s : state) : list Z :=
  shutter_positions_from 0 (rev (trace s)).

(** ** Run parameters and scripts used below *)

(** A state in which the three parameters have been committed; the keypad
    was released by the click that started the run. *)
Definition committed (distance duration steps : Z) (adc : list Z) : state :=
  set_prevButton btnNone
    (set_currentStepsInt steps
      (set_currentDurationInt duration
        (set_currentDistanceInt distance (initial_state adc)))).

(** Nobody touches the keypad: every sample reads near 1023. *)
Definition idle_pad (n : nat) : list Z := repeat 1023 n.

Definition no_tick : ticks := mkTicks 0 0 0 0 0.
(** One firing a turn, while the button is polled. *)
Definition tick_in_poll : ticks := mkTicks 1 0 0 0 0.
(** One firing a turn, after the body and before the loop condition. *)
Definition tick_at_end : ticks := mkTicks 0 0 0 0 1.

Definition ticks_in (e : ticks) : nat :=
  (t_poll e + t_changed e + t_latch e + t_dot e + t_while e)%nat.

(** ** Re-encoding a value (not in the sketch)

    The spec's inverse of [getIntFromDigits]: [v] written as [n] zero-padded
    base-10 digits, most significant first. *)
Fixpoint encode_digits (n : nat) (v : Z) : list Z :=
  match n with
  | O => []
  | S n' => (v / 10 ^ Z.of_nat n') mod 10 :: encode_digits n' v
  end.

(** The number a digit array denotes, most significant digit first. *)
Definition decimal (digits : list Z) : Z :=
  fold_left (fun acc d => 10 * acc + d) digits 0.

Definition is_digit (d : Z) : Prop := 0 <= d <= 9.

(** ** Keypad scripts *)

(** A button held long enough to register (the sample that shows the change,
    the bounce filter's re-read, the confirming read), then released. *)
Definition click (level : Z) : list Z := [level; level; level; 1023; 1023].

Definition adc_right : Z := 0.
Definition adc_up : Z := 143.
Definition adc_left : Z := 504.
Definition adc_select : Z := 741.

(** Raise the digit under the cursor [n] times. *)
Fixpoint ups (n : nat) : list Z :=
  match n with
  | O => []
  | S n' => click adc_up ++ ups n'
  end.

(** Type the digits [ds] from an all-zero line with the cursor on the first
    digit, moving right between digits, and commit with Select. *)
Fixpoint typing (ds : list nat) : list Z :=
  match ds with
  | [] => click adc_select
  | [d] => ups d ++ click adc_select
  | d :: ds' => ups d ++ click adc_right ++ typing ds'
  end.

(** ** What [n] firings of the interrupt do to a state *)

Definition bump (n : nat) (z : Z) : Z := Nat.iter n (fun z => wrap16 (z + 1)) z.

(** The pin writes of [n] firings, newest first. *)
Fixpoint pulses (n : nat) : list event :=
  match n with
  | O => []
  | S n' => DigitalWrite stp HIGH :: DigitalWrite stp LOW :: pulses n'
  end.

Definition fired (n : nat) (s : state) : state :=
  set_currentStep (bump n (currentStep s)) (set_trace (pulses n ++ trace s) s).

(** The samples that make a poll read Select: the first decodes to the
    last reading, which was Select; or it differs from the last reading and
    the sample taken after the debounce delay decodes to Select. *)
Definition select_read (s : state) : Prop :=
  exists a1 rest,
    adc_in s = a1 :: rest
    /\ (if button_of_adc a1 =? prevButton s
        then prevButton s = btnSel
        else exists a2 rest', rest = a2 :: rest' /\ button_of_adc a2 = btnSel).

(** The Select level on the line whenever a poll first samples it and gone
    by the time the poll samples again, [n] polls long. *)
Definition flicker (n : nat) : list Z := concat (repeat [adc_select; 1023] n).

(** No sample of the script reads as Select. *)
Definition calm (adc : list Z) : bool :=
  forallb (fun a => negb (button_of_adc a =? btnSel)) adc.

(** At most one firing of the interrupt in each turn of the loop. *)
Definition single_tick (sch : list ticks) : bool :=
  forallb (fun e => (ticks_in e <=? 1)%nat) sch.

Definition ticks_total (sch : list ticks) : nat :=
  fold_right (fun e n => (ticks_in e + n)%nat) 0%nat sch.

(** A run in which the loop turns faster than the timer fires: each firing
    is followed by two turns without one. *)
Definition paced (n : nat) : list ticks :=
  concat (repeat [tick_in_poll; no_tick; no_tick] n).

(** Text written to the display. *)
Definition is_print (e : event) : bool :=
  match e with LcdPrint _ | LcdPrintInt _ => true | _ => false end.

Definition prints (s : state) : nat := count_events is_print (trace s).

(** ** The runs examined below *)

(** Video mode, 100 mm in 10 s. *)
Definition video_start (adc : list Z) : state := committed 100 10 0 adc.
(** Time lapse, 100 mm in 60 s with 5 camera steps. *)
Definition timelapse_start (adc : list Z) : state := committed 100 60 5 adc.
(** Duration 0 and steps 0, the distance left at 100 mm. *)
Definition degenerate_start (adc : list Z) : state := committed 100 0 0 adc.
(** More camera steps (501) than motor steps (500). *)
Definition crowded_start (adc : list Z) : state := committed 100 60 501 adc.
(** Video mode over 7 mm: 35 motor steps. *)
Definition short_start (adc : list Z) : state := committed 7 10 0 adc.


(** ** Predicates and invariants used in the statements *)

Definition real_button (b : Z) : Prop :=
  b = btnUp \/ b = btnDn \/ b = btnL \/ b = btnR \/ b = btnSel.

(** The six digits 065536, as typed into the duration field. *)
Definition duration_065536 : list Z := [0; 6; 5; 5; 3; 6].

(** The state after [n] firings were due: nothing happens with the timer
    stopped. *)
Definition ticked (n : nat) (s : state) : state :=
  if timer_on s then fired n s else s.

(** Two turns of a time-lapse run go by, then Select is held. *)
Definition cancel_demo : state :=
  committed 100 60 5 [1023; 1023; adc_select; adc_select].

(** A video run of 100 mm during which the Select level flickers at every
    poll. *)
Definition flicker_demo : state := committed 100 10 0 (flicker 500).

(** The plan of a run: what the loop reads and never writes. *)
Definition same_plan (s s' : state) : Prop :=
  currentStepsInt s' = currentStepsInt s
  /\ totalMotorSteps s' = totalMotorSteps s
  /\ pulseDelay s' = pulseDelay s
  /\ intervalDistance s' = intervalDistance s
  /\ dotDistance s' = dotDistance s
  /\ timer_on s' = timer_on s.

(** [keeps Inv m]: [m] started in a state satisfying [Inv] stops - returned,
    starved or undefined - in a state satisfying [Inv]. *)
Definition keeps {A} (Inv : state -> Prop) (m : M A) : Prop :=
  forall s, Inv s -> Inv (final (m s)).

(** [ensures m Q]: when [m] returns, [Q] holds of its value and state. *)
Definition ensures {A} (m : M A) (Q : A -> state -> Prop) : Prop :=
  forall s a s', m s = Done a s' -> Q a s'.

(** How a turn may end: round again only with the counter below the total,
    out by the loop condition only with the counter at or above it. *)
Definition exit_rule (c : ctl) (s : state) : Prop :=
  match c with
  | Again _ => currentStep s < totalMotorSteps s
  | Leave Completed => totalMotorSteps s <= currentStep s
  | Leave UserCancelled => True
  end.

(** The invariant of a video-mode run: no camera steps asked for, the plan
    as made, the timer armed with the planned period, the shutter pulses
    given so far. *)
Definition video_inv (total : Z) (delay_ms : Z) (k : nat) (s : state) : Prop :=
  currentStepsInt s = 0
  /\ totalMotorSteps s = total
  /\ pulseDelay s = Some (inject_Z delay_ms)
  /\ shutter_pulses s = k
  /\ In (TimerSet (Some delay_ms)) (trace s).

(** 2000 mm typed into the distance field of a board just switched on. *)
Definition typed_2000 : state := initial_state (typing [2; 0; 0; 0]%nat).


(** ** Further predicates: what the input layer may touch *)

(** The buttons the samples still to come decode to. *)
Definition seen (s : state) : list Z := map button_of_adc (adc_in s).

Definition is_delay (e : event) : bool :=
  match e with Delay _ => true | _ => false end.

(** [s'] differs from [s] only in the keypad state: samples were consumed,
    [prevButton] may have changed, and the trace gained nothing but delays. *)
Definition keypad_only (s s' : state) : Prop :=
  s' = set_prevButton (prevButton s') (set_trace (trace s') (set_adc_in (adc_in s') s))
  /\ adc_in s' `suffix_of` adc_in s
  /\ exists ds, trace s' = ds ++ trace s /\ forallb is_delay ds = true.

(** The digit [adjustDigit] makes of [x]. *)
Definition adjusted (x d : Z) : Z :=
  let x := if (d =? 0) && (0 <? x) then x - 1 else x in
  if (d =? 1) && (x <? 9) then x + 1 else x.

(** [s'] differs from [s] only in the keypad state and in the editor's own
    variables: the cursor, [currentChar] and the digits of line 2. *)
Definition editing_only (s s' : state) : Prop :=
  s' = set_LCDLine2Value (LCDLine2Value s')
         (set_currentChar (currentChar s')
            (set_currentCursorPos (currentCursorPos s')
               (set_prevButton (prevButton s')
                  (set_trace (trace s') (set_adc_in (adc_in s') s))))).

(** The counter counts the step pulses: [n] pulses given since the trace had
    [m0] of them, and the counter [n] firings on from [c0]. *)
Definition counts_pulses (m0 : nat) (c0 : Z) (s : state) : Prop :=
  exists n : nat, motor_pulses s = (m0 + n)%nat /\ currentStep s = bump n c0.

(** Every timer firing falls inside the button poll, at most one a turn: the
    loop reads the same count at all its reads of a turn. *)
Definition in_poll (sch : list ticks) : bool :=
  forallb (fun e => (t_poll e <=? 1)%nat
                    && (t_changed e + t_latch e + t_dot e + t_while e =? 0)%nat) sch.

(** At most one turn, whose firings all fall after the loop's test of the
    counter ([currentStep != prevStep]): the turn itself does not see them. *)
Definition late_only (late : list ticks) : bool :=
  (length late <=? 1)%nat
  && forallb (fun e => (t_poll e + t_changed e =? 0)%nat) late.


(** ** The menu (lines 129-135, 262-307, 373-444)

    The menu functions use two more globals, [currentMenuItem] and [motion],
    and the display's cursor-blink mode; a run started from the menu takes
    the next script of timer firings from [runs].  They are kept in a record
    around the state of the functions above, and the menu functions run in
    the same kind of monad over it. *)

Definition MENU_ITEM_DISTANCE : Z := 0.
Definition MENU_ITEM_DURATION : Z := 1.
Definition MENU_ITEM_STEPS : Z := 2.
Definition MENU_ITEM_DIRECTION : Z := 3.
Definition MENU_ITEM_GO : Z := 4.

Definition menuItemsTop : list string :=
  [" 01 Distance >"; "< 02 Travel Time >"; "< 03 Steps > "; "< 04 Direction >";
   "<05 Select to Go"]%string.

Record board : Type := mkBoard {
  core : state;
  currentMenuItem : Z;
  motion : Z;
  lcd_blink : bool;
  runs : list (list ticks)
}.

Definition set_core (v : state) (b : board) : board :=
  mkBoard v (currentMenuItem b) (motion b) (lcd_blink b) (runs b).
Definition set_currentMenuItem (v : Z) (b : board) : board :=
  mkBoard (core b) v (motion b) (lcd_blink b) (runs b).
Definition set_motion (v : Z) (b : board) : board :=
  mkBoard (core b) (currentMenuItem b) v (lcd_blink b) (runs b).
Definition set_lcd_blink (v : bool) (b : board) : board :=
  mkBoard (core b) (currentMenuItem b) (motion b) v (runs b).
Definition set_runs (v : list (list ticks)) (b : board) : board :=
  mkBoard (core b) (currentMenuItem b) (motion b) (lcd_blink b) v.

(** The board as the sketch's initialisers leave it. *)
Definition initial_board (adc : list Z) (scripts : list (list ticks)) : board :=
  mkBoard (initial_state adc) 0 0 false scripts.

Inductive bresult (A : Type) : Type :=
| BDone (a : A) (b : board)
| BStarved (b : board)
| BUndefined (b : board).

Arguments BDone {A} a b.
Arguments BStarved {A} b.
Arguments BUndefined {A} b.

Definition bfinal {A} (r : bresult A) : board :=
  match r with BDone _ b | BStarved b | BUndefined b => b end.

Definition MB (A : Type) : Type := board -> bresult A.

Definition bret {A} (a : A) : MB A := fun b => BDone a b.

Definition bbind {A B} (m : MB A) (k : A -> MB B) : MB B :=
  fun b =>
    match m b with
    | BDone a b' => k a b'
    | BStarved b' => BStarved b'
    | BUndefined b' => BUndefined b'
    end.

(** A function of the layers below, run on the board's state. *)
Definition lift {A} (m : M A) : MB A :=
  fun b =>
    match m (core b) with
    | Done a s => BDone a (set_core s b)
    | Starved s => BStarved (set_core s b)
    | Undefined s => BUndefined (set_core s b)
    end.

Definition bgets {A} (f : board -> A) : MB A := fun b => BDone (f b) b.
Definition bmodify (f : board -> board) : MB unit := fun b => BDone tt (f b).

Declare Scope menu_scope.
Delimit Scope menu_scope with menu.
Notation "x <- m ;; k" := (bbind m (fun x => k))
  (at level 20, m at level 99, k at level 200, only parsing) : menu_scope.
Notation "m ;; k" := (bbind m (fun _ => k))
  (at level 100, k at level 200, only parsing, right associativity) : menu_scope.

(** The script of the next run; a run for which none is left gets the empty
    script. *)
Definition next_run : MB (list ticks) :=
  fun b =>
    match runs b with
    | [] => BDone [] b
    | sch :: rest => BDone sch (set_runs rest b)
    end.

(** [for (i = 0; i < n; i++) { lcd.setCursor(i, 1); lcd.print(LCDLine2Value[i]); }]
    with [k] turns left. *)
Fixpoint print_line2 (k : nat) (i : Z) : M unit :=
  match k with
  | O => ret tt
  | S k' =>
      (emit (LcdSetCursor i 1) ;;
       line <- gets LCDLine2Value ;;
       emit (LcdPrintInt (array_get line i)) ;;
       print_line2 k' (i + 1))%prog
  end.

(** The value line of [refreshLCD], by menu item. *)
Definition refresh_line2 (item : Z) : M unit :=
  (if item =? MENU_ITEM_DISTANCE then
     d <- gets currentDistance ;;
     writeToLCDLine2 d NUM_DISTANCE_DIGITS ;;
     print_line2 (Z.to_nat NUM_DISTANCE_DIGITS) 0 ;;
     emit (LcdSetCursor NUM_DISTANCE_DIGITS 1) ;;
     emit (LcdPrint "mm(max 1300)")
   else if item =? MENU_ITEM_DURATION then
     d <- gets currentDuration ;;
     writeToLCDLine2 d NUM_DURATION_DIGITS ;;
     print_line2 (Z.to_nat NUM_DURATION_DIGITS) 0 ;;
     emit (LcdSetCursor NUM_DURATION_DIGITS 1) ;;
     emit (LcdPrint "s(3600/hr)")
   else if item =? MENU_ITEM_STEPS then
     d <- gets currentSteps ;;
     writeToLCDLine2 d NUM_STEPS_DIGITS ;;
     print_line2 (Z.to_nat NUM_STEPS_DIGITS) 0
   else if item =? MENU_ITEM_DIRECTION then
     d <- gets travelDir ;;
     if d =? 0 then emit (LcdPrint "From Motor") else emit (LcdPrint "To Motor")
   else if item =? MENU_ITEM_GO then emit (LcdPrint "Stopped")
   else ret tt)%prog.

Local Open Scope menu_scope.

(** [menuItemsTop[currentMenuItem]]; the menu keeps the index within the
    table, outside it the model reads the empty string. *)
Definition refreshLCD : MB unit :=
  lift (emit LcdClear) ;;
  lift (emit (LcdSetCursor 0 0)) ;;
  item <- bgets currentMenuItem ;;
  lift (emit (LcdPrint (nth (Z.to_nat item) menuItemsTop ""%string))) ;;
  lift (emit (LcdSetCursor 0 1)) ;;
  lift (refresh_line2 item) ;;
  lift (bind (gets currentCursorPos) (fun pos => emit (LcdSetCursor pos 1))).

(** The [while (true)] of [getDirection]; each turn takes a key click. *)
Fixpoint getDirection_loop (fuel : nat) : MB unit :=
  match fuel with
  | O => fun b => BStarved b
  | S fuel' =>
      btnVal <- lift getKeyClick ;;
      if btnVal =? btnUp then
        lift (modify (set_travelDir 1)) ;; refreshLCD ;; getDirection_loop fuel'
      else if btnVal =? btnDn then
        lift (modify (set_travelDir 0)) ;; refreshLCD ;; getDirection_loop fuel'
      else if btnVal =? btnSel then bret tt
      else refreshLCD ;; getDirection_loop fuel'
  end.

Definition getDirection : MB unit :=
  fun b => getDirection_loop (length (adc_in (core b))) b.

Definition getGo : MB unit :=
  lift (emit LcdClear) ;;
  lift (emit (LcdSetCursor 0 0)) ;;
  lift (emit (LcdPrint "On:Select to Stp")) ;;
  bmodify (set_motion 1) ;;
  sch <- next_run ;;
  lift (motionControl sch) ;;
  lift (delay 500).

Definition processSecondaryLevelMenu : MB unit :=
  lift (modify (set_currentCursorPos 0)) ;;
  refreshLCD ;;
  bmodify (set_lcd_blink true) ;;
  item <- bgets currentMenuItem ;;
  (if item =? MENU_ITEM_DISTANCE then lift getDistance
   else if item =? MENU_ITEM_DURATION then lift getDuration
   else if item =? MENU_ITEM_STEPS then lift getSteps
   else if item =? MENU_ITEM_DIRECTION then getDirection
   else if item =? MENU_ITEM_GO then getGo
   else bret tt) ;;
  refreshLCD ;;
  bmodify (set_lcd_blink false).

(** One turn of the [while (true)] of [processTopLevelMenu]. *)
Definition top_turn : MB unit :=
  btnVal <- lift getKeyClick ;;
  (if btnVal =? btnL then
     item <- bgets currentMenuItem ;;
     if item =? MENU_ITEM_DISTANCE then bret tt
     else bmodify (set_currentMenuItem (item - 1))
   else if btnVal =? btnR then
     item <- bgets currentMenuItem ;;
     if item =? MENU_ITEM_GO then bret tt
     else bmodify (set_currentMenuItem (item + 1))
   else if btnVal =? btnSel then processSecondaryLevelMenu
   else bret tt) ;;
  refreshLCD.

Fixpoint processTopLevelMenu_loop (fuel : nat) : MB unit :=
  match fuel with
  | O => fun b => BStarved b
  | S fuel' => top_turn ;; processTopLevelMenu_loop fuel'
  end.

(** The loop has no exit: run against a script it stops where the script
    ends. *)
Definition processTopLevelMenu : MB unit :=
  fun b => processTopLevelMenu_loop (length (adc_in (core b))) b.

Local Close Scope menu_scope.

(** ** What the menu keeps true

    The stored parameters and the digit arrays they are edited in. *)

Definition store (s : state) :=
  (travelDir s, currentDistanceInt s, currentDurationInt s, currentStepsInt s,
   currentDistance s, currentDuration s, currentSteps s, LCDLine2Value s,
   currentCursorPos s).

(** An array of [n] decimal digits. *)
Definition digits_ok (n : nat) (a : list Z) : Prop :=
  length a = n /\ Forall is_digit a.

(** A direction that is one of the two, a distance within the travel limit,
    a duration that is an [int], a step count of four digits, and decimal
    digits in all four digit arrays. *)
Definition store_ok (s : state) : Prop :=
  (travelDir s = 0 \/ travelDir s = 1)
  /\ 0 <= currentDistanceInt s <= MAX_TRAVEL_DISTANCE
  /\ in_int (currentDurationInt s)
  /\ 0 <= currentStepsInt s <= 9999
  /\ digits_ok 4 (currentDistance s)
  /\ digits_ok 6 (currentDuration s)
  /\ digits_ok 4 (currentSteps s)
  /\ digits_ok 6 (LCDLine2Value s).

(** The same with the cursor somewhere in [C]. *)
Definition store_ok_at (C : Z -> Prop) (s : state) : Prop :=
  store_ok s /\ C (currentCursorPos s).

(** The same with the cursor on one of the first [n] digits of line 2. *)
Definition editing_ok (n : Z) (s : state) : Prop :=
  store_ok_at (fun c => 0 <= c < n) s.

(** A property of the board made of one of the menu item and one of the
    state below the menu. *)
Definition on_board (K : Z -> Prop) (I : state -> Prop) (b : board) : Prop :=
  K (currentMenuItem b) /\ I (core b).

(** A menu item of the table, over a store as above. *)
Definition menu_ok (b : board) : Prop :=
  0 <= currentMenuItem b <= 4 /\ store_ok (core b).

Definition bkeeps {A} (Inv : board -> Prop) (m : MB A) : Prop :=
  forall b, Inv b -> Inv (bfinal (m b)).

(** The parameters of a run, as digits and as numbers. *)
Definition parameters (s : state) :=
  (travelDir s, currentDistanceInt s, currentDurationInt s, currentStepsInt s,
   currentDistance s, currentDuration s, currentSteps s).

(** All of the state but the display: the trace and line 2. *)
Definition behind_display (s : state) :=
  (adc_in s, timer_on s, prevButton s, currentCursorPos s, currentChar s,
   parameters s, totalMotorSteps s, pulseDelay s, intervalDistance s,
   currentStep s, dotDistance s).

(** Text and cursor moves on the display. *)
Definition is_text (e : event) : bool :=
  match e with LcdSetCursor _ _ | LcdPrint _ | LcdPrintInt _ => true | _ => false end.

(** [m] only writes to the display, and always returns: the events it adds
    are text and cursor moves. *)
Definition paints {A} (m : M A) : Prop :=
  forall s, exists a s' new,
    m s = Done a s'
    /\ behind_display s' = behind_display s
    /\ trace s' = new ++ trace s
    /\ forallb is_text new = true.

(** * Properties of the input layer *)

Lemma button_of_adc_range (a : Z) : 0 <= button_of_adc a <= 5.
Proof.
  unfold button_of_adc, btnNone, btnR, btnUp, btnDn, btnL, btnSel.
  repeat match goal with |- context [if ?c then _ else _] => destruct c end; lia.
Qed.

(** What one call of [readLcdButtons] does, by the samples it is given. *)
Lemma readLcdButtons_eq (s : state) :
  readLcdButtons s =
  match adc_in s with
  | [] => Starved s
  | a1 :: rest =>
      if button_of_adc a1 =? prevButton s then Done (prevButton s) (set_adc_in rest s)
      else
        let s1 := set_trace (Delay DEBOUNCE_TIME :: trace s) (set_adc_in rest s) in
        match rest with
        | [] => Starved s1
        | a2 :: rest' =>
            Done (button_of_adc a2)
                 (set_prevButton (button_of_adc a2) (set_adc_in rest' s1))
        end
  end.
Proof.
  unfold readLcdButtons, getButtonfromRawData, bind, analogRead0, gets, ret.
  destruct (adc_in s) as [|a1 rest] eqn:E; [reflexivity|].
  cbn. destruct (button_of_adc a1 =? prevButton s); [reflexivity|].
  unfold delay, emit, modify. cbn. destruct rest; reflexivity.
Qed.

Lemma readLcdButtons_range (s s' : state) (b : Z) :
  readLcdButtons s = Done b s' -> 0 <= b <= 5.
Proof.
  rewrite readLcdButtons_eq.
  destruct (adc_in s) as [|a1 [|a2 rest]]; try discriminate;
    destruct (button_of_adc a1 =? prevButton s) eqn:E; try discriminate;
    intros H; injection H as <- _;
    try (apply Z.eqb_eq in E; rewrite <- E); apply button_of_adc_range.
Qed.

(** The machine leaves [up_state] only with a pressed button in [btnVal], and
    [btnVal] is not assigned anywhere else. *)
Lemma getKeyClick_loop_real (fuel : nat) :
  forall (q : fsm_state) (btnVal : Z) (s s' : state) (b : Z),
    (q = up_state \/ (0 <= btnVal <= 5 /\ btnVal <> btnNone)) ->
    getKeyClick_loop fuel q btnVal s = Done b s' ->
    0 <= b <= 5 /\ b <> btnNone.
Proof.
  induction fuel as [|fuel IH]; intros q btnVal s s' b Hq H; [discriminate|].
  destruct q; cbn [getKeyClick_loop] in H; unfold bind at 1 in H;
    destruct (readLcdButtons s) as [v s1| |] eqn:R; try discriminate.
  - apply readLcdButtons_range in R.
    destruct (v =? btnNone) eqn:E; cbn [negb] in H.
    + eapply IH; [left; reflexivity | exact H].
    + unfold bind, delay, emit, modify in H.
      eapply IH; [right | exact H]. apply Z.eqb_neq in E. auto.
  - destruct Hq as [Hq|Hq]; [discriminate|].
    destruct (v =? btnVal); eapply IH; eauto.
  - destruct Hq as [Hq|Hq]; [discriminate|].
    destruct (v =? btnNone).
    + injection H as <- _. exact Hq.
    + destruct (negb (v =? btnVal)); eapply IH; eauto.
Qed.

(** C10.  Whenever [getKeyClick] returns, the value it returns is one of
    [btnUp], [btnDn], [btnL], [btnR], [btnSel]; it is never [btnNone]. *)
Theorem getKeyClick_returns_real_button (s s' : state) (b : Z) :
  getKeyClick s = Done b s' -> real_button b /\ b <> btnNone.
Proof.
  intros H. unfold getKeyClick in H.
  apply getKeyClick_loop_real in H; [|left; reflexivity].
  destruct H as [Hr Hn]. split; [|exact Hn].
  unfold real_button, btnUp, btnDn, btnL, btnR, btnSel, btnNone in *. lia.
Qed.

(** A click of Select on a board just switched on. *)
Lemma getKeyClick_returns_real_button_witness :
  getKeyClick (initial_state (click adc_select))
    = Done btnSel (final (getKeyClick (initial_state (click adc_select))))
  /\ real_button btnSel /\ btnSel <> btnNone.
Proof.
  split; [vm_compute; reflexivity|].
  apply (getKeyClick_returns_real_button (initial_state (click adc_select))
           (final (getKeyClick (initial_state (click adc_select)))) btnSel).
  vm_compute; reflexivity.
Defined.

(** * [getIntFromDigits] and 16-bit arithmetic *)

Lemma wrap16_range (z : Z) : in_int (wrap16 z).
Proof.
  unfold in_int, wrap16, INT_MIN, INT_MAX.
  pose proof (Z.mod_pos_bound (z + 32768) 65536). lia.
Qed.

Lemma wrap16_lift (z : Z) : exists k, wrap16 z = z + 65536 * k.
Proof.
  exists (- ((z + 32768) / 65536)). unfold wrap16.
  pose proof (Z.div_mod (z + 32768) 65536). lia.
Qed.

Lemma wrap16_small (z : Z) : in_int z -> wrap16 z = z.
Proof.
  unfold in_int, wrap16, INT_MIN, INT_MAX. intros H.
  rewrite Z.mod_small; lia.
Qed.

Lemma decimal_snoc (ds : list Z) (d : Z) : decimal (ds ++ [d]) = 10 * decimal ds + d.
Proof. unfold decimal. rewrite fold_left_app. reflexivity. Qed.

Lemma decimal_from (ds : list Z) :
  forall a, fold_left (fun acc d => 10 * acc + d) ds a
            = a * 10 ^ Z.of_nat (length ds) + decimal ds.
Proof.
  unfold decimal.
  induction ds as [|x ds IH]; intros a; cbn [fold_left length].
  - cbn. lia.
  - rewrite (IH (10 * a + x)), (IH (10 * 0 + x)).
    rewrite Nat2Z.inj_succ, Z.pow_succ_r by lia. ring.
Qed.

Lemma decimal_cons (d : Z) (ds : list Z) :
  decimal (d :: ds) = d * 10 ^ Z.of_nat (length ds) + decimal ds.
Proof.
  unfold decimal at 1. cbn [fold_left]. rewrite decimal_from. ring.
Qed.

Lemma decimal_bound (ds : list Z) :
  Forall is_digit ds -> 0 <= decimal ds < 10 ^ Z.of_nat (length ds).
Proof.
  induction 1 as [|d ds Hd _ IH].
  - cbn. lia.
  - rewrite decimal_cons. cbn [length].
    rewrite Nat2Z.inj_succ, Z.pow_succ_r by lia.
    unfold is_digit in Hd. nia.
Qed.

(** The loop computes the decimal value of the first [n] digits, up to a
    multiple of 2^16. *)
Lemma getIntFromDigits_loop_congr (digits : list Z) (n : nat) :
  forall value power V P,
    (n <= length digits)%nat ->
    (exists k, value = V + 65536 * k) ->
    (exists k, power = P + 65536 * k) ->
    exists k, getIntFromDigits_loop digits n value power
              = V + P * decimal (take n digits) + 65536 * k.
Proof.
  induction n as [|i IH]; intros value power V P Hn [k1 Hv] [k2 Hp].
  - exists k1. cbn [getIntFromDigits_loop]. rewrite take_0, Hv.
    unfold decimal. cbn [fold_left]. lia.
  - cbn [getIntFromDigits_loop].
    destruct (lookup_lt_is_Some_2 digits i) as [d Hd]; [lia|].
    assert (Hget : array_get digits (Z.of_nat i) = d).
    { unfold array_get. rewrite Nat2Z.id, Hd. reflexivity. }
    rewrite Hget, (take_S_r _ _ _ Hd), decimal_snoc.
    destruct (wrap16_lift (power * d)) as [k3 H3].
    destruct (wrap16_lift (value + wrap16 (power * d))) as [k4 H4].
    destruct (wrap16_lift (power * 10)) as [k5 H5].
    destruct (IH (wrap16 (value + wrap16 (power * d))) (wrap16 (power * 10))
                 (V + P * d) (10 * P)) as [k Hk].
    + lia.
    + exists (k1 + k2 * d + k3 + k4). rewrite H4, H3, Hv, Hp. ring.
    + exists (10 * k2 + k5). rewrite H5, Hp. ring.
    + exists k. rewrite Hk. ring.
Qed.

Lemma getIntFromDigits_loop_range (digits : list Z) (n : nat) :
  forall value power, in_int value -> in_int (getIntFromDigits_loop digits n value power).
Proof.
  induction n as [|i IH]; intros value power Hv; cbn [getIntFromDigits_loop].
  - exact Hv.
  - apply IH, wrap16_range.
Qed.

(** Below [INT_MAX] the function is exact. *)
Lemma getIntFromDigits_exact (digits : list Z) :
  0 <= decimal digits <= INT_MAX ->
  getIntFromDigits digits (Z.of_nat (length digits)) = decimal digits.
Proof.
  intros Hd. unfold getIntFromDigits. rewrite Nat2Z.id.
  destruct (getIntFromDigits_loop_congr digits (length digits) 0 1 0 1)
    as [k Hk]; [lia | exists 0; lia | exists 0; lia |].
  pose proof (getIntFromDigits_loop_range digits (length digits) 0 1) as Hr.
  rewrite firstn_all in Hk.
  unfold in_int, INT_MIN, INT_MAX in *.
  specialize (Hr ltac:(lia)). lia.
Qed.

Lemma encode_digits_shift (n : nat) :
  forall (m : nat) (a r : Z),
    (n <= m)%nat -> encode_digits n (a * 10 ^ Z.of_nat m + r) = encode_digits n r.
Proof.
  induction n as [|n IH]; intros m a r Hm; cbn [encode_digits]; [reflexivity|].
  rewrite (IH m a r) by lia. f_equal.
  replace (Z.of_nat m) with (Z.of_nat (m - S n) + 1 + Z.of_nat n) by lia.
  rewrite !Z.pow_add_r by lia.
  assert (0 < 10 ^ Z.of_nat n) by (apply Z.pow_pos_nonneg; lia).
  replace (a * (10 ^ Z.of_nat (m - S n) * 10 ^ 1 * 10 ^ Z.of_nat n) + r)
    with (r + (a * 10 ^ Z.of_nat (m - S n) * 10) * 10 ^ Z.of_nat n) by ring.
  rewrite Z.div_add by lia.
  rewrite Z_mod_plus_full. reflexivity.
Qed.

Lemma encode_digits_decimal (ds : list Z) :
  Forall is_digit ds -> encode_digits (length ds) (decimal ds) = ds.
Proof.
  induction 1 as [|d ds Hd Hds IH]; [reflexivity|].
  cbn [length encode_digits]. rewrite decimal_cons.
  pose proof (decimal_bound ds Hds) as Hb.
  rewrite encode_digits_shift by lia. rewrite IH. f_equal.
  rewrite Z.add_comm, Z.div_add by lia.
  rewrite Z.div_small by lia. unfold is_digit in Hd.
  rewrite Z.mod_small; lia.
Qed.

(** Decoding and re-encoding gives the digits back as long as the number
    they denote is an [int]. *)
Lemma getIntFromDigits_roundtrip_int (digits : list Z) :
  Forall is_digit digits ->
  decimal digits <= INT_MAX ->
  encode_digits (length digits) (getIntFromDigits digits (Z.of_nat (length digits)))
  = digits.
Proof.
  intros Hd Hmax. pose proof (decimal_bound digits Hd).
  rewrite getIntFromDigits_exact by lia.
  apply encode_digits_decimal, Hd.
Qed.

(** That is so for every four-digit field (distance, steps). *)
Lemma getIntFromDigits_roundtrip_4 (digits : list Z) :
  Forall is_digit digits ->
  length digits = 4%nat ->
  encode_digits 4 (getIntFromDigits digits 4) = digits.
Proof.
  intros Hd Hl. pose proof (decimal_bound digits Hd) as Hb.
  rewrite Hl in Hb.
  pose proof (getIntFromDigits_roundtrip_int digits Hd) as H.
  rewrite Hl in H. apply H. unfold INT_MAX.
  change (10 ^ Z.of_nat 4) with 10000 in Hb. lia.
Qed.

(** C7 (evaluation of the code).  The six digits 065536 denote a number
    above [INT_MAX]; the 16-bit arithmetic of [getIntFromDigits] wraps and
    returns 0, which fits in six digits and re-encodes as 000000, not as the
    digits entered.  Typing these digits into the duration field stores a
    duration of 0. *)
Theorem getIntFromDigits_wraps_six_digits :
  Forall is_digit duration_065536
  /\ length duration_065536 = Z.to_nat NUM_DURATION_DIGITS
  /\ getIntFromDigits duration_065536 NUM_DURATION_DIGITS = 0
  /\ 0 <= getIntFromDigits duration_065536 NUM_DURATION_DIGITS < 10 ^ NUM_DURATION_DIGITS
  /\ encode_digits 6 (getIntFromDigits duration_065536 NUM_DURATION_DIGITS)
     = [0; 0; 0; 0; 0; 0]
  /\ encode_digits 6 (getIntFromDigits duration_065536 NUM_DURATION_DIGITS)
     <> duration_065536
  /\ currentDuration (final (getDuration (initial_state (typing [0; 6; 5; 5; 3; 6]%nat))))
     = duration_065536
  /\ currentDurationInt (final (getDuration (initial_state (typing [0; 6; 5; 5; 3; 6]%nat))))
     = 0.
Proof.
  split.
  { unfold duration_065536, is_digit. repeat constructor; lia. }
  split; [reflexivity|]. split; [vm_compute; reflexivity|].
  split; [vm_compute; split; [discriminate | reflexivity]|].
  split; [vm_compute; reflexivity|].
  split; [vm_compute; discriminate|].
  split; vm_compute; reflexivity.
Qed.

(** * Motion control *)

(** ** The monad's plumbing *)

Lemma bind_Done {A B} (m : M A) (k : A -> M B) (s s' : state) (a : A) :
  m s = Done a s' -> bind m k s = k a s'.
Proof. unfold bind. intros ->. reflexivity. Qed.

Lemma pulses_swap (n : nat) (tr : list event) :
  pulses n ++ DigitalWrite stp HIGH :: DigitalWrite stp LOW :: tr
  = DigitalWrite stp HIGH :: DigitalWrite stp LOW :: pulses n ++ tr.
Proof.
  induction n as [|n IH]; [reflexivity|].
  cbn [pulses app]. rewrite IH. reflexivity.
Qed.

Lemma fire_eq (n : nat) : forall s, fire n s = Done tt (fired n s).
Proof.
  induction n as [|n IH]; intros s.
  - destruct s. reflexivity.
  - cbn [fire]. unfold bind at 1.
    unfold stepperDriveUsingTimer, digitalWrite, emit, modify, bind.
    rewrite IH. f_equal. unfold fired, bump.
    rewrite Nat.iter_succ_r. destruct s. cbn.
    rewrite pulses_swap. reflexivity.
Qed.

Lemma interrupts_eq (n : nat) (s : state) :
  interrupts n s = Done tt (if timer_on s then fired n s else s).
Proof.
  unfold interrupts, bind, gets. destruct (timer_on s); [apply fire_eq | reflexivity].
Qed.

Lemma count_events_app (f : event -> bool) (l1 l2 : list event) :
  count_events f (l1 ++ l2) = (count_events f l1 + count_events f l2)%nat.
Proof. unfold count_events. rewrite List.filter_app, length_app. reflexivity. Qed.

Lemma count_events_cons (f : event -> bool) (e : event) (l : list event) :
  count_events f (e :: l) = ((if f e then 1 else 0) + count_events f l)%nat.
Proof.
  unfold count_events. cbn [List.filter]. destruct (f e); reflexivity.
Qed.

Lemma pulses_no_shutter (n : nat) : count_events is_shutter (pulses n) = 0%nat.
Proof. induction n as [|n IH]; [reflexivity|]. cbn [pulses]. rewrite !count_events_cons, IH. reflexivity. Qed.

Lemma pulses_no_dot (n : nat) : count_events is_dot (pulses n) = 0%nat.
Proof. induction n as [|n IH]; [reflexivity|]. cbn [pulses]. rewrite !count_events_cons, IH. reflexivity. Qed.

Lemma pulses_steps (n : nat) : count_events is_step (pulses n) = n.
Proof. induction n as [|n IH]; [reflexivity|]. cbn [pulses]. rewrite !count_events_cons, IH. reflexivity. Qed.

Lemma interrupts_ticked (n : nat) (s : state) : interrupts n s = Done tt (ticked n s).
Proof. apply interrupts_eq. Qed.

Lemma ticked_adc_in n s : adc_in (ticked n s) = adc_in s.
Proof. unfold ticked. destruct (timer_on s); reflexivity. Qed.

Lemma ticked_prevButton n s : prevButton (ticked n s) = prevButton s.
Proof. unfold ticked. destruct (timer_on s); reflexivity. Qed.

Lemma fired_trace n s : trace (fired n s) = pulses n ++ trace s.
Proof. reflexivity. Qed.

Lemma ticked_shutter_pulses n s :
  count_events is_shutter (trace (ticked n s)) = count_events is_shutter (trace s).
Proof.
  unfold ticked. destruct (timer_on s); [|reflexivity].
  rewrite fired_trace, count_events_app, pulses_no_shutter. reflexivity.
Qed.

Lemma ticked_dots n s :
  count_events is_dot (trace (ticked n s)) = count_events is_dot (trace s).
Proof.
  unfold ticked. destruct (timer_on s); [|reflexivity].
  rewrite fired_trace, count_events_app, pulses_no_dot. reflexivity.
Qed.

(** ** Cancellation *)

(** The poll reads Select exactly on the samples of [select_read]. *)
Lemma readLcdButtons_select (s : state) :
  select_read s <-> exists s', readLcdButtons s = Done btnSel s'.
Proof.
  rewrite readLcdButtons_eq. unfold select_read. split.
  - intros (a1 & rest & -> & H).
    destruct (button_of_adc a1 =? prevButton s).
    + rewrite H. eexists; reflexivity.
    + destruct H as (a2 & rest' & -> & ->). cbv zeta. eexists; reflexivity.
  - intros (s' & H). destruct (adc_in s) as [|a1 rest]; [discriminate|].
    exists a1, rest. split; [reflexivity|].
    destruct (button_of_adc a1 =? prevButton s).
    + injection H as H _. exact H.
    + cbv zeta in H. destruct rest as [|a2 rest']; [discriminate|].
      injection H as H _. exists a2, rest'. auto.
Qed.

(** A turn whose poll reads Select leaves the loop at once: no shutter
    sequence, no progress marker. *)
Lemma iteration_select (e : ticks) (p : Z) (s : state) :
  select_read s ->
  exists s',
    iteration e p s = Done (Leave UserCancelled) s'
    /\ shutter_pulses s' = shutter_pulses s /\ dots s' = dots s.
Proof.
  intros (a1 & rest & Hadc & H).
  unfold iteration.
  rewrite (bind_Done _ _ _ _ _ (interrupts_ticked _ _)).
  unfold bind at 1. rewrite readLcdButtons_eq, ticked_adc_in, Hadc, ticked_prevButton.
  destruct (button_of_adc a1 =? prevButton s) eqn:E.
  - rewrite H. cbn.
    eexists; split; [reflexivity|].
    unfold shutter_pulses, dots. cbn [trace set_adc_in set_prevButton set_trace].
    rewrite ticked_shutter_pulses, ticked_dots. split; reflexivity.
  - destruct H as (a2 & rest' & -> & H2). cbn. rewrite H2. cbn.
    eexists; split; [reflexivity|].
    unfold shutter_pulses, dots. cbn [trace set_adc_in set_prevButton set_trace].
    rewrite !count_events_cons, ticked_shutter_pulses, ticked_dots.
    split; reflexivity.
Qed.

Lemma turns_app (sch1 sch2 : list ticks) :
  forall (p : Z) (s : state),
    turns (sch1 ++ sch2) p s =
    match turns sch1 p s with
    | Done (Again p') s' => turns sch2 p' s'
    | r => r
    end.
Proof.
  induction sch1 as [|e sch1 IH]; intros p s; [reflexivity|].
  cbn [app turns]. unfold bind.
  destruct (iteration e p s) as [[p'|o] s'| |]; try reflexivity.
  apply IH.
Qed.

(** C2 (counterexample).  A Select level that is on the line when a poll
    first samples it and gone when the poll samples again 10 ms later is
    never acted on: with the level asserted like this at every one of its
    500 polls, a video run of 100 mm goes all the way - 500 steps, left by
    the loop condition, not by the cancellation. *)
Lemma select_flicker_run_completes :
  adc_in flicker_demo = concat (repeat [adc_select; 1023] 500)
  /\ button_of_adc adc_select = btnSel
  /\ motionControl (repeat tick_in_poll 500) flicker_demo
     = Done Completed (final (motionControl (repeat tick_in_poll 500) flicker_demo))
  /\ currentStep (final (motionControl (repeat tick_in_poll 500) flicker_demo)) = 500
  /\ adc_in (final (motionControl (repeat tick_in_poll 500) flicker_demo)) = [].
Proof.
  repeat match goal with |- _ /\ _ => split end; vm_compute; reflexivity.
Qed.

(** C2 (amended).  At any poll of any run - after the plan was made and any
    number of turns of the loop went by with the loop still live - a poll
    that reads Select ends the run in that very turn, whatever timer firings
    the rest of the script holds: no shutter sequence and no progress marker
    come between, the run is left by the cancellation exit and the pulse
    timer is stopped.  A poll reads Select when its sample decodes to the
    last reading and that was Select, or differs from the last reading and
    the sample taken after the debounce delay decodes to Select. *)
Theorem select_read_cancels_within_one_turn
    (sch1 sch2 : list ticks) (e : ticks) (s s1 : state) (p1 : Z) :
  bind plan (fun _ => turns sch1 0) s = Done (Again p1) s1 ->
  select_read s1 ->
  exists s2,
    motionControl (sch1 ++ e :: sch2) s = Done UserCancelled s2
    /\ timer_on s2 = false
    /\ head (trace s2) = Some TimerStop
    /\ shutter_pulses s2 = shutter_pulses s1
    /\ dots s2 = dots s1.
Proof.
  intros Hrun Hsel.
  unfold bind in Hrun. destruct (plan s) as [[] s0| |] eqn:Hplan; try discriminate.
  destruct (iteration_select e p1 s1 Hsel) as (s' & Hit & Hsh & Hdot).
  unfold motionControl. rewrite (bind_Done _ _ _ _ _ Hplan).
  assert (Hsup : supervise (sch1 ++ e :: sch2) 0 s0 = Done UserCancelled s').
  { unfold supervise. unfold bind at 1. rewrite turns_app, Hrun.
    cbn [turns]. rewrite (bind_Done _ _ _ _ _ Hit). reflexivity. }
  rewrite (bind_Done _ _ _ _ _ Hsup).
  exists (set_timer_on false (set_trace (TimerStop :: trace s') s')).
  split; [reflexivity|].
  rewrite <- Hsh, <- Hdot. unfold shutter_pulses, dots.
  cbn [timer_on trace set_timer_on set_trace head].
  rewrite !count_events_cons. repeat split; reflexivity.
Qed.

Lemma select_read_cancels_within_one_turn_witness :
  exists s2,
    motionControl ([tick_in_poll; tick_in_poll] ++ no_tick :: [tick_in_poll; tick_in_poll])
                  cancel_demo
      = Done UserCancelled s2
    /\ timer_on s2 = false
    /\ head (trace s2) = Some TimerStop
    /\ shutter_pulses s2
       = shutter_pulses (final (bind plan (fun _ => turns [tick_in_poll; tick_in_poll] 0) cancel_demo))
    /\ dots s2
       = dots (final (bind plan (fun _ => turns [tick_in_poll; tick_in_poll] 0) cancel_demo)).
Proof.
  apply (select_read_cancels_within_one_turn
           [tick_in_poll; tick_in_poll] [tick_in_poll; tick_in_poll] no_tick cancel_demo
           (final (bind plan (fun _ => turns [tick_in_poll; tick_in_poll] 0) cancel_demo)) 2).
  - vm_compute. reflexivity.
  - exists adc_select, [adc_select]. split; [vm_compute; reflexivity|].
    vm_compute. exists 741, []. split; reflexivity.
Defined.

(** ** Stepping through the loop body *)

Lemma bind_ret {A B} (a : A) (k : A -> M B) (s : state) : bind (ret a) k s = k a s.
Proof. reflexivity. Qed.

Lemma bind_gets {A B} (f : state -> A) (k : A -> M B) (s : state) :
  bind (gets f) k s = k (f s) s.
Proof. reflexivity. Qed.

Lemma bind_modify {B} (f : state -> state) (k : unit -> M B) (s : state) :
  bind (modify f) k s = k tt (f s).
Proof. reflexivity. Qed.

Lemma bind_emit {B} (e : event) (k : unit -> M B) (s : state) :
  bind (emit e) k s = k tt (set_trace (e :: trace s) s).
Proof. reflexivity. Qed.

Lemma bind_assoc {A B C} (m : M A) (f : A -> M B) (g : B -> M C) (s : state) :
  bind (bind m f) g s = bind m (fun a => bind (f a) g) s.
Proof. unfold bind. destruct (m s); reflexivity. Qed.

Lemma bind_interrupts {B} (n : nat) (k : unit -> M B) (s : state) :
  timer_on s = true -> bind (interrupts n) k s = k tt (fired n s).
Proof.
  intros H. unfold bind. rewrite interrupts_eq, H. reflexivity.
Qed.

Lemma bind_c_rem {B} (a b : Z) (k : Z -> M B) (s : state) :
  b <> 0 -> bind (c_rem a b) k s = k (Z.rem a b) s.
Proof.
  intros H. unfold bind, c_rem. apply Z.eqb_neq in H. rewrite H. reflexivity.
Qed.

Lemma bump_add (a b : nat) (z : Z) : bump (a + b) z = bump b (bump a z).
Proof.
  unfold bump. rewrite Nat.add_comm. apply Nat.iter_add.
Qed.

(** Reduction of field accesses on updated states. *)
Ltac fields :=
  cbn [adc_in trace timer_on prevButton currentCursorPos currentChar LCDLine2Value
       currentDistance currentDuration currentSteps currentDistanceInt
       currentDurationInt currentStepsInt travelDir totalMotorSteps pulseDelay
       intervalDistance currentStep dotDistance
       set_adc_in set_trace set_timer_on set_prevButton set_currentStep
       set_totalMotorSteps set_pulseDelay set_intervalDistance set_dotDistance
       fired] in *.

(** One turn in video mode with the keypad left alone: the counter moves by
    the firings of the turn, the shutter is left alone, and the loop goes
    round again exactly when the counter is still below the total. *)
Lemma iteration_video (e : ticks) (p : Z) (s : state) (a1 a2 : Z) (rest : list Z) :
  currentStepsInt s = 0 ->
  dotDistance s <> 0 ->
  timer_on s = true ->
  adc_in s = a1 :: a2 :: rest ->
  button_of_adc a1 <> btnSel ->
  button_of_adc a2 <> btnSel ->
  exists c s',
    iteration e p s = Done c s'
    /\ (adc_in s' = a2 :: rest \/ adc_in s' = rest)
    /\ currentStep s' = bump (ticks_in e) (currentStep s)
    /\ same_plan s s'
    /\ shutter_pulses s' = shutter_pulses s
    /\ motor_pulses s' = (motor_pulses s + ticks_in e)%nat
    /\ match c with
       | Again _ => currentStep s' < totalMotorSteps s
       | Leave o => o = Completed /\ totalMotorSteps s <= currentStep s'
       end.
Proof.
  intros Hsteps Hdd Hon Hadc Ha1 Ha2.
  unfold iteration.
  rewrite bind_interrupts by assumption.
  unfold bind at 1. rewrite readLcdButtons_eq. fields. rewrite Hadc.
  destruct (button_of_adc a1 =? prevButton s) eqn:E1.
  1: apply Z.eqb_eq in E1; rewrite <- E1; apply Z.eqb_neq in Ha1; rewrite Ha1.
  2: cbv zeta; apply Z.eqb_neq in Ha2; rewrite Ha2.
  all: rewrite bind_gets; fields; rewrite Hsteps.
  all: change (0 <? 0) with false; cbv iota.
  all: rewrite !bind_ret, bind_interrupts by (fields; assumption).
  all: rewrite bind_gets; fields.
  all: match goal with |- context [if negb ?c then _ else _] => destruct (negb c) end.
  all: rewrite bind_assoc, bind_interrupts by (fields; assumption).
  all: repeat first
         [ rewrite bind_assoc | rewrite bind_gets | rewrite bind_ret
         | rewrite bind_interrupts by (fields; assumption)
         | rewrite bind_c_rem by (fields; assumption) ]; fields.
  all: try match goal with |- context [if ?c =? 0 then emit _ else _] => destruct (c =? 0) end.
  all: repeat first
         [ rewrite bind_assoc | rewrite bind_gets | rewrite bind_ret | rewrite bind_emit
         | rewrite bind_interrupts by (fields; assumption) ]; fields.
  all: match goal with |- context [if ?c <? ?t then _ else _] => destruct (c <? t) eqn:W end.
  all: eexists; eexists; (split; [reflexivity|]); fields.
  all: split; [auto|].
  all: split; [unfold ticks_in; rewrite !bump_add; reflexivity|].
  all: split; [unfold same_plan; fields; repeat split; reflexivity|].
  all: unfold shutter_pulses, motor_pulses, ticks_in; fields.
  all: repeat rewrite ?count_events_app, ?count_events_cons, ?pulses_no_shutter, ?pulses_steps.
  all: cbn [is_shutter is_step].
  all: split; [lia|].
  all: split; [lia|].
  all: first [apply Z.ltb_lt in W; exact W | apply Z.ltb_ge in W; split; [reflexivity | exact W]].
Qed.

(** A firing moves the counter by one while it is below [INT_MAX]. *)
Lemma bump_single (t : nat) (z : Z) :
  (t <= 1)%nat -> INT_MIN <= z < INT_MAX -> bump t z = z + Z.of_nat t.
Proof.
  intros Ht Hz. destruct t as [|[|t]]; [cbn; lia | | lia].
  change (bump 1 z) with (wrap16 (z + 1)). rewrite wrap16_small; [lia|].
  unfold in_int. lia.
Qed.

(** A video-mode run, the keypad left alone, at most one firing a turn: the
    loop is left by its condition in the turn in which the counter reaches
    the total, with as many motor pulses given as steps were missing. *)
Lemma turns_video (sch : list ticks) :
  forall (p : Z) (s : state),
    currentStepsInt s = 0 ->
    dotDistance s <> 0 ->
    timer_on s = true ->
    calm (adc_in s) = true ->
    (2 * length sch <= length (adc_in s))%nat ->
    single_tick sch = true ->
    0 <= currentStep s < totalMotorSteps s ->
    totalMotorSteps s <= INT_MAX ->
    totalMotorSteps s <= currentStep s + Z.of_nat (ticks_total sch) ->
    exists s',
      turns sch p s = Done (Leave Completed) s'
      /\ currentStep s' = totalMotorSteps s
      /\ same_plan s s'
      /\ shutter_pulses s' = shutter_pulses s
      /\ Z.of_nat (motor_pulses s')
         = Z.of_nat (motor_pulses s) + (totalMotorSteps s - currentStep s).
Proof.
  induction sch as [|e sch IH]; intros p s Hsteps Hdd Hon Hcalm Hlen Hone Hcs Hmax Htot.
  - cbn in Htot. lia.
  - cbn [length] in Hlen.
    destruct (adc_in s) as [|a1 [|a2 rest]] eqn:Hadc; cbn [length] in Hlen; try lia.
    cbn [calm forallb] in Hcalm.
    apply andb_prop in Hcalm as [Hc1 Hcalm]. apply andb_prop in Hcalm as [Hc2 Hcalm].
    apply negb_true_iff, Z.eqb_neq in Hc1. apply negb_true_iff, Z.eqb_neq in Hc2.
    cbn [single_tick forallb] in Hone. apply andb_prop in Hone as [Ht Hone].
    apply Nat.leb_le in Ht.
    cbn [ticks_total fold_right] in Htot. fold (ticks_total sch) in Htot.
    destruct (iteration_video e p s a1 a2 rest Hsteps Hdd Hon Hadc Hc1 Hc2)
      as (c & s1 & Hit & Hadc1 & Hcs1 & Hplan & Hsh & Hmp & Hc).
    rewrite bump_single in Hcs1 by (unfold INT_MIN, INT_MAX in *; lia).
    cbn [turns]. rewrite (bind_Done _ _ _ _ _ Hit).
    pose proof Hplan as (P1 & P2 & P3 & P4 & P5 & P6).
    destruct c as [p'|o].
    + destruct (IH p' s1) as (s' & Hrun & Hfin & Hplan' & Hsh' & Hmp').
      * congruence.
      * congruence.
      * congruence.
      * destruct Hadc1 as [-> | ->]; cbn [calm forallb]; [|exact Hcalm].
        apply andb_true_intro; split; [|exact Hcalm].
        apply negb_true_iff, Z.eqb_neq, Hc2.
      * destruct Hadc1 as [-> | ->]; cbn [length]; lia.
      * exact Hone.
      * rewrite P2. lia.
      * rewrite P2. exact Hmax.
      * rewrite P2. lia.
      * exists s'. split; [exact Hrun|].
        destruct Hplan' as (Q1 & Q2 & Q3 & Q4 & Q5 & Q6).
        repeat split; try congruence. lia.
    + destruct Hc as [-> Hge]. exists s1.
      repeat split; try assumption; try reflexivity; lia.
Qed.

(** ** Invariants of a run, whatever the script *)

Section Keeps.
Context (Inv : state -> Prop).

Lemma keeps_ret {A} (a : A) : keeps Inv (ret a).
Proof. intros s Hs. exact Hs. Qed.

Lemma keeps_gets {A} (f : state -> A) : keeps Inv (gets f).
Proof. intros s Hs. exact Hs. Qed.

Lemma keeps_starved {A} : keeps Inv (fun s => @Starved A s).
Proof. intros s Hs. exact Hs. Qed.

Lemma keeps_modify (f : state -> state) :
  (forall s, Inv s -> Inv (f s)) -> keeps Inv (modify f).
Proof. intros H s Hs. apply H, Hs. Qed.

Lemma keeps_bind {A B} (m : M A) (k : A -> M B) :
  keeps Inv m -> (forall a, keeps Inv (k a)) -> keeps Inv (bind m k).
Proof.
  intros Hm Hk s Hs. unfold bind. specialize (Hm s Hs).
  destruct (m s) as [a s'| |]; cbn [final] in *; auto. apply Hk, Hm.
Qed.

Lemma keeps_bind_gets {A B} (f : state -> A) (k : A -> M B) :
  (forall s0, Inv s0 -> keeps Inv (k (f s0))) -> keeps Inv (bind (gets f) k).
Proof. intros H s Hs. rewrite bind_gets. apply (H s Hs s Hs). Qed.

Lemma keeps_bind_ret {A B} (a : A) (k : A -> M B) :
  keeps Inv (k a) -> keeps Inv (bind (ret a) k).
Proof. intros H s Hs. rewrite bind_ret. apply H, Hs. Qed.

Lemma keeps_c_rem (a b : Z) : keeps Inv (c_rem a b).
Proof. intros s Hs. unfold c_rem. destruct (b =? 0); exact Hs. Qed.
End Keeps.

Lemma ensures_bind {A B} (m : M A) (k : A -> M B) (Q : B -> state -> Prop) :
  (forall a, ensures (k a) Q) -> ensures (bind m k) Q.
Proof.
  intros Hk s b s' H. unfold bind in H.
  destruct (m s) as [a s1| |]; try discriminate. exact (Hk a s1 b s' H).
Qed.

Lemma iteration_exit_rule (e : ticks) (p : Z) : ensures (iteration e p) exit_rule.
Proof.
  unfold iteration.
  apply ensures_bind; intros _. apply ensures_bind; intros b.
  destruct (b =? btnSel).
  { intros s a s' H. injection H as <- <-. exact Logic.I. }
  do 7 (apply ensures_bind; intros ?).
  intros s c s' H. rewrite !bind_gets in H.
  destruct (currentStep s <? totalMotorSteps s) eqn:W; injection H as <- <-; cbn.
  - apply Z.ltb_lt, W.
  - apply Z.ltb_ge, W.
Qed.

Lemma turns_exit_rule (sch : list ticks) :
  forall p, ensures (turns sch p)
              (fun c s => c = Leave Completed -> totalMotorSteps s <= currentStep s).
Proof.
  induction sch as [|e sch IH]; intros p s c s' H.
  - injection H as <- <-. discriminate.
  - cbn [turns] in H. unfold bind in H.
    destruct (iteration e p s) as [[p'|o] s1| |] eqn:Hit; try discriminate.
    + exact (IH p' s1 c s' H).
    + injection H as <- <-. intros Ho. injection Ho as ->.
      exact (iteration_exit_rule e p s _ _ Hit).
Qed.

Section VideoInv.
Context (total delay_ms : Z) (k : nat).

Lemma video_inv_trace (s s' : state) (pre : list event) :
  video_inv total delay_ms k s ->
  currentStepsInt s' = currentStepsInt s ->
  totalMotorSteps s' = totalMotorSteps s ->
  pulseDelay s' = pulseDelay s ->
  trace s' = pre ++ trace s ->
  count_events is_shutter pre = 0%nat ->
  video_inv total delay_ms k s'.
Proof.
  intros (H1 & H2 & H3 & H4 & H5) E1 E2 E3 E4 Hpre.
  unfold video_inv, shutter_pulses in *.
  rewrite E1, E2, E3, E4, count_events_app, Hpre.
  repeat split; try assumption. apply in_or_app. right. exact H5.
Qed.

Lemma keeps_emit (e : event) : is_shutter e = false -> keeps (video_inv total delay_ms k) (emit e).
Proof.
  intros He s Hs.
  apply (video_inv_trace s _ [e] Hs); try reflexivity.
  rewrite count_events_cons, He. reflexivity.
Qed.

Lemma keeps_interrupts (n : nat) : keeps (video_inv total delay_ms k) (interrupts n).
Proof.
  intros s Hs. rewrite interrupts_eq. cbn [final].
  destruct (timer_on s); [|exact Hs].
  apply (video_inv_trace s _ (pulses n) Hs); try reflexivity.
  apply pulses_no_shutter.
Qed.

Lemma keeps_readLcdButtons : keeps (video_inv total delay_ms k) readLcdButtons.
Proof.
  intros s Hs. rewrite readLcdButtons_eq.
  destruct (adc_in s) as [|a1 rest]; [exact Hs|].
  destruct (button_of_adc a1 =? prevButton s).
  - apply (video_inv_trace s _ [] Hs); reflexivity.
  - cbv zeta. destruct rest as [|a2 rest]; cbn [final];
      apply (video_inv_trace s _ [Delay DEBOUNCE_TIME] Hs); reflexivity.
Qed.

Lemma keeps_iteration (e : ticks) (p : Z) : keeps (video_inv total delay_ms k) (iteration e p).
Proof.
  unfold iteration.
  apply keeps_bind; [apply keeps_interrupts | intros _].
  apply keeps_bind; [apply keeps_readLcdButtons | intros b].
  destruct (b =? btnSel); [apply keeps_ret|].
  apply keeps_bind_gets. intros s0 Hs0. destruct Hs0 as (-> & _).
  change (0 <? 0) with false. cbv iota.
  apply keeps_bind_ret. cbv beta iota.
  repeat first
    [ apply keeps_ret | apply keeps_gets | apply keeps_interrupts
    | apply keeps_c_rem | apply keeps_emit; reflexivity
    | apply keeps_bind; [|intros ?]
    | match goal with |- keeps _ (if ?c then _ else _) => destruct c end ].
Qed.

Lemma keeps_turns (sch : list ticks) : forall p, keeps (video_inv total delay_ms k) (turns sch p).
Proof.
  induction sch as [|e sch IH]; intros p; cbn [turns].
  - apply keeps_ret.
  - apply keeps_bind; [apply keeps_iteration|].
    intros [p'|o]; [apply IH | apply keeps_ret].
Qed.

Lemma keeps_supervise (sch : list ticks) (p : Z) : keeps (video_inv total delay_ms k) (supervise sch p).
Proof.
  unfold supervise. apply keeps_bind; [apply keeps_turns|].
  intros [p'|o]; [apply keeps_starved | apply keeps_ret].
Qed.

Lemma keeps_MsTimer2_stop : keeps (video_inv total delay_ms k) MsTimer2_stop.
Proof.
  unfold MsTimer2_stop. apply keeps_bind; [apply keeps_emit; reflexivity|].
  intros _. apply keeps_modify. intros s Hs.
  apply (video_inv_trace s _ [] Hs); reflexivity.
Qed.
End VideoInv.

(** ** Only a poll that reads Select cancels *)

Lemma select_read_ticked (n : nat) (s : state) : select_read (ticked n s) <-> select_read s.
Proof. unfold select_read. rewrite ticked_adc_in, ticked_prevButton. reflexivity. Qed.

(** A turn left by the cancellation exit had a poll that read Select: a
    Select level gone by the second sample of the poll, or present only
    between polls, cancels nothing. *)
Lemma iteration_cancelled (e : ticks) (p : Z) (s s' : state) :
  iteration e p s = Done (Leave UserCancelled) s' -> select_read s.
Proof.
  intros H. unfold iteration in H.
  rewrite (bind_Done _ _ _ _ _ (interrupts_ticked _ _)) in H.
  unfold bind at 1 in H.
  destruct (readLcdButtons (ticked (t_poll e) s)) as [b s1| |] eqn:R; try discriminate.
  destruct (Z.eqb_spec b btnSel) as [->|Hb].
  - apply (select_read_ticked (t_poll e)). apply readLcdButtons_select.
    eexists; exact R.
  - exfalso.
    match type of H with
    | ?m s1 = _ => assert (E : ensures m (fun c _ => c <> Leave UserCancelled))
    end.
    { do 7 (apply ensures_bind; intros ?).
      intros s2 c s3 H2. rewrite !bind_gets in H2.
      destruct (currentStep s2 <? totalMotorSteps s2); injection H2 as <- <-; discriminate. }
    exact (E _ _ _ H eq_refl).
Qed.

(** ** The plan *)

Lemma plan_eq (s : state) :
  exists s0 pre,
    plan s = Done tt s0
    /\ currentStep s0 = 0
    /\ totalMotorSteps s0 = currentDistanceInt s * 5
    /\ pulseDelay s0 = pulse_delay (currentDurationInt s) (currentDistanceInt s * 5)
    /\ intervalDistance s0
       = (if 0 <? currentStepsInt s
          then Z.quot (currentDistanceInt s * 5) (currentStepsInt s)
          else intervalDistance s)
    /\ dotDistance s0 = Z.quot (currentDistanceInt s * 5) dotSteps
    /\ currentStepsInt s0 = currentStepsInt s
    /\ timer_on s0 = true
    /\ adc_in s0 = adc_in s
    /\ trace s0
       = TimerStart
         :: TimerSet (ms_of_double
                        (pulse_delay (currentDurationInt s) (currentDistanceInt s * 5)))
         :: LcdSetCursor 0 1 :: pre ++ trace s
    /\ (pre = [] \/ pre = [DigitalWrite dir LOW] \/ pre = [DigitalWrite dir HIGH]).
Proof.
  unfold plan, MsTimer2_set, MsTimer2_start, digitalWrite.
  repeat first [rewrite bind_modify | rewrite bind_gets]; fields.
  destruct (0 <? currentStepsInt s);
    repeat first [rewrite bind_modify | rewrite bind_gets | rewrite bind_ret]; fields;
    (destruct (travelDir s =? 0); [|destruct (travelDir s =? 1)]);
    repeat first [rewrite bind_modify | rewrite bind_gets | rewrite bind_ret
                 | rewrite bind_emit | rewrite bind_assoc]; fields.
  all: eexists; eexists; (split; [reflexivity|]); fields.
  all: repeat (split; [reflexivity|]).
  all: first [ split; [instantiate (1 := [DigitalWrite dir LOW]); reflexivity | auto]
             | split; [instantiate (1 := [DigitalWrite dir HIGH]); reflexivity | auto]
             | split; [instantiate (1 := []); reflexivity | auto] ].
Qed.

(** Whatever the parameters, [motionControl] arms the pulse timer and
    starts it, and writes nothing to the display before it does. *)
Lemma plan_always_arms (s : state) :
  exists s0,
    plan s = Done tt s0
    /\ timer_on s0 = true
    /\ head (trace s0) = Some TimerStart
    /\ prints s0 = prints s.
Proof.
  destruct (plan_eq s) as (s0 & pre & Hp & _ & _ & _ & _ & _ & _ & Hon & _ & Htr & Hpre).
  exists s0. split; [exact Hp|]. split; [exact Hon|].
  unfold prints. rewrite Htr. split; [reflexivity|].
  rewrite !count_events_cons, count_events_app. cbn [is_print].
  destruct Hpre as [-> | [-> | ->]]; reflexivity.
Qed.

(** ** Video mode *)

(** C5.  With distance 100, duration 10 and steps 0 the plan has
    [totalMotorSteps = 500] and [pulseDelay = 20] and the timer is armed with
    20 ms.  Whatever the keypad and the timer do, the run gives no shutter
    pulse, and it is not left by the loop condition before the counter has
    reached 500.  With the keypad left alone and at most one timer firing in
    each turn of the loop, the run is left by the loop condition in the turn
    in which the counter is 500, after 500 motor pulses, and the timer is
    stopped. *)
Theorem video_mode_run (sch : list ticks) (s : state) :
  currentDistanceInt s = 100 ->
  currentDurationInt s = 10 ->
  currentStepsInt s = 0 ->
  (totalMotorSteps (final (motionControl sch s)) = 500
   /\ pulseDelay (final (motionControl sch s)) = Some 20%Q
   /\ In (TimerSet (Some 20)) (trace (final (motionControl sch s)))
   /\ shutter_pulses (final (motionControl sch s)) = shutter_pulses s)
  /\ (forall s', motionControl sch s = Done Completed s' -> 500 <= currentStep s')
  /\ (calm (adc_in s) = true ->
      (2 * length sch <= length (adc_in s))%nat ->
      single_tick sch = true ->
      (500 <= ticks_total sch)%nat ->
      exists s',
        motionControl sch s = Done Completed s'
        /\ currentStep s' = 500
        /\ motor_pulses s' = (motor_pulses s + 500)%nat
        /\ timer_on s' = false).
Proof.
  intros Hdist Hdur Hsteps.
  destruct (plan_eq s)
    as (s0 & pre & Hp & Hcs & Htot & Hpd & _ & Hdd & Hst & Hon & Hadc & Htr & Hpre).
  rewrite Hdist in Htot, Hpd, Hdd, Htr. rewrite Hdur in Hpd, Htr.
  change (pulse_delay 10 (100 * 5)) with (Some 20%Q) in Hpd, Htr.
  change (ms_of_double (Some 20%Q)) with (Some 20) in Htr.
  change (100 * 5) with 500 in Htot, Hdd.
  change (Z.quot 500 dotSteps) with 31 in Hdd.
  assert (Hinv : video_inv 500 20 (shutter_pulses s) s0).
  { unfold video_inv, shutter_pulses. rewrite Htr, Hst, Hsteps.
    repeat split; try assumption.
    - rewrite !count_events_cons, count_events_app. cbn [is_shutter].
      destruct Hpre as [-> | [-> | ->]]; reflexivity.
    - right. left. reflexivity. }
  assert (Hrest : keeps (video_inv 500 20 (shutter_pulses s))
                    (bind (supervise sch 0) (fun o => bind MsTimer2_stop (fun _ => ret o)))).
  { apply keeps_bind; [apply keeps_supervise | intros o].
    apply keeps_bind; [apply keeps_MsTimer2_stop | intros _]. apply keeps_ret. }
  unfold motionControl. rewrite (bind_Done _ _ _ _ _ Hp).
  split; [|split].
  - destruct (Hrest s0 Hinv) as (_ & H2 & H3 & H4 & H5). auto.
  - intros s' H. unfold supervise in H. rewrite bind_assoc in H. unfold bind at 1 in H.
    destruct (turns sch 0 s0) as [[p'|o] s1| |] eqn:Hturns; try discriminate.
    assert (Htot1 : totalMotorSteps s1 = 500).
    { pose proof (keeps_turns 500 20 (shutter_pulses s) sch 0 s0 Hinv) as K.
      rewrite Hturns in K. destruct K as (_ & K & _). exact K. }
    pose proof (turns_exit_rule sch 0 s0 _ _ Hturns) as Hexit.
    cbv beta iota in H. rewrite bind_ret in H. unfold MsTimer2_stop in H.
    rewrite bind_assoc, bind_emit, bind_modify in H. unfold ret in H.
    injection H as -> <-. fields. specialize (Hexit eq_refl). lia.
  - intros Hcalm Hlen Hone Hticks.
    destruct (turns_video sch 0 s0) as (s1 & Hrun & Hfin & Hplan & Hsh & Hmp);
      try congruence; try (rewrite ?Hcs, ?Htot; unfold INT_MAX; lia).
    exists (set_timer_on false (set_trace (TimerStop :: trace s1) s1)).
    split.
    + unfold supervise. rewrite bind_assoc, (bind_Done _ _ _ _ _ Hrun). reflexivity.
    + fields. split; [congruence|]. split; [|reflexivity].
      unfold motor_pulses in *. fields. rewrite count_events_cons. cbn [is_step].
      rewrite Htr in Hmp. rewrite !count_events_cons, count_events_app in Hmp.
      cbn [is_step] in Hmp. rewrite Hcs, Htot in Hmp.
      destruct Hpre as [-> | [-> | ->]]; cbn in Hmp; lia.
Qed.

(** 500 turns with one firing each, nobody at the keypad. *)
Lemma video_mode_run_witness :
  exists s',
    motionControl (repeat tick_in_poll 500) (video_start (idle_pad 1000)) = Done Completed s'
    /\ currentStep s' = 500
    /\ motor_pulses s' = (motor_pulses (video_start (idle_pad 1000)) + 500)%nat
    /\ timer_on s' = false.
Proof.
  apply (video_mode_run (repeat tick_in_poll 500) (video_start (idle_pad 1000)));
    first [ vm_compute; reflexivity | apply Nat.leb_le; vm_compute; reflexivity ].
Defined.

(** Closed statements about concrete runs are settled by running the model. *)
Ltac evaluate :=
  repeat match goal with |- _ /\ _ => split end; vm_compute; reflexivity.

(** ** Time lapse *)

(** C1 (evaluation of the code).  With distance 100, duration 60 and steps 5
    the plan has [intervalDistance = 100] and a timer period of 120 ms.  The
    first turn of the loop runs before the timer has fired: the counter is 0,
    which is a multiple of 100, and the shutter sequence (timer stopped,
    trigger pulsed, timer started) is run at step 0.  A second turn at the
    same count runs it again.  When the timer fires once a turn, after the
    body of the loop, the whole run gives five shutter pulses, at the counts
    0, 100, 200, 300 and 400, and none at 500. *)
Theorem timelapse_fires_at_step_zero :
  intervalDistance (final (plan (timelapse_start []))) = 100
  /\ rev (trace (final (motionControl [no_tick] (timelapse_start (idle_pad 1)))))
     = [ DigitalWrite dir LOW; LcdSetCursor 0 1; TimerSet (Some 120); TimerStart;
         TimerStop; Delay 20; DigitalWrite trig HIGH; Delay 80;
         DigitalWrite trig LOW; Delay 1920; TimerStart ]
  /\ shutter_positions (final (motionControl [no_tick] (timelapse_start (idle_pad 1)))) = [0]
  /\ shutter_positions
       (final (motionControl [no_tick; no_tick] (timelapse_start (idle_pad 2)))) = [0; 0]
  /\ motionControl (repeat tick_at_end 500) (timelapse_start (idle_pad 500))
     = Done Completed
         (final (motionControl (repeat tick_at_end 500) (timelapse_start (idle_pad 500))))
  /\ shutter_positions
       (final (motionControl (repeat tick_at_end 500) (timelapse_start (idle_pad 500))))
     = [0; 100; 200; 300; 400].
Proof. evaluate. Qed.

(** When every firing falls inside the button poll, the same parameters give
    the five pulses at 100, 200, 300, 400 and 500: where the camera fires
    depends on when the interrupt falls within the turn. *)
Lemma timelapse_when_ticks_fall_in_poll :
  shutter_positions
    (final (motionControl (repeat tick_in_poll 500) (timelapse_start (idle_pad 500))))
  = [100; 200; 300; 400; 500].
Proof. vm_compute. reflexivity. Qed.

(** As long as the timer has not fired, every turn of the loop fires the
    camera again: 50 turns, 50 shutter pulses, the motor not moved. *)
Lemma timelapse_idle_turns_all_fire :
  shutter_pulses (final (motionControl (repeat no_tick 50) (timelapse_start (idle_pad 50))))
  = 50%nat
  /\ motor_pulses (final (motionControl (repeat no_tick 50) (timelapse_start (idle_pad 50))))
     = 0%nat.
Proof. evaluate. Qed.

(** ** Degenerate plans *)

(** C3 (evaluation of the code).  With duration 0 and steps 0 the plan has
    [pulseDelay = 0]; [motionControl] writes the direction line, arms the
    timer with a period of 0 ms and starts it, and prints nothing; the run
    then goes on to give all 500 motor pulses.  With distance 0 as well,
    [totalMotorSteps] is 0, [pulseDelay] is not a number, and the timer is
    armed and started all the same. *)
Theorem degenerate_plan_is_run :
  pulseDelay (final (plan (degenerate_start []))) = Some 0%Q
  /\ rev (trace (final (plan (degenerate_start []))))
     = [DigitalWrite dir LOW; LcdSetCursor 0 1; TimerSet (Some 0); TimerStart]
  /\ timer_on (final (plan (degenerate_start []))) = true
  /\ prints (final (plan (degenerate_start []))) = 0%nat
  /\ motionControl (repeat tick_in_poll 500) (degenerate_start (idle_pad 500))
     = Done Completed
         (final (motionControl (repeat tick_in_poll 500) (degenerate_start (idle_pad 500))))
  /\ motor_pulses
       (final (motionControl (repeat tick_in_poll 500) (degenerate_start (idle_pad 500))))
     = 500%nat
  /\ totalMotorSteps (final (plan (committed 0 0 0 []))) = 0
  /\ pulseDelay (final (plan (committed 0 0 0 []))) = None
  /\ rev (trace (final (plan (committed 0 0 0 []))))
     = [DigitalWrite dir LOW; LcdSetCursor 0 1; TimerSet None; TimerStart].
Proof. evaluate. Qed.

(** As soon as there are more camera steps than motor steps the interval is
    zero. *)
Lemma plan_interval_zero (s : state) :
  0 <= currentDistanceInt s * 5 < currentStepsInt s ->
  intervalDistance (final (plan s)) = 0.
Proof.
  intros H. destruct (plan_eq s) as (s0 & pre & Hp & _ & _ & _ & Hiv & _).
  rewrite Hp. cbn [final]. rewrite Hiv.
  destruct (0 <? currentStepsInt s) eqn:E; [|apply Z.ltb_ge in E; lia].
  apply Z.quot_small. lia.
Qed.

(** C4 (evaluation of the code).  With distance 100 and steps 501 the plan
    has [intervalDistance = 500 / 501 = 0], and the first turn of the loop
    evaluates [currentStep % 0]. *)
Theorem interval_zero_divides_by_zero :
  0 < currentStepsInt (crowded_start [])
  /\ intervalDistance (final (plan (crowded_start []))) = 0
  /\ motionControl [no_tick] (crowded_start (idle_pad 1))
     = Undefined (final (motionControl [no_tick] (crowded_start (idle_pad 1)))).
Proof. evaluate. Qed.

(** ** Progress markers *)

(** C6 (evaluation of the code).  Over 7 mm the run has 35 motor steps and
    [dotDistance = 35 / 16 = 2]; a full run in which the loop sees every
    count prints a marker at each even count from 2 to 34: 17 markers, one
    more than [dotSteps].  Turns of the loop in which the timer does not fire
    change nothing to that. *)
Theorem short_run_prints_17_markers :
  dotDistance (final (plan (short_start []))) = 2
  /\ motionControl (repeat tick_in_poll 35) (short_start (idle_pad 35))
     = Done Completed
         (final (motionControl (repeat tick_in_poll 35) (short_start (idle_pad 35))))
  /\ dots (final (motionControl (repeat tick_in_poll 35) (short_start (idle_pad 35))))
     = 17%nat
  /\ motionControl (paced 35) (short_start (idle_pad 105))
     = Done Completed (final (motionControl (paced 35) (short_start (idle_pad 105))))
  /\ dots (final (motionControl (paced 35) (short_start (idle_pad 105)))) = 17%nat
  /\ (Z.of_nat 17 > dotSteps).
Proof. evaluate. Qed.

(** Over 100 mm the same kind of run prints 16. *)
Lemma video_run_prints_16_markers :
  dots (final (motionControl (repeat tick_in_poll 500) (video_start (idle_pad 500))))
  = 16%nat.
Proof. vm_compute. reflexivity. Qed.

(** * Further properties of the input layer *)

Lemma keypad_only_refl (s : state) : keypad_only s s.
Proof.
  split; [destruct s; reflexivity|]. split; [reflexivity|].
  exists []. split; reflexivity.
Qed.

Lemma keypad_only_trans (s1 s2 s3 : state) :
  keypad_only s1 s2 -> keypad_only s2 s3 -> keypad_only s1 s3.
Proof.
  intros (E1 & S1 & ds1 & T1 & D1) (E2 & S2 & ds2 & T2 & D2).
  split; [|split].
  - rewrite E2 at 1. rewrite E1 at 1. reflexivity.
  - etransitivity; eassumption.
  - exists (ds2 ++ ds1). rewrite T2, T1, app_assoc, forallb_app, D1, D2.
    split; reflexivity.
Qed.

Lemma keypad_only_delay (s : state) (ms : Z) :
  keypad_only s (set_trace (Delay ms :: trace s) s).
Proof.
  split; [destruct s; reflexivity|]. split; [reflexivity|].
  exists [Delay ms]. split; reflexivity.
Qed.

Lemma readLcdButtons_post (s s' : state) (b : Z) :
  readLcdButtons s = Done b s' ->
  prevButton s' = b /\ In b (seen s) /\ keypad_only s s'.
Proof.
  rewrite readLcdButtons_eq. unfold seen.
  destruct (adc_in s) as [|a1 rest] eqn:Hadc; [discriminate|].
  destruct (button_of_adc a1 =? prevButton s) eqn:E.
  - intros H. injection H as <- <-. apply Z.eqb_eq in E.
    split; [reflexivity|]. split; [left; exact E|].
    split; [destruct s; reflexivity|]. cbn [adc_in set_adc_in trace].
    split; [rewrite Hadc; exists [a1]; reflexivity|].
    exists []. split; reflexivity.
  - cbv zeta. destruct rest as [|a2 rest]; [discriminate|].
    intros H. injection H as <- <-.
    split; [reflexivity|]. split; [right; left; reflexivity|].
    split; [destruct s; reflexivity|].
    cbn [adc_in set_adc_in set_prevButton set_trace trace].
    split; [rewrite Hadc; exists [a1; a2]; reflexivity|].
    exists [Delay DEBOUNCE_TIME]. split; reflexivity.
Qed.

(** X1.  When [readLcdButtons] returns a button, that button is what the
    last sample it consumed decodes to, and [prevButton] holds it
    afterwards.  It consumes one sample when that sample decodes to
    [prevButton], and two - with the debounce delay between them - when the
    first decodes to something else.  Nothing but the keypad state has
    changed. *)
Theorem readLcdButtons_latches_button (s s' : state) (b : Z) :
  readLcdButtons s = Done b s' ->
  prevButton s' = b
  /\ keypad_only s s'
  /\ exists used a,
       adc_in s = used ++ a :: adc_in s'
       /\ b = button_of_adc a
       /\ ((used = [] /\ b = prevButton s /\ trace s' = trace s)
           \/ (exists a1, used = [a1] /\ button_of_adc a1 <> prevButton s
                          /\ trace s' = Delay DEBOUNCE_TIME :: trace s)).
Proof.
  intros H. destruct (readLcdButtons_post _ _ _ H) as (Hp & _ & Hk).
  split; [exact Hp|]. split; [exact Hk|].
  rewrite readLcdButtons_eq in H.
  destruct (adc_in s) as [|a1 rest] eqn:Hadc; [discriminate|].
  destruct (Z.eqb_spec (button_of_adc a1) (prevButton s)) as [E|E].
  - injection H as <- <-. exists [], a1. cbn [adc_in set_adc_in trace app].
    split; [reflexivity|]. split; [symmetry; exact E|]. left. auto.
  - cbv zeta in H. destruct rest as [|a2 rest]; [discriminate|].
    injection H as <- <-. exists [a1], a2.
    cbn [adc_in set_adc_in set_prevButton set_trace trace app].
    split; [reflexivity|]. split; [reflexivity|]. right. exists a1. auto.
Qed.

Lemma readLcdButtons_latches_button_witness :
  prevButton (final (readLcdButtons (initial_state [adc_select; adc_select]))) = btnSel
  /\ keypad_only (initial_state [adc_select; adc_select])
       (final (readLcdButtons (initial_state [adc_select; adc_select])))
  /\ exists used a,
       adc_in (initial_state [adc_select; adc_select])
       = used ++ a :: adc_in (final (readLcdButtons (initial_state [adc_select; adc_select])))
       /\ btnSel = button_of_adc a
       /\ ((used = [] /\ btnSel = prevButton (initial_state [adc_select; adc_select])
            /\ trace (final (readLcdButtons (initial_state [adc_select; adc_select])))
               = trace (initial_state [adc_select; adc_select]))
           \/ (exists a1, used = [a1]
                 /\ button_of_adc a1 <> prevButton (initial_state [adc_select; adc_select])
                 /\ trace (final (readLcdButtons (initial_state [adc_select; adc_select])))
                    = Delay DEBOUNCE_TIME :: trace (initial_state [adc_select; adc_select]))).
Proof.
  apply (readLcdButtons_latches_button (initial_state [adc_select; adc_select])
           (final (readLcdButtons (initial_state [adc_select; adc_select]))) btnSel).
  vm_compute. reflexivity.
Defined.

Lemma seen_suffix (s s' : state) (b : Z) :
  adc_in s' `suffix_of` adc_in s -> In b (seen s') -> In b (seen s).
Proof.
  intros [k Hk] H. unfold seen in *. rewrite Hk, map_app.
  apply in_or_app. right. exact H.
Qed.

(** The key-click machine: what holds of any return. *)
Lemma getKeyClick_loop_post (fuel : nat) :
  forall (q : fsm_state) (btnVal : Z) (s s' : state) (b : Z),
    getKeyClick_loop fuel q btnVal s = Done b s' ->
    prevButton s' = btnNone
    /\ keypad_only s s'
    /\ In btnNone (seen s)
    /\ (In b (seen s) \/ (q <> up_state /\ b = btnVal)).
Proof.
  induction fuel as [|fuel IH]; intros q btnVal s s' b H; [discriminate|].
  destruct q; cbn [getKeyClick_loop] in H; unfold bind at 1 in H;
    destruct (readLcdButtons s) as [v s1| |] eqn:R; try discriminate;
    destruct (readLcdButtons_post _ _ _ R) as (Hp & Hin & Hk);
    pose proof Hk as (_ & Hsuf & _).
  - destruct (negb (v =? btnNone)).
    + unfold delay in H. rewrite bind_emit in H.
      destruct (IH _ _ _ _ _ H) as (P1 & P2 & P3 & P4).
      split; [exact P1|].
      split; [eapply keypad_only_trans; [exact Hk|];
              eapply keypad_only_trans; [apply keypad_only_delay | exact P2]|].
      split; [eapply seen_suffix; [exact Hsuf | exact P3]|].
      left. destruct P4 as [P4 | [_ ->]]; [|exact Hin].
      eapply seen_suffix; [exact Hsuf | exact P4].
    + destruct (IH _ _ _ _ _ H) as (P1 & P2 & P3 & P4).
      split; [exact P1|]. split; [eapply keypad_only_trans; eassumption|].
      split; [eapply seen_suffix; eassumption|].
      left. destruct P4 as [P4 | [C _]]; [|contradiction].
      eapply seen_suffix; eassumption.
  - assert (Hgo : forall q', getKeyClick_loop fuel q' btnVal s1 = Done b s' ->
              prevButton s' = btnNone /\ keypad_only s s' /\ In btnNone (seen s)
              /\ (In b (seen s) \/ (timer_done_state <> up_state /\ b = btnVal))).
    { intros q' H'. destruct (IH _ _ _ _ _ H') as (P1 & P2 & P3 & P4).
      split; [exact P1|]. split; [eapply keypad_only_trans; eassumption|].
      split; [eapply seen_suffix; eassumption|].
      destruct P4 as [P4 | [_ ->]];
        [left; eapply seen_suffix; eassumption | right; split; [discriminate | reflexivity]]. }
    destruct (v =? btnVal); eapply Hgo; exact H.
  - destruct (v =? btnNone) eqn:E.
    + injection H as <- <-. apply Z.eqb_eq in E. subst v.
      split; [exact Hp|]. split; [exact Hk|]. split; [exact Hin|].
      right. split; [discriminate | reflexivity].
    + assert (Hgo : forall q', getKeyClick_loop fuel q' btnVal s1 = Done b s' ->
              prevButton s' = btnNone /\ keypad_only s s' /\ In btnNone (seen s)
              /\ (In b (seen s) \/ (wait_for_up_state <> up_state /\ b = btnVal))).
      { intros q' H'. destruct (IH _ _ _ _ _ H') as (P1 & P2 & P3 & P4).
        split; [exact P1|]. split; [eapply keypad_only_trans; eassumption|].
        split; [eapply seen_suffix; eassumption|].
        destruct P4 as [P4 | [_ ->]];
          [left; eapply seen_suffix; eassumption | right; split; [discriminate | reflexivity]]. }
      destruct (negb (v =? btnVal)); eapply Hgo; exact H.
Qed.

(** X2.  [getKeyClick] returns only once the keypad has been read released:
    [prevButton] is [btnNone] afterwards.  It touches nothing but the keypad
    state, and the only events it leaves are delays. *)
Theorem getKeyClick_returns_on_release (s s' : state) (b : Z) :
  getKeyClick s = Done b s' -> prevButton s' = btnNone /\ keypad_only s s'.
Proof.
  intros H. destruct (getKeyClick_loop_post _ _ _ _ _ _ H) as (P1 & P2 & _).
  split; assumption.
Qed.

Lemma getKeyClick_returns_on_release_witness :
  prevButton (final (getKeyClick (initial_state (click adc_up)))) = btnNone
  /\ keypad_only (initial_state (click adc_up))
       (final (getKeyClick (initial_state (click adc_up)))).
Proof.
  apply (getKeyClick_returns_on_release (initial_state (click adc_up))
           (final (getKeyClick (initial_state (click adc_up)))) btnUp).
  vm_compute. reflexivity.
Defined.



Lemma getKeyClick_click (level : Z) (rest : list Z) (s : state) :
  button_of_adc level <> btnNone ->
  adc_in s = click level ++ rest ->
  exists s',
    getKeyClick s = Done (button_of_adc level) s'
    /\ adc_in s' = rest
    /\ prevButton s' = btnNone.
Proof.
  intros HB Hadc. unfold getKeyClick. rewrite Hadc. cbn [click app length].
  assert (E1 : (button_of_adc level =? btnNone) = false) by (apply Z.eqb_neq, HB).
  assert (E2 : (btnNone =? button_of_adc level) = false) by (apply Z.eqb_neq; congruence).
  change (button_of_adc 1023) with btnNone in *.
  cbn [getKeyClick_loop]. unfold bind at 1. rewrite readLcdButtons_eq, Hadc.
  cbn [click app].
  destruct (button_of_adc level =? prevButton s) eqn:E.
  - apply Z.eqb_eq in E. rewrite <- E, E1. cbn [negb]. unfold delay. rewrite bind_emit.
    cbn [getKeyClick_loop]. unfold bind at 1. rewrite readLcdButtons_eq. fields.
    rewrite <- E, Z.eqb_refl, Z.eqb_refl.
    cbn [getKeyClick_loop]. unfold bind at 1. rewrite readLcdButtons_eq. fields.
    rewrite <- E, Z.eqb_refl, E1, Z.eqb_refl. cbn [negb].
    cbn [getKeyClick_loop]. unfold bind at 1. rewrite readLcdButtons_eq. fields.
    change (button_of_adc 1023) with btnNone. rewrite <- E, E2. cbv zeta.
    rewrite Z.eqb_refl.
    eexists. split; [reflexivity|]. split; reflexivity.
  - cbv zeta. rewrite E1. cbn [negb]. unfold delay. rewrite bind_emit.
    cbn [getKeyClick_loop]. unfold bind at 1. rewrite readLcdButtons_eq. fields.
    rewrite !Z.eqb_refl.
    cbn [getKeyClick_loop]. unfold bind at 1. rewrite readLcdButtons_eq. fields.
    change (button_of_adc 1023) with btnNone. rewrite E2. cbv zeta.
    rewrite Z.eqb_refl.
    eexists. split; [reflexivity|]. split; reflexivity.
Qed.

(** X4.  A clean click - the button held over three samples, then released
    over two - is reported as that button whatever the keypad state before:
    exactly its five samples are consumed. *)
Theorem clean_click_is_reported (level : Z) (rest : list Z) (s : state) :
  button_of_adc level <> btnNone ->
  adc_in s = click level ++ rest ->
  exists s',
    getKeyClick s = Done (button_of_adc level) s'
    /\ adc_in s' = rest
    /\ prevButton s' = btnNone.
Proof. apply getKeyClick_click. Qed.

Lemma clean_click_is_reported_witness :
  exists s',
    getKeyClick (initial_state (click adc_left ++ [7; 8])) = Done (button_of_adc adc_left) s'
    /\ adc_in s' = [7; 8]
    /\ prevButton s' = btnNone.
Proof.
  apply (clean_click_is_reported adc_left [7; 8] (initial_state (click adc_left ++ [7; 8]))).
  - vm_compute. intros H. discriminate H.
  - reflexivity.
Defined.

(** * Further properties of parameter entry *)

Lemma wrap16_unique (z r : Z) :
  in_int r -> (exists k, r = z + 65536 * k) -> r = wrap16 z.
Proof.
  intros Hr [k Hk]. pose proof (wrap16_range z) as Hw.
  destruct (wrap16_lift z) as [k' Hk'].
  unfold in_int, INT_MIN, INT_MAX in *. lia.
Qed.

Lemma getIntFromDigits_is_wrapped_decimal_aux (digits : list Z) :
  getIntFromDigits digits (Z.of_nat (length digits)) = wrap16 (decimal digits).
Proof.
  apply wrap16_unique.
  - unfold getIntFromDigits. apply getIntFromDigits_loop_range.
    unfold in_int, INT_MIN, INT_MAX. lia.
  - unfold getIntFromDigits. rewrite Nat2Z.id.
    destruct (getIntFromDigits_loop_congr digits (length digits) 0 1 0 1)
      as [k Hk]; [lia | exists 0; lia | exists 0; lia |].
    rewrite firstn_all in Hk. exists k. rewrite Hk. ring.
Qed.

(** X5.  [getIntFromDigits] returns the number the digits denote, reduced to
    a 16-bit two's-complement [int]: exact up to 32767, wrapped above. *)
Theorem getIntFromDigits_is_wrapped_decimal (digits : list Z) :
  getIntFromDigits digits (Z.of_nat (length digits)) = wrap16 (decimal digits).
Proof. apply getIntFromDigits_is_wrapped_decimal_aux. Qed.

(** X6.  For a four-digit field (distance, steps) decoding and re-encoding
    gives the digits back. *)
Theorem four_digit_round_trip (digits : list Z) :
  Forall is_digit digits ->
  length digits = 4%nat ->
  encode_digits 4 (getIntFromDigits digits NUM_DISTANCE_DIGITS) = digits.
Proof. apply getIntFromDigits_roundtrip_4. Qed.

Lemma four_digit_round_trip_witness :
  encode_digits 4 (getIntFromDigits [1; 3; 0; 0] NUM_DISTANCE_DIGITS) = [1; 3; 0; 0].
Proof.
  apply (four_digit_round_trip [1; 3; 0; 0]).
  - unfold is_digit. repeat constructor; lia.
  - reflexivity.
Defined.

(** X7.  For a field of any width the round trip holds as long as the digits
    denote at most [INT_MAX] = 32767. *)
Theorem round_trip_up_to_int_max (digits : list Z) :
  Forall is_digit digits ->
  decimal digits <= INT_MAX ->
  encode_digits (length digits) (getIntFromDigits digits (Z.of_nat (length digits)))
  = digits.
Proof. apply getIntFromDigits_roundtrip_int. Qed.

Lemma round_trip_up_to_int_max_witness :
  encode_digits (length [0; 3; 2; 7; 6; 7])
    (getIntFromDigits [0; 3; 2; 7; 6; 7] (Z.of_nat (length [0; 3; 2; 7; 6; 7])))
  = [0; 3; 2; 7; 6; 7].
Proof.
  apply (round_trip_up_to_int_max [0; 3; 2; 7; 6; 7]).
  - unfold is_digit. repeat constructor; lia.
  - vm_compute. intros H. discriminate H.
Defined.

(** X8.  [adjustDigit] keeps a digit a digit: Up adds one but stops at 9,
    Down takes one off but stops at 0, any other direction leaves it; the
    digit is printed at the cursor and left in [currentChar]. *)
Theorem adjustDigit_clamps (x d : Z) (s : state) :
  is_digit x ->
  exists x',
    adjustDigit x d s
      = Done x' (set_currentChar x'
                   (set_trace (LcdPrintInt x' :: LcdSetCursor (currentCursorPos s) 1 :: trace s) s))
    /\ is_digit x'
    /\ (d = 1 -> x' = Z.min (x + 1) 9)
    /\ (d = 0 -> x' = Z.max (x - 1) 0)
    /\ (d <> 0 -> d <> 1 -> x' = x).
Proof.
  unfold is_digit. intros Hx. unfold adjustDigit.
  destruct (Z.eqb_spec d 0) as [D0|D0]; destruct (Z.eqb_spec d 1) as [D1|D1];
    try lia; cbn [andb].
  - destruct (0 <? x) eqn:P; [apply Z.ltb_lt in P | apply Z.ltb_ge in P];
      (eexists; split; [reflexivity|]); repeat split; lia.
  - destruct (x <? 9) eqn:P; [apply Z.ltb_lt in P | apply Z.ltb_ge in P];
      (eexists; split; [reflexivity|]); repeat split; lia.
  - eexists; split; [reflexivity|]. repeat split; lia.
Qed.

Lemma adjustDigit_clamps_witness :
  exists x',
    adjustDigit 9 1 (initial_state [])
      = Done x' (set_currentChar x'
                   (set_trace (LcdPrintInt x'
                               :: LcdSetCursor (currentCursorPos (initial_state [])) 1
                               :: trace (initial_state [])) (initial_state [])))
    /\ is_digit x'
    /\ (1 = 1 -> x' = Z.min (9 + 1) 9)
    /\ (1 = 0 -> x' = Z.max (9 - 1) 0)
    /\ (1 <> 0 -> 1 <> 1 -> x' = 9).
Proof.
  apply (adjustDigit_clamps 9 1 (initial_state [])). unfold is_digit. lia.
Defined.

(** ** The digit buffer of line 2 *)

Lemma copy_digits_length (k : nat) :
  forall (i : Z) (from to : list Z), length (copy_digits k i from to) = length to.
Proof.
  induction k as [|k IH]; intros i from to; cbn [copy_digits]; [reflexivity|].
  rewrite IH. unfold array_set. apply length_insert.
Qed.

Lemma copy_digits_lookup (k : nat) :
  forall (i : nat) (from to : list Z) (j : nat),
    (i + k <= length from)%nat ->
    (i + k <= length to)%nat ->
    copy_digits k (Z.of_nat i) from to !! j
    = if decide (i <= j < i + k)%nat then from !! j else to !! j.
Proof.
  induction k as [|k IH]; intros i from to j Hf Ht; cbn [copy_digits].
  - destruct (decide _); [lia | reflexivity].
  - replace (Z.of_nat i + 1) with (Z.of_nat (S i)) by lia.
    rewrite IH; [| lia | unfold array_set; rewrite length_insert; lia].
    unfold array_set, array_get. rewrite Nat2Z.id.
    destruct (lookup_lt_is_Some_2 from i) as [x Hx]; [lia|]. rewrite Hx. cbn [default].
    destruct (decide (S i <= j < S i + k)%nat), (decide (i <= j < i + S k)%nat);
      try lia; try reflexivity.
    + assert (j = i) as -> by lia. rewrite list_lookup_insert_eq by lia. auto.
    + apply list_lookup_insert_ne. lia.
Qed.

(** Copying [n] digits into an array of [n] gives the first [n] digits of
    the source. *)
Lemma copy_digits_take (n : nat) (from to : list Z) :
  length to = n -> (n <= length from)%nat -> copy_digits n 0 from to = take n from.
Proof.
  intros Hto Hfrom. apply list_eq. intros j.
  change 0 with (Z.of_nat 0). rewrite copy_digits_lookup by lia.
  destruct (decide (0 <= j < 0 + n)%nat).
  - rewrite lookup_take_lt by lia. reflexivity.
  - rewrite lookup_take_ge by lia. apply lookup_ge_None_2. lia.
Qed.

(** Copying [n] digits into a longer array replaces its first [n]. *)
Lemma copy_digits_prefix (n : nat) (from to : list Z) :
  (n <= length from)%nat -> (n <= length to)%nat ->
  take n (copy_digits n 0 from to) = take n from.
Proof.
  intros Hfrom Hto. apply list_eq. intros j.
  destruct (decide (j < n)%nat).
  - rewrite !lookup_take_lt by lia.
    change 0 with (Z.of_nat 0). rewrite copy_digits_lookup by lia.
    destruct (decide _); [reflexivity | lia].
  - rewrite !lookup_take_ge by lia. reflexivity.
Qed.

(** X9.  What [writeToLCDLine2] puts on line 2, [readFromLCDLine2] reads
    back: a field's digits written to the buffer and read into an array of
    the field's width are the digits written. *)
Theorem line2_write_read (digits to : list Z) (n : nat) (s : state) :
  length digits = n ->
  length to = n ->
  (n <= length (LCDLine2Value s))%nat ->
  exists s1 s2,
    writeToLCDLine2 digits (Z.of_nat n) s = Done tt s1
    /\ readFromLCDLine2 to (Z.of_nat n) s1 = Done digits s2
    /\ length (LCDLine2Value s1) = length (LCDLine2Value s).
Proof.
  intros Hd Hto Hline.
  unfold writeToLCDLine2, readFromLCDLine2, modify.
  eexists; eexists. split; [reflexivity|].
  rewrite bind_gets. cbn [LCDLine2Value set_LCDLine2Value]. rewrite !Nat2Z.id.
  split; [|apply copy_digits_length].
  unfold ret. f_equal.
  rewrite copy_digits_take; [| exact Hto | rewrite copy_digits_length; exact Hline].
  rewrite copy_digits_prefix by lia.
  apply take_ge. lia.
Qed.

Lemma line2_write_read_witness :
  exists s1 s2,
    writeToLCDLine2 [0; 1; 0; 0] (Z.of_nat 4) (initial_state []) = Done tt s1
    /\ readFromLCDLine2 [9; 9; 9; 9] (Z.of_nat 4) s1 = Done [0; 1; 0; 0] s2
    /\ length (LCDLine2Value s1) = length (LCDLine2Value (initial_state [])).
Proof.
  apply (line2_write_read [0; 1; 0; 0] [9; 9; 9; 9] 4 (initial_state []));
    [reflexivity | reflexivity | vm_compute; lia].
Defined.

(** ** The digit editor *)

(** Equations between states built by field updates. *)
Ltac state_eq :=
  repeat match goal with s : state |- _ => destruct s end;
  cbv [adc_in trace timer_on prevButton currentCursorPos currentChar LCDLine2Value
       currentDistance currentDuration currentSteps currentDistanceInt
       currentDurationInt currentStepsInt travelDir totalMotorSteps pulseDelay
       intervalDistance currentStep dotDistance
       set_adc_in set_trace set_timer_on set_prevButton set_currentCursorPos
       set_currentChar set_LCDLine2Value set_currentDistance set_currentDuration
       set_currentSteps set_currentDistanceInt set_currentDurationInt
       set_currentStepsInt set_travelDir set_totalMotorSteps set_pulseDelay
       set_intervalDistance set_currentStep set_dotDistance] in *;
  repeat match goal with H : @eq state _ _ |- _ => injection H; clear H; intros end;
  subst; reflexivity.

Lemma editing_only_refl (s : state) : editing_only s s.
Proof. destruct s. reflexivity. Qed.

Lemma editing_only_trans (s1 s2 s3 : state) :
  editing_only s1 s2 -> editing_only s2 s3 -> editing_only s1 s3.
Proof.
  unfold editing_only. intros E1 E2. state_eq.
Qed.

Lemma keypad_only_editing (s s' : state) : keypad_only s s' -> editing_only s s'.
Proof.
  intros (E & _). unfold editing_only. state_eq.
Qed.

Lemma editing_only_trace (s : state) (tr : list event) :
  editing_only s (set_trace tr s).
Proof. destruct s. reflexivity. Qed.

Lemma adjustDigit_eq (x d : Z) (s : state) :
  adjustDigit x d s
  = Done (adjusted x d)
      (set_currentChar (adjusted x d)
         (set_trace (LcdPrintInt (adjusted x d)
                     :: LcdSetCursor (currentCursorPos s) 1 :: trace s) s)).
Proof. reflexivity. Qed.

Lemma adjusted_digit (x d : Z) : is_digit x -> is_digit (adjusted x d).
Proof.
  unfold is_digit, adjusted. intros Hx.
  destruct (Z.eqb_spec d 0), (Z.eqb_spec d 1); cbn [andb];
    repeat match goal with |- context [?a <? ?b] => destruct (Z.ltb_spec a b) end; lia.
Qed.

Lemma array_get_digit (a : list Z) (i : Z) : Forall is_digit a -> is_digit (array_get a i).
Proof.
  intros Ha. unfold array_get. destruct (a !! Z.to_nat i) as [x|] eqn:E; cbn [default].
  - eapply Forall_lookup_1; eassumption.
  - unfold is_digit. lia.
Qed.

(** What the editor keeps: the cursor inside the field, digits on line 2. *)
Lemma getUserInputValue_switch_post (n btnVal : Z) (s : state) :
  0 <= currentCursorPos s < n ->
  Forall is_digit (LCDLine2Value s) ->
  exists leave s',
    getUserInputValue_switch n btnVal s = Done leave s'
    /\ 0 <= currentCursorPos s' < n
    /\ Forall is_digit (LCDLine2Value s')
    /\ length (LCDLine2Value s') = length (LCDLine2Value s)
    /\ editing_only s s'.
Proof.
  intros Hc Hd. unfold getUserInputValue_switch.
  assert (Hdig : forall d, is_digit (adjusted (array_get (LCDLine2Value s) (currentCursorPos s)) d))
    by (intros d; apply adjusted_digit, array_get_digit, Hd).
  destruct (btnVal =? btnUp); [|destruct (btnVal =? btnDn);
    [|destruct (btnVal =? btnL); [|destruct (btnVal =? btnR); [|destruct (btnVal =? btnSel)]]]].
  1,2: rewrite !bind_gets, bind_modify, bind_gets;
       cbn [currentChar set_currentChar];
       unfold bind at 1; rewrite adjustDigit_eq;
       rewrite bind_gets, bind_modify;
       (eexists; eexists; split; [reflexivity|]);
       cbn [currentCursorPos LCDLine2Value currentChar set_currentChar set_trace
            set_LCDLine2Value];
       (split; [exact Hc|]);
       (split; [apply Forall_insert; [exact Hd | apply Hdig]|]);
       (split; [apply length_insert|]); destruct s; reflexivity.
  - rewrite bind_gets. destruct (Z.eqb_spec (currentCursorPos s) 0).
    + rewrite !bind_ret. eexists; eexists; split; [reflexivity|].
      split; [lia|]. split; [assumption|]. split; [reflexivity|].
      apply editing_only_refl.
    + rewrite bind_modify. eexists; eexists; split; [reflexivity|].
      cbn [currentCursorPos LCDLine2Value set_currentCursorPos].
      split; [lia|]. split; [assumption|]. split; [reflexivity|].
      destruct s; reflexivity.
  - rewrite bind_gets. destruct (Z.eqb_spec (currentCursorPos s) (n - 1)).
    + rewrite !bind_ret. eexists; eexists; split; [reflexivity|].
      split; [lia|]. split; [assumption|]. split; [reflexivity|].
      apply editing_only_refl.
    + rewrite bind_modify. eexists; eexists; split; [reflexivity|].
      cbn [currentCursorPos LCDLine2Value set_currentCursorPos].
      split; [lia|]. split; [assumption|]. split; [reflexivity|].
      destruct s; reflexivity.
  - eexists; eexists; split; [reflexivity|].
    split; [lia|]. split; [assumption|]. split; [reflexivity|].
    apply editing_only_refl.
  - eexists; eexists; split; [reflexivity|].
    split; [lia|]. split; [assumption|]. split; [reflexivity|].
    apply editing_only_refl.
Qed.

Lemma getUserInputValue_loop_post (fuel : nat) :
  forall (n : Z) (s s' : state),
    getUserInputValue_loop fuel n s = Done tt s' ->
    0 <= currentCursorPos s < n ->
    Forall is_digit (LCDLine2Value s) ->
    0 <= currentCursorPos s' < n
    /\ Forall is_digit (LCDLine2Value s')
    /\ length (LCDLine2Value s') = length (LCDLine2Value s)
    /\ editing_only s s'.
Proof.
  induction fuel as [|fuel IH]; intros n s s' H Hc Hd; [discriminate|].
  cbn [getUserInputValue_loop] in H. unfold bind at 1 in H.
  destruct (getKeyClick s) as [b s1| |] eqn:K; try discriminate.
  destruct (getKeyClick_loop_post _ _ _ _ _ _ K) as (_ & Hk & _).
  pose proof (keypad_only_editing _ _ Hk) as He1.
  assert (Hc1 : currentCursorPos s1 = currentCursorPos s)
    by (destruct Hk as (E & _); rewrite E; reflexivity).
  assert (Hl1 : LCDLine2Value s1 = LCDLine2Value s)
    by (destruct Hk as (E & _); rewrite E; reflexivity).
  destruct (getUserInputValue_switch_post n b s1) as (leave & s2 & Hsw & Hc2 & Hd2 & Hlen2 & He2);
    [rewrite Hc1; exact Hc | rewrite Hl1; exact Hd |].
  rewrite (bind_Done _ _ _ _ _ Hsw) in H.
  destruct leave.
  - injection H as <-. rewrite <- Hl1.
    split; [assumption|]. split; [assumption|]. split; [assumption|].
    eapply editing_only_trans; eassumption.
  - rewrite bind_gets, bind_emit in H.
    destruct (IH n _ _ H) as (Hc3 & Hd3 & Hlen3 & He3);
      [exact Hc2 | exact Hd2 |].
    cbn [LCDLine2Value set_trace] in Hlen3.
    rewrite <- Hl1, <- Hlen2, <- Hlen3.
    split; [assumption|]. split; [assumption|]. split; [reflexivity|].
    eapply editing_only_trans; [exact He1|].
    eapply editing_only_trans; [exact He2|].
    eapply editing_only_trans; [apply editing_only_trace | exact He3].
Qed.

Lemma getUserInputValue_post (n : Z) (s s' : state) :
  getUserInputValue n s = Done tt s' ->
  0 <= currentCursorPos s < n ->
  Forall is_digit (LCDLine2Value s) ->
  0 <= currentCursorPos s' < n
  /\ Forall is_digit (LCDLine2Value s')
  /\ length (LCDLine2Value s') = length (LCDLine2Value s)
  /\ editing_only s s'.
Proof.
  intros H Hc Hd. unfold getUserInputValue in H. rewrite bind_gets, bind_emit in H.
  destruct (getUserInputValue_loop_post _ _ _ _ H) as (Hc3 & Hd3 & Hlen3 & He3);
    [exact Hc | exact Hd |].
  split; [assumption|]. split; [assumption|]. split; [assumption|].
  eapply editing_only_trans; [apply editing_only_trace | exact He3].
Qed.

(** X10.  The digit editor keeps its cursor inside the field and every entry
    of line 2 a decimal digit, whatever is clicked; it changes neither the
    length of line 2 nor anything outside the keypad state, the cursor,
    [currentChar] and line 2 - the committed parameters in particular. *)
Theorem digit_editor_keeps_digits (n : Z) (s s' : state) :
  getUserInputValue n s = Done tt s' ->
  0 <= currentCursorPos s < n ->
  Forall is_digit (LCDLine2Value s) ->
  0 <= currentCursorPos s' < n
  /\ Forall is_digit (LCDLine2Value s')
  /\ length (LCDLine2Value s') = length (LCDLine2Value s)
  /\ editing_only s s'.
Proof. apply getUserInputValue_post. Qed.

Lemma digit_editor_keeps_digits_witness :
  0 <= currentCursorPos (final (getUserInputValue 4 typed_2000)) < 4
  /\ Forall is_digit (LCDLine2Value (final (getUserInputValue 4 typed_2000)))
  /\ length (LCDLine2Value (final (getUserInputValue 4 typed_2000)))
     = length (LCDLine2Value typed_2000)
  /\ editing_only typed_2000 (final (getUserInputValue 4 typed_2000)).
Proof.
  apply (digit_editor_keeps_digits 4 typed_2000 (final (getUserInputValue 4 typed_2000))).
  - vm_compute. reflexivity.
  - unfold typed_2000, initial_state. cbn [currentCursorPos]. lia.
  - unfold typed_2000, initial_state, is_digit. cbn [LCDLine2Value].
    repeat constructor; lia.
Defined.

(** ** Commits *)

(** The editor followed by the copy out of line 2: the field's array gets
    the first [n] digits of the line, and they are digits. *)
Lemma entry_then_read (n : nat) (field : state -> list Z) (s s1 : state) :
  getUserInputValue (Z.of_nat n) s = Done tt s1 ->
  0 <= currentCursorPos s < Z.of_nat n ->
  Forall is_digit (LCDLine2Value s) ->
  (n <= length (LCDLine2Value s))%nat ->
  length (field s1) = n ->
  copy_digits n 0 (LCDLine2Value s1) (field s1) = take n (LCDLine2Value s1)
  /\ Forall is_digit (take n (LCDLine2Value s1))
  /\ length (take n (LCDLine2Value s1)) = n.
Proof.
  intros H Hc Hd Hlen Hf.
  destruct (getUserInputValue_post _ _ _ H Hc Hd) as (_ & Hd1 & Hl1 & _).
  split; [apply copy_digits_take; [exact Hf | lia]|].
  split; [apply Forall_take, Hd1 | apply length_take_le; lia].
Qed.

Lemma decimal_4 (digits : list Z) :
  Forall is_digit digits -> length digits = 4%nat ->
  getIntFromDigits digits 4 = decimal digits /\ 0 <= decimal digits <= 9999.
Proof.
  intros Hd Hl. pose proof (decimal_bound digits Hd) as Hb. rewrite Hl in Hb.
  change (10 ^ Z.of_nat 4) with 10000 in Hb.
  split; [|lia].
  pose proof (getIntFromDigits_exact digits) as E. rewrite Hl in E.
  apply E. unfold INT_MAX. lia.
Qed.

(** X11.  A steps commit stores the number that the first four digits of
    line 2 denote, a value from 0 to 9999, and copies those digits into
    [currentSteps]. *)
Theorem getSteps_commits (s s' : state) :
  getSteps s = Done tt s' ->
  0 <= currentCursorPos s < NUM_STEPS_DIGITS ->
  Forall is_digit (LCDLine2Value s) ->
  (4 <= length (LCDLine2Value s))%nat ->
  length (currentSteps s) = 4%nat ->
  currentSteps s' = take 4 (LCDLine2Value s')
  /\ currentStepsInt s' = decimal (currentSteps s')
  /\ 0 <= currentStepsInt s' <= 9999.
Proof.
  intros H Hc Hd Hlen Hf. unfold getSteps in H. unfold bind at 1 in H.
  destruct (getUserInputValue NUM_STEPS_DIGITS s) as [[] s1| |] eqn:G; try discriminate.
  pose proof (getUserInputValue_post _ _ _ G Hc Hd) as (_ & _ & _ & He).
  assert (Hf1 : length (currentSteps s1) = 4%nat) by (rewrite He; exact Hf).
  destruct (entry_then_read 4 currentSteps s s1 G Hc Hd Hlen Hf1) as (Hcopy & Hdig & Hl4).
  unfold readFromLCDLine2 in H.
  repeat first [rewrite bind_gets in H | rewrite bind_assoc in H | rewrite bind_ret in H
               | rewrite bind_modify in H]. unfold modify in H.
  change (Z.to_nat NUM_STEPS_DIGITS) with 4%nat in H. rewrite Hcopy in H.
  change NUM_STEPS_DIGITS with 4 in H.
  destruct (decimal_4 _ Hdig Hl4) as (E & Hb). rewrite E in H.
  injection H as <-.
  cbn [currentSteps currentStepsInt LCDLine2Value set_currentSteps set_currentStepsInt].
  split; [reflexivity|]. split; [reflexivity | exact Hb].
Qed.

Lemma getSteps_commits_witness :
  currentSteps (final (getSteps (initial_state (typing [0; 0; 2; 5]%nat))))
  = take 4 (LCDLine2Value (final (getSteps (initial_state (typing [0; 0; 2; 5]%nat)))))
  /\ currentStepsInt (final (getSteps (initial_state (typing [0; 0; 2; 5]%nat))))
     = decimal (currentSteps (final (getSteps (initial_state (typing [0; 0; 2; 5]%nat)))))
  /\ 0 <= currentStepsInt (final (getSteps (initial_state (typing [0; 0; 2; 5]%nat))))
     <= 9999.
Proof.
  apply (getSteps_commits (initial_state (typing [0; 0; 2; 5]%nat))
           (final (getSteps (initial_state (typing [0; 0; 2; 5]%nat))))).
  - vm_compute. reflexivity.
  - unfold initial_state, NUM_STEPS_DIGITS. cbn [currentCursorPos]. lia.
  - unfold initial_state, is_digit. cbn [LCDLine2Value]. repeat constructor; lia.
  - unfold initial_state. cbn [LCDLine2Value length]. lia.
  - reflexivity.
Defined.

(** A distance commit, step by step: the editor leaves [s1], and the commit
    writes the digits and the number into it. *)
Lemma getDistance_commit_post (s s' : state) :
  getDistance s = Done tt s' ->
  0 <= currentCursorPos s < NUM_DISTANCE_DIGITS ->
  Forall is_digit (LCDLine2Value s) ->
  (4 <= length (LCDLine2Value s))%nat ->
  length (currentDistance s) = 4%nat ->
  exists s1,
    getUserInputValue NUM_DISTANCE_DIGITS s = Done tt s1
    /\ editing_only s s1
    /\ Forall is_digit (LCDLine2Value s1)
    /\ length (LCDLine2Value s1) = length (LCDLine2Value s)
    /\ 0 <= decimal (take 4 (LCDLine2Value s1)) <= 9999
    /\ s' = set_currentDistanceInt
              (Z.min (decimal (take 4 (LCDLine2Value s1))) MAX_TRAVEL_DISTANCE)
              (set_currentDistance (take 4 (LCDLine2Value s1)) s1).
Proof.
  intros H Hc Hd Hlen Hf. unfold getDistance in H. unfold bind at 1 in H.
  destruct (getUserInputValue NUM_DISTANCE_DIGITS s) as [[] s1| |] eqn:G; try discriminate.
  pose proof (getUserInputValue_post _ _ _ G Hc Hd) as (_ & Hd1 & Hl1 & He).
  assert (Hf1 : length (currentDistance s1) = 4%nat) by (rewrite He; exact Hf).
  destruct (entry_then_read 4 currentDistance s s1 G Hc Hd Hlen Hf1) as (Hcopy & Hdig & Hl4).
  exists s1. split; [reflexivity|]. split; [exact He|]. split; [exact Hd1|].
  split; [exact Hl1|].
  unfold readFromLCDLine2 in H.
  repeat first [rewrite bind_gets in H | rewrite bind_assoc in H | rewrite bind_ret in H
               | rewrite bind_modify in H].
  cbn [currentDistance currentDistanceInt LCDLine2Value set_currentDistance
       set_currentDistanceInt] in H.
  change (Z.to_nat NUM_DISTANCE_DIGITS) with 4%nat in H. rewrite Hcopy in H.
  change NUM_DISTANCE_DIGITS with 4 in H.
  destruct (decimal_4 _ Hdig Hl4) as (E & Hb). rewrite E in H.
  split; [exact Hb|].
  unfold MAX_TRAVEL_DISTANCE in *.
  destruct (Z.ltb_spec 1300 (decimal (take 4 (LCDLine2Value s1)))) as [L|L];
    injection H as <-.
  - rewrite Z.min_r by lia. destruct s1; reflexivity.
  - rewrite Z.min_l by lia. reflexivity.
Qed.

(** C8.  A distance commit never stores more than [MAX_TRAVEL_DISTANCE].
    The digits entered are the first four of line 2 as the editor leaves it
    (state [s1]); the commit copies them into [currentDistance] and touches
    nothing else but the stored number; when they decode to more than 1300
    the stored number is exactly 1300, otherwise it is the decoded value,
    which is the number the digits denote. *)
Theorem getDistance_clamps (s s' : state) :
  getDistance s = Done tt s' ->
  0 <= currentCursorPos s < NUM_DISTANCE_DIGITS ->
  Forall is_digit (LCDLine2Value s) ->
  (4 <= length (LCDLine2Value s))%nat ->
  length (currentDistance s) = 4%nat ->
  exists s1,
    getUserInputValue NUM_DISTANCE_DIGITS s = Done tt s1
    /\ s' = set_currentDistanceInt (currentDistanceInt s')
              (set_currentDistance (currentDistance s') s1)
    /\ currentDistance s' = take 4 (LCDLine2Value s1)
    /\ getIntFromDigits (take 4 (LCDLine2Value s1)) NUM_DISTANCE_DIGITS
       = decimal (take 4 (LCDLine2Value s1))
    /\ currentDistanceInt s' <= MAX_TRAVEL_DISTANCE
    /\ (MAX_TRAVEL_DISTANCE
          < getIntFromDigits (take 4 (LCDLine2Value s1)) NUM_DISTANCE_DIGITS ->
        currentDistanceInt s' = MAX_TRAVEL_DISTANCE)
    /\ (getIntFromDigits (take 4 (LCDLine2Value s1)) NUM_DISTANCE_DIGITS
          <= MAX_TRAVEL_DISTANCE ->
        currentDistanceInt s'
        = getIntFromDigits (take 4 (LCDLine2Value s1)) NUM_DISTANCE_DIGITS).
Proof.
  intros H Hc Hd Hlen Hf.
  destruct (getDistance_commit_post s s' H Hc Hd Hlen Hf)
    as (s1 & G & _ & Hd1 & Hl1 & Hb & ->).
  assert (Hl4 : length (take 4 (LCDLine2Value s1)) = 4%nat)
    by (rewrite length_take_le; lia).
  destruct (decimal_4 _ ltac:(apply Forall_take; exact Hd1) Hl4) as (E & _).
  exists s1. change NUM_DISTANCE_DIGITS with 4 in *. rewrite E.
  cbn [currentDistance currentDistanceInt set_currentDistance set_currentDistanceInt].
  unfold MAX_TRAVEL_DISTANCE.
  split; [exact G|]. split; [reflexivity|]. split; [reflexivity|].
  split; [reflexivity|]. split; [lia|]. split; lia.
Qed.

(** 2000 mm typed on a board just switched on: 1300 mm is stored. *)
Lemma getDistance_clamps_witness :
  currentDistanceInt (final (getDistance typed_2000)) = 1300
  /\ exists s1,
    getUserInputValue NUM_DISTANCE_DIGITS typed_2000 = Done tt s1
    /\ final (getDistance typed_2000)
       = set_currentDistanceInt (currentDistanceInt (final (getDistance typed_2000)))
           (set_currentDistance (currentDistance (final (getDistance typed_2000))) s1)
    /\ currentDistance (final (getDistance typed_2000)) = take 4 (LCDLine2Value s1)
    /\ getIntFromDigits (take 4 (LCDLine2Value s1)) NUM_DISTANCE_DIGITS
       = decimal (take 4 (LCDLine2Value s1))
    /\ currentDistanceInt (final (getDistance typed_2000)) <= MAX_TRAVEL_DISTANCE
    /\ (MAX_TRAVEL_DISTANCE
          < getIntFromDigits (take 4 (LCDLine2Value s1)) NUM_DISTANCE_DIGITS ->
        currentDistanceInt (final (getDistance typed_2000)) = MAX_TRAVEL_DISTANCE)
    /\ (getIntFromDigits (take 4 (LCDLine2Value s1)) NUM_DISTANCE_DIGITS
          <= MAX_TRAVEL_DISTANCE ->
        currentDistanceInt (final (getDistance typed_2000))
        = getIntFromDigits (take 4 (LCDLine2Value s1)) NUM_DISTANCE_DIGITS).
Proof.
  split; [vm_compute; reflexivity|].
  apply (getDistance_clamps typed_2000 (final (getDistance typed_2000))).
  - vm_compute. reflexivity.
  - unfold typed_2000, initial_state, NUM_DISTANCE_DIGITS. cbn [currentCursorPos]. lia.
  - unfold typed_2000, initial_state, is_digit. cbn [LCDLine2Value]. repeat constructor; lia.
  - unfold typed_2000, initial_state. cbn [LCDLine2Value length]. lia.
  - reflexivity.
Defined.

(** X12.  A distance commit stores the number that the first four digits of
    line 2 denote, cut down to 1300: a value from 0 to 1300. *)
Theorem getDistance_commits (s s' : state) :
  getDistance s = Done tt s' ->
  0 <= currentCursorPos s < NUM_DISTANCE_DIGITS ->
  Forall is_digit (LCDLine2Value s) ->
  (4 <= length (LCDLine2Value s))%nat ->
  length (currentDistance s) = 4%nat ->
  currentDistance s' = take 4 (LCDLine2Value s')
  /\ currentDistanceInt s' = Z.min (decimal (currentDistance s')) MAX_TRAVEL_DISTANCE
  /\ 0 <= currentDistanceInt s' <= MAX_TRAVEL_DISTANCE.
Proof.
  intros H Hc Hd Hlen Hf.
  destruct (getDistance_commit_post s s' H Hc Hd Hlen Hf) as (s1 & _ & _ & _ & _ & Hb & ->).
  cbn [currentDistance currentDistanceInt LCDLine2Value set_currentDistance
       set_currentDistanceInt].
  split; [reflexivity|]. split; [reflexivity|]. unfold MAX_TRAVEL_DISTANCE. lia.
Qed.

Lemma getDistance_commits_witness :
  currentDistance (final (getDistance typed_2000))
  = take 4 (LCDLine2Value (final (getDistance typed_2000)))
  /\ currentDistanceInt (final (getDistance typed_2000))
     = Z.min (decimal (currentDistance (final (getDistance typed_2000)))) MAX_TRAVEL_DISTANCE
  /\ 0 <= currentDistanceInt (final (getDistance typed_2000)) <= MAX_TRAVEL_DISTANCE.
Proof.
  apply (getDistance_commits typed_2000 (final (getDistance typed_2000))).
  - vm_compute. reflexivity.
  - unfold typed_2000, initial_state, NUM_DISTANCE_DIGITS. cbn [currentCursorPos]. lia.
  - unfold typed_2000, initial_state, is_digit. cbn [LCDLine2Value]. repeat constructor; lia.
  - unfold typed_2000, initial_state. cbn [LCDLine2Value length]. lia.
  - reflexivity.
Defined.

(** X13.  A duration commit stores the number that the six digits of line 2
    denote reduced to a 16-bit [int]: the number itself up to 32767, a
    wrapped value - negative from 32768 to 65535 - above. *)
Theorem getDuration_commits (s s' : state) :
  getDuration s = Done tt s' ->
  0 <= currentCursorPos s < NUM_DURATION_DIGITS ->
  Forall is_digit (LCDLine2Value s) ->
  (6 <= length (LCDLine2Value s))%nat ->
  length (currentDuration s) = 6%nat ->
  currentDuration s' = take 6 (LCDLine2Value s')
  /\ currentDurationInt s' = wrap16 (decimal (currentDuration s'))
  /\ (decimal (currentDuration s') <= INT_MAX ->
      currentDurationInt s' = decimal (currentDuration s'))
  /\ (INT_MAX < decimal (currentDuration s') < 65536 -> currentDurationInt s' < 0).
Proof.
  intros H Hc Hd Hlen Hf. unfold getDuration in H. unfold bind at 1 in H.
  destruct (getUserInputValue NUM_DURATION_DIGITS s) as [[] s1| |] eqn:G; try discriminate.
  pose proof (getUserInputValue_post _ _ _ G Hc Hd) as (_ & _ & _ & He).
  assert (Hf1 : length (currentDuration s1) = 6%nat) by (rewrite He; exact Hf).
  destruct (entry_then_read 6 currentDuration s s1 G Hc Hd Hlen Hf1) as (Hcopy & Hdig & Hl6).
  unfold readFromLCDLine2 in H.
  repeat first [rewrite bind_gets in H | rewrite bind_assoc in H | rewrite bind_ret in H
               | rewrite bind_modify in H]. unfold modify in H.
  change (Z.to_nat NUM_DURATION_DIGITS) with 6%nat in H. rewrite Hcopy in H.
  pose proof (getIntFromDigits_is_wrapped_decimal_aux (take 6 (LCDLine2Value s1))) as E.
  rewrite Hl6 in E. change (Z.of_nat 6) with NUM_DURATION_DIGITS in E. rewrite E in H.
  injection H as <-.
  cbn [currentDuration currentDurationInt LCDLine2Value set_currentDuration
       set_currentDurationInt].
  pose proof (decimal_bound _ Hdig) as Hb.
  split; [reflexivity|]. split; [reflexivity|].
  unfold INT_MAX. split; intros Hle.
  - apply wrap16_small. unfold in_int, INT_MIN, INT_MAX. lia.
  - unfold wrap16.
    replace (decimal (take 6 (LCDLine2Value s1)) + 32768)
      with (decimal (take 6 (LCDLine2Value s1)) - 32768 + 1 * 65536) by ring.
    rewrite Z_mod_plus_full, Z.mod_small by lia. lia.
Qed.

Lemma getDuration_commits_witness :
  currentDuration (final (getDuration (initial_state (typing [0; 4; 0; 0; 0; 0]%nat))))
  = take 6 (LCDLine2Value (final (getDuration (initial_state (typing [0; 4; 0; 0; 0; 0]%nat)))))
  /\ currentDurationInt (final (getDuration (initial_state (typing [0; 4; 0; 0; 0; 0]%nat))))
     = wrap16 (decimal (currentDuration
                 (final (getDuration (initial_state (typing [0; 4; 0; 0; 0; 0]%nat))))))
  /\ (decimal (currentDuration
                 (final (getDuration (initial_state (typing [0; 4; 0; 0; 0; 0]%nat)))))
      <= INT_MAX ->
      currentDurationInt (final (getDuration (initial_state (typing [0; 4; 0; 0; 0; 0]%nat))))
      = decimal (currentDuration
                   (final (getDuration (initial_state (typing [0; 4; 0; 0; 0; 0]%nat))))))
  /\ (INT_MAX < decimal (currentDuration
                 (final (getDuration (initial_state (typing [0; 4; 0; 0; 0; 0]%nat)))))
      < 65536 ->
      currentDurationInt (final (getDuration (initial_state (typing [0; 4; 0; 0; 0; 0]%nat))))
      < 0).
Proof.
  apply (getDuration_commits (initial_state (typing [0; 4; 0; 0; 0; 0]%nat))
           (final (getDuration (initial_state (typing [0; 4; 0; 0; 0; 0]%nat))))).
  - vm_compute. reflexivity.
  - unfold initial_state, NUM_DURATION_DIGITS. cbn [currentCursorPos]. lia.
  - unfold initial_state, is_digit. cbn [LCDLine2Value]. repeat constructor; lia.
  - unfold initial_state. cbn [LCDLine2Value length]. lia.
  - reflexivity.
Defined.

(** * Further properties of motion control *)

(** ** Invariants of the loop in any mode *)

Section Stable.
Context (Inv : state -> Prop).
Context (Inv_event : forall e s, is_step e = false -> is_shutter e = false ->
                       Inv s -> Inv (set_trace (e :: trace s) s)).
Context (Inv_fired : forall n s, timer_on s = true -> Inv s -> Inv (fired n s)).
Context (Inv_adc : forall a s, Inv s -> Inv (set_adc_in a s)).
Context (Inv_prev : forall b s, Inv s -> Inv (set_prevButton b s)).
Context (Inv_shutter : keeps Inv shutter).

Lemma stable_interrupts (n : nat) : keeps Inv (interrupts n).
Proof.
  intros s Hs. rewrite interrupts_eq. cbn [final].
  destruct (timer_on s) eqn:E; [apply Inv_fired; assumption | exact Hs].
Qed.

Lemma stable_readLcdButtons : keeps Inv readLcdButtons.
Proof.
  intros s Hs. rewrite readLcdButtons_eq.
  destruct (adc_in s) as [|a1 rest]; [exact Hs|].
  destruct (button_of_adc a1 =? prevButton s).
  { cbn [final]. apply Inv_adc, Hs. }
  cbv zeta. destruct rest as [|a2 rest]; cbn [final].
  - apply (Inv_event _ (set_adc_in [] s)); [reflexivity | reflexivity | apply Inv_adc, Hs].
  - apply Inv_prev, Inv_adc.
    apply (Inv_event _ (set_adc_in (a2 :: rest) s));
      [reflexivity | reflexivity | apply Inv_adc, Hs].
Qed.

Lemma stable_dot : keeps Inv (emit (LcdPrint ".")).
Proof. intros s Hs. apply Inv_event; [reflexivity | reflexivity | exact Hs]. Qed.

Lemma stable_iteration (e : ticks) (p : Z) : keeps Inv (iteration e p).
Proof.
  unfold iteration.
  repeat first
    [ apply keeps_ret | apply keeps_gets | apply stable_interrupts
    | apply stable_readLcdButtons | apply keeps_c_rem | apply stable_dot
    | apply Inv_shutter
    | apply keeps_bind; [|intros ?]
    | match goal with |- keeps _ (if ?c then _ else _) => destruct c end ].
Qed.

Lemma stable_turns (sch : list ticks) : forall p, keeps Inv (turns sch p).
Proof.
  induction sch as [|e sch IH]; intros p; cbn [turns].
  - apply keeps_ret.
  - apply keeps_bind; [apply stable_iteration|].
    intros [p'|o]; [apply IH | apply keeps_ret].
Qed.

Lemma stable_supervise (sch : list ticks) (p : Z) : keeps Inv (supervise sch p).
Proof.
  unfold supervise. apply keeps_bind; [apply stable_turns|].
  intros [p'|o]; [apply keeps_starved | apply keeps_ret].
Qed.
End Stable.

Lemma shutter_eq (s : state) :
  shutter s
  = Done tt
      (set_timer_on true
         (set_trace (TimerStart :: Delay (shutterDuration * 1000 - 80)
                     :: DigitalWrite trig LOW :: Delay 80 :: DigitalWrite trig HIGH
                     :: Delay 20 :: TimerStop :: trace s) s)).
Proof. destruct s. reflexivity. Qed.

(** While the loop is live the pulse timer is running. *)
Lemma supervise_timer_on (sch : list ticks) (p : Z) :
  keeps (fun s => timer_on s = true) (supervise sch p).
Proof.
  apply stable_supervise; try (intros; assumption).
  intros s _. rewrite shutter_eq. reflexivity.
Qed.

Lemma motionControl_eq (sch : list ticks) (s s0 : state) :
  plan s = Done tt s0 ->
  motionControl sch s
  = match supervise sch 0 s0 with
    | Done o s1 => Done o (set_timer_on false (set_trace (TimerStop :: trace s1) s1))
    | Starved s1 => Starved s1
    | Undefined s1 => Undefined s1
    end.
Proof.
  intros Hp. unfold motionControl. rewrite (bind_Done _ _ _ _ _ Hp).
  unfold bind at 1. destruct (supervise sch 0 s0); reflexivity.
Qed.

(** X14.  [motionControl] stops the pulse timer on every return, whichever
    way the loop was left.  Whenever it does not return - the loop still
    turning, or stopped on a division by zero - the timer is still running:
    the motor is still being stepped. *)
Theorem motionControl_timer_discipline (sch : list ticks) (s : state) :
  match motionControl sch s with
  | Done _ s' => timer_on s' = false /\ head (trace s') = Some TimerStop
  | Starved s' => timer_on s' = true
  | Undefined s' => timer_on s' = true
  end.
Proof.
  destruct (plan_eq s) as (s0 & pre & Hp & _ & _ & _ & _ & _ & _ & Hon & _).
  rewrite (motionControl_eq _ _ _ Hp).
  pose proof (supervise_timer_on sch 0 s0 Hon) as K.
  destruct (supervise sch 0 s0) as [o s1| |]; cbn [final] in K.
  - split; reflexivity.
  - exact K.
  - exact K.
Qed.

(** ** The counter and the step line *)

Lemma counts_pulses_trace (m0 : nat) (c0 : Z) (s s' : state) (pre : list event) :
  counts_pulses m0 c0 s ->
  currentStep s' = currentStep s ->
  trace s' = pre ++ trace s ->
  count_events is_step pre = 0%nat ->
  counts_pulses m0 c0 s'.
Proof.
  intros (n & Hm & Hc) E1 E2 Hpre. exists n.
  unfold motor_pulses in *. rewrite E1, E2, count_events_app, Hpre. split; assumption.
Qed.

Lemma counts_pulses_fired (m0 : nat) (c0 : Z) (k : nat) (s : state) :
  counts_pulses m0 c0 s -> counts_pulses m0 c0 (fired k s).
Proof.
  intros (n & Hm & Hc). exists (n + k)%nat.
  unfold motor_pulses in *. cbn [fired trace currentStep set_trace set_currentStep].
  rewrite count_events_app, pulses_steps, Hm, Hc, bump_add. split; [lia | reflexivity].
Qed.

Lemma supervise_counts_pulses (m0 : nat) (c0 : Z) (sch : list ticks) (p : Z) :
  keeps (counts_pulses m0 c0) (supervise sch p).
Proof.
  apply stable_supervise.
  - intros e s He _ Hs. apply (counts_pulses_trace m0 c0 s _ [e] Hs); try reflexivity.
    rewrite count_events_cons, He. reflexivity.
  - intros n s _ Hs. apply counts_pulses_fired, Hs.
  - intros a s Hs. apply (counts_pulses_trace m0 c0 s _ [] Hs); reflexivity.
  - intros b s Hs. apply (counts_pulses_trace m0 c0 s _ [] Hs); reflexivity.
  - intros s Hs. rewrite shutter_eq. cbn [final].
    eapply (counts_pulses_trace m0 c0 s _ _ Hs); [reflexivity | |].
    + cbn [trace set_timer_on set_trace].
      change (?a :: ?b :: ?c :: ?d :: ?e :: ?f :: ?g :: trace s)
        with ([a; b; c; d; e; f; g] ++ trace s). reflexivity.
    + reflexivity.
Qed.

(** X15.  In every run, in either mode and whatever the keypad and the timer
    do, the step counter follows the step line: when the run stops -
    returned or not - [currentStep] is what [n] increments make of 0, [n]
    being the number of step pulses given since the run began. *)
Theorem counter_follows_step_pulses (sch : list ticks) (s : state) :
  exists n : nat,
    motor_pulses (final (motionControl sch s)) = (motor_pulses s + n)%nat
    /\ currentStep (final (motionControl sch s)) = bump n 0.
Proof.
  destruct (plan_eq s) as (s0 & pre & Hp & Hcs & _ & _ & _ & _ & _ & _ & _ & Htr & Hpre).
  assert (H0 : counts_pulses (motor_pulses s) 0 s0).
  { exists 0%nat. unfold motor_pulses. rewrite Htr, Hcs.
    rewrite !count_events_cons, count_events_app. cbn [is_step].
    assert (count_events is_step pre = 0%nat) as ->
      by (destruct Hpre as [-> | [-> | ->]]; reflexivity).
    split; [lia | reflexivity]. }
  rewrite (motionControl_eq _ _ _ Hp).
  pose proof (supervise_counts_pulses _ _ sch 0 s0 H0) as K.
  destruct (supervise sch 0 s0) as [o s1| |]; cbn [final] in K |- *.
  - apply (counts_pulses_trace _ _ s1 _ [TimerStop] K); reflexivity.
  - exact K.
  - exact K.
Qed.

(** ** Stepping through a turn of the loop *)

Lemma bind_shutter {B} (k : unit -> M B) (s : state) :
  bind shutter k s
  = k tt (set_timer_on true
            (set_trace (TimerStart :: Delay (shutterDuration * 1000 - 80)
                        :: DigitalWrite trig LOW :: Delay 80 :: DigitalWrite trig HIGH
                        :: Delay 20 :: TimerStop :: trace s) s)).
Proof. unfold bind. rewrite shutter_eq. reflexivity. Qed.

(** The first steps of a turn whose poll does not read Select: the firings
    of the poll, then the poll, in its two cases. *)
Ltac enter_turn Hadc Ha1 Ha2 :=
  unfold iteration;
  rewrite bind_interrupts by assumption;
  unfold bind at 1; rewrite readLcdButtons_eq; fields; rewrite Hadc;
  match goal with
  | |- context [button_of_adc ?a =? prevButton ?s] =>
      let E := fresh "E" in
      destruct (button_of_adc a =? prevButton s) eqn:E;
      [ apply Z.eqb_eq in E; rewrite <- E;
        rewrite (proj2 (Z.eqb_neq _ _) Ha1)
      | cbv zeta; rewrite (proj2 (Z.eqb_neq _ _) Ha2) ]
  end.

Ltac run_turn :=
  repeat first
    [ rewrite bind_assoc | rewrite bind_gets | rewrite bind_ret | rewrite bind_emit
    | rewrite bind_modify | rewrite bind_shutter
    | rewrite bind_interrupts by (fields; first [assumption | reflexivity])
    | rewrite bind_c_rem by (fields; assumption) ];
  fields.

(** ** Video mode over any distance *)

Lemma quot16_nonzero (d : Z) : 4 <= d -> Z.quot (d * 5) dotSteps <> 0.
Proof.
  intros Hd. unfold dotSteps. rewrite Z.quot_small_iff by lia. lia.
Qed.

(** X16.  In video mode, for every distance from 4 mm to the travel limit
    and every duration, a run with the keypad left alone and at most one
    timer firing in each turn of the loop gives exactly 5 motor pulses per
    millimetre and no shutter pulse, is left by the loop condition with the
    counter at [5 * distance], and stops the timer. *)
Theorem video_run_travels_distance (sch : list ticks) (s : state) :
  currentStepsInt s = 0 ->
  4 <= currentDistanceInt s <= MAX_TRAVEL_DISTANCE ->
  calm (adc_in s) = true ->
  (2 * length sch <= length (adc_in s))%nat ->
  single_tick sch = true ->
  currentDistanceInt s * 5 <= Z.of_nat (ticks_total sch) ->
  exists s',
    motionControl sch s = Done Completed s'
    /\ currentStep s' = currentDistanceInt s * 5
    /\ Z.of_nat (motor_pulses s') = Z.of_nat (motor_pulses s) + currentDistanceInt s * 5
    /\ shutter_pulses s' = shutter_pulses s
    /\ timer_on s' = false.
Proof.
  unfold MAX_TRAVEL_DISTANCE. intros Hsteps Hdist Hcalm Hlen Hone Hticks.
  destruct (plan_eq s)
    as (s0 & pre & Hp & Hcs & Htot & Hpd & _ & Hdd & Hst & Hon & Hadc & Htr & Hpre).
  assert (Hpre0 : count_events is_step pre = 0%nat /\ count_events is_shutter pre = 0%nat)
    by (destruct Hpre as [-> | [-> | ->]]; split; reflexivity).
  destruct (turns_video sch 0 s0) as (s1 & Hrun & Hfin & Hplan & Hsh & Hmp);
    try congruence.
  { rewrite Hdd. apply quot16_nonzero. lia. }
  { rewrite Hcs, Htot. lia. }
  { rewrite Htot. unfold INT_MAX. lia. }
  { rewrite Hcs, Htot. lia. }
  exists (set_timer_on false (set_trace (TimerStop :: trace s1) s1)).
  split.
  { rewrite (motionControl_eq _ _ _ Hp). unfold supervise.
    rewrite (bind_Done _ _ _ _ _ Hrun). reflexivity. }
  fields. split; [congruence|].
  unfold motor_pulses, shutter_pulses in *. fields.
  rewrite !count_events_cons. cbn [is_step is_shutter].
  rewrite Htr in Hmp, Hsh. rewrite !count_events_cons, count_events_app in Hmp, Hsh.
  cbn [is_step is_shutter] in Hmp, Hsh. rewrite Hcs, Htot in Hmp.
  destruct Hpre0 as [P1 P2]. rewrite P1 in Hmp. rewrite P2 in Hsh.
  split; [lia|]. split; [lia | reflexivity].
Qed.

Lemma video_run_travels_distance_witness :
  exists s',
    motionControl (repeat tick_at_end 35) (short_start (idle_pad 70)) = Done Completed s'
    /\ currentStep s' = currentDistanceInt (short_start (idle_pad 70)) * 5
    /\ Z.of_nat (motor_pulses s')
       = Z.of_nat (motor_pulses (short_start (idle_pad 70)))
         + currentDistanceInt (short_start (idle_pad 70)) * 5
    /\ shutter_pulses s' = shutter_pulses (short_start (idle_pad 70))
    /\ timer_on s' = false.
Proof.
  apply (video_run_travels_distance (repeat tick_at_end 35) (short_start (idle_pad 70))).
  - reflexivity.
  - vm_compute. split; intros H; discriminate H.
  - vm_compute. reflexivity.
  - apply Nat.leb_le. vm_compute. reflexivity.
  - vm_compute. reflexivity.
  - vm_compute. intros H. discriminate H.
Defined.

(** ** Division by zero *)

(** X17.  Whenever more camera steps are asked for than the travel has motor
    steps, [intervalDistance] is 0 and the run stops in the first turn of the
    loop on [currentStep % 0], unless Select is read first; the timer is
    left running. *)
Theorem more_steps_than_motor_steps (e : ticks) (sch : list ticks) (s : state)
    (a1 a2 : Z) (rest : list Z) :
  0 <= currentDistanceInt s * 5 < currentStepsInt s ->
  adc_in s = a1 :: a2 :: rest ->
  button_of_adc a1 <> btnSel ->
  button_of_adc a2 <> btnSel ->
  exists s',
    motionControl (e :: sch) s = Undefined s'
    /\ intervalDistance s' = 0
    /\ timer_on s' = true
    /\ shutter_pulses s' = shutter_pulses s.
Proof.
  intros Hsteps Hadc0 Ha1 Ha2.
  destruct (plan_eq s)
    as (s0 & pre & Hp & Hcs & Htot & Hpd & Hiv & Hdd & Hst & Hon & Hadc & Htr & Hpre).
  assert (Hpos : (0 <? currentStepsInt s0) = true) by (apply Z.ltb_lt; lia).
  assert (Hiv0 : intervalDistance s0 = 0).
  { rewrite Hiv. rewrite Hst in Hpos. rewrite Hpos. apply Z.quot_small. lia. }
  assert (Hsh0 : count_events is_shutter (trace s0) = count_events is_shutter (trace s)).
  { rewrite Htr, !count_events_cons, count_events_app. cbn [is_shutter].
    destruct Hpre as [-> | [-> | ->]]; reflexivity. }
  rewrite Hadc0 in Hadc.
  assert (Hit : exists s',
            iteration e 0 s0 = Undefined s' /\ intervalDistance s' = 0
            /\ timer_on s' = true
            /\ count_events is_shutter (trace s') = count_events is_shutter (trace s0)).
  { enter_turn Hadc Ha1 Ha2.
    all: rewrite bind_gets; fields; rewrite Hpos.
    all: repeat first [rewrite bind_assoc | rewrite bind_gets]; fields; rewrite Hiv0.
    all: unfold bind at 1, c_rem; cbn [Z.eqb]; unfold undefined.
    all: eexists; (split; [reflexivity|]); fields.
    all: split; [exact Hiv0|]; split; [exact Hon|].
    all: rewrite ?count_events_cons, count_events_app, pulses_no_shutter; reflexivity. }
  destruct Hit as (s' & Hit & P1 & P2 & P3).
  exists s'. split.
  - rewrite (motionControl_eq _ _ _ Hp). unfold supervise. cbn [turns].
    unfold bind at 1. unfold bind at 1. rewrite Hit. reflexivity.
  - unfold shutter_pulses. rewrite P3, Hsh0. auto.
Qed.

Lemma more_steps_than_motor_steps_witness :
  exists s',
    motionControl (tick_in_poll :: [no_tick]) (committed 1 10 6 [1023; 1023]) = Undefined s'
    /\ intervalDistance s' = 0
    /\ timer_on s' = true
    /\ shutter_pulses s' = shutter_pulses (committed 1 10 6 [1023; 1023]).
Proof.
  apply (more_steps_than_motor_steps tick_in_poll [no_tick]
           (committed 1 10 6 [1023; 1023]) 1023 1023 []).
  - vm_compute. split; [intros H; discriminate H | reflexivity].
  - reflexivity.
  - vm_compute. intros H. discriminate H.
  - vm_compute. intros H. discriminate H.
Defined.

Lemma bump_0 (z : Z) : bump 0 z = z.
Proof. reflexivity. Qed.

Lemma calm_cons2 (a1 a2 : Z) (rest : list Z) :
  calm (a1 :: a2 :: rest) = true ->
  button_of_adc a1 <> btnSel /\ button_of_adc a2 <> btnSel /\ calm rest = true.
Proof.
  cbn [calm forallb]. intros H.
  apply andb_prop in H as [H1 H]. apply andb_prop in H as [H2 H].
  apply negb_true_iff, Z.eqb_neq in H1. apply negb_true_iff, Z.eqb_neq in H2. auto.
Qed.

Lemma calm_tail (a : Z) (rest : list Z) : calm (a :: rest) = true -> calm rest = true.
Proof. cbn [calm forallb]. intros H. apply andb_prop in H as [_ H]. exact H. Qed.

(** ** Time lapse before the first timer firing *)

(** A turn of a time-lapse run made with the counter still at 0 and no
    firing: the shutter sequence runs, nothing else changes, and the loop
    goes round again. *)
Lemma idle_turn_fires (s : state) (a1 a2 : Z) (rest : list Z) :
  currentStep s = 0 ->
  0 < currentStepsInt s ->
  intervalDistance s <> 0 ->
  0 < totalMotorSteps s ->
  timer_on s = true ->
  adc_in s = a1 :: a2 :: rest ->
  button_of_adc a1 <> btnSel ->
  button_of_adc a2 <> btnSel ->
  exists s',
    iteration no_tick 0 s = Done (Again 0) s'
    /\ (adc_in s' = a2 :: rest \/ adc_in s' = rest)
    /\ currentStep s' = 0
    /\ same_plan s s'
    /\ shutter_pulses s' = S (shutter_pulses s)
    /\ motor_pulses s' = motor_pulses s.
Proof.
  intros Hcs Hsteps Hiv Htot Hon Hadc Ha1 Ha2.
  assert (Hpos : (0 <? currentStepsInt s) = true) by (apply Z.ltb_lt, Hsteps).
  assert (Hlt : (0 <? totalMotorSteps s) = true) by (apply Z.ltb_lt, Htot).
  enter_turn Hadc Ha1 Ha2.
  all: cbn [t_poll t_changed t_latch t_dot t_while no_tick].
  all: rewrite bind_gets; fields; rewrite Hpos.
  all: repeat first [rewrite bind_assoc | rewrite bind_gets]; fields.
  all: rewrite ?bump_0, Hcs.
  all: rewrite bind_c_rem by assumption.
  all: rewrite Z.rem_0_l by assumption.
  all: rewrite bind_ret; change (0 =? 0) with true; cbv iota.
  all: run_turn.
  all: rewrite ?bump_0, ?Hcs; change (negb (0 =? 0)) with false; cbv iota.
  all: run_turn.
  all: rewrite ?bump_0, ?Hcs, Hlt.
  all: eexists; (split; [reflexivity|]); fields.
  all: rewrite ?bump_0.
  all: split; [auto|].
  all: split; [exact Hcs|].
  all: split; [unfold same_plan; fields; repeat split; first [reflexivity | symmetry; assumption]|].
  all: unfold shutter_pulses, motor_pulses; fields.
  all: repeat rewrite ?count_events_app, ?count_events_cons.
  all: cbn [pulses count_events List.filter length is_shutter is_step Nat.add];
       change (trig =? trig) with true; change (trig =? stp) with false;
       unfold HIGH, LOW; cbv iota.
  all: split; lia.
Qed.

Lemma idle_turns_fire (n : nat) :
  forall s : state,
    currentStep s = 0 ->
    0 < currentStepsInt s ->
    intervalDistance s <> 0 ->
    0 < totalMotorSteps s ->
    timer_on s = true ->
    calm (adc_in s) = true ->
    (2 * n <= length (adc_in s))%nat ->
    exists s',
      turns (repeat no_tick n) 0 s = Done (Again 0) s'
      /\ currentStep s' = 0
      /\ shutter_pulses s' = (shutter_pulses s + n)%nat
      /\ motor_pulses s' = motor_pulses s.
Proof.
  induction n as [|n IH]; intros s Hcs Hsteps Hiv Htot Hon Hcalm Hlen.
  - exists s. cbn [repeat turns]. split; [reflexivity|].
    split; [exact Hcs|]. split; [lia | reflexivity].
  - destruct (adc_in s) as [|a1 [|a2 rest]] eqn:Hadc; cbn [length] in Hlen; try lia.
    destruct (calm_cons2 _ _ _ Hcalm) as (Ha1 & Ha2 & Hrest).
    destruct (idle_turn_fires s a1 a2 rest Hcs Hsteps Hiv Htot Hon Hadc Ha1 Ha2)
      as (s1 & Hit & Hadc1 & Hcs1 & (P1 & P2 & P3 & P4 & P5 & P6) & Hsh & Hmp).
    destruct (IH s1) as (s' & Hrun & Hcs' & Hsh' & Hmp'); try congruence.
    + destruct Hadc1 as [-> | ->]; [|exact Hrest].
      cbn [calm forallb]. apply andb_true_intro.
      split; [apply negb_true_iff, Z.eqb_neq, Ha2 | exact Hrest].
    + destruct Hadc1 as [-> | ->]; cbn [length]; lia.
    + exists s'. cbn [repeat turns]. rewrite (bind_Done _ _ _ _ _ Hit).
      split; [exact Hrun|]. split; [exact Hcs'|]. split; [lia | congruence].
Qed.

(** X18.  In time-lapse mode with a usable interval (no more camera steps
    than motor steps), every turn of the loop made before the timer has
    fired runs the shutter sequence again: after [n] such turns the camera
    has been fired [n] times, the motor has not moved, and the loop is still
    turning. *)
Theorem timelapse_fires_until_first_tick (n : nat) (s : state) :
  0 < currentStepsInt s <= currentDistanceInt s * 5 ->
  calm (adc_in s) = true ->
  (2 * n <= length (adc_in s))%nat ->
  exists s',
    motionControl (repeat no_tick n) s = Starved s'
    /\ shutter_pulses s' = (shutter_pulses s + n)%nat
    /\ motor_pulses s' = motor_pulses s
    /\ currentStep s' = 0.
Proof.
  intros Hsteps Hcalm Hlen.
  destruct (plan_eq s)
    as (s0 & pre & Hp & Hcs & Htot & Hpd & Hiv & Hdd & Hst & Hon & Hadc & Htr & Hpre).
  assert (Hpre0 : count_events is_step pre = 0%nat /\ count_events is_shutter pre = 0%nat)
    by (destruct Hpre as [-> | [-> | ->]]; split; reflexivity).
  destruct Hpre0 as [P1 P2].
  destruct (idle_turns_fire n s0) as (s' & Hrun & Hcs' & Hsh & Hmp); try congruence.
  - rewrite Hst. lia.
  - rewrite Hiv. destruct (Z.ltb_spec 0 (currentStepsInt s)); [|lia].
    rewrite Z.quot_small_iff by lia. lia.
  - rewrite Htot. lia.
  - exists s'. split.
    + rewrite (motionControl_eq _ _ _ Hp). unfold supervise.
      rewrite (bind_Done _ _ _ _ _ Hrun). reflexivity.
    + unfold shutter_pulses, motor_pulses in *. rewrite Hsh, Hmp, Htr.
      rewrite !count_events_cons, !count_events_app, P1, P2. cbn [is_step is_shutter].
      split; [lia|]. split; [lia | exact Hcs'].
Qed.

Lemma timelapse_fires_until_first_tick_witness :
  exists s',
    motionControl (repeat no_tick 3) (timelapse_start (idle_pad 6)) = Starved s'
    /\ shutter_pulses s' = (shutter_pulses (timelapse_start (idle_pad 6)) + 3)%nat
    /\ motor_pulses s' = motor_pulses (timelapse_start (idle_pad 6))
    /\ currentStep s' = 0.
Proof.
  apply (timelapse_fires_until_first_tick 3 (timelapse_start (idle_pad 6))).
  - vm_compute. split; [reflexivity | intros H; discriminate H].
  - vm_compute. reflexivity.
  - apply Nat.leb_le. vm_compute. reflexivity.
Defined.

(** ** Short distances *)

Lemma bump_1 (z : Z) : INT_MIN <= z < INT_MAX -> bump 1 z = z + 1.
Proof.
  intros Hz. change (bump 1 z) with (wrap16 (z + 1)).
  apply wrap16_small. unfold in_int. lia.
Qed.

Lemma bump_exact (n : nat) :
  forall z, INT_MIN <= z -> z + Z.of_nat n <= INT_MAX -> bump n z = z + Z.of_nat n.
Proof.
  induction n as [|n IH]; intros z Hlo Hhi.
  - cbn. lia.
  - replace (S n) with (1 + n)%nat by lia. rewrite bump_add.
    rewrite bump_1 by lia. rewrite IH by lia. lia.
Qed.

(** A turn in video mode entered with the counter and [prevStep] both 0,
    in which no firing falls before the test of the counter: the turn sees
    no step, divides by nothing, and goes round again with the firings that
    fell later counted. *)
Lemma quiet_turn (e : ticks) (s : state) (a1 a2 : Z) (rest : list Z) :
  currentStepsInt s = 0 ->
  timer_on s = true ->
  adc_in s = a1 :: a2 :: rest ->
  button_of_adc a1 <> btnSel ->
  button_of_adc a2 <> btnSel ->
  t_poll e = 0%nat ->
  t_changed e = 0%nat ->
  currentStep s = 0 ->
  Z.of_nat (t_latch e + t_dot e + t_while e) < totalMotorSteps s ->
  totalMotorSteps s <= INT_MAX ->
  exists s',
    iteration e 0 s = Done (Again 0) s'
    /\ (adc_in s' = a2 :: rest \/ adc_in s' = rest)
    /\ currentStep s' = Z.of_nat (t_latch e + t_dot e + t_while e)
    /\ same_plan s s'
    /\ motor_pulses s' = (motor_pulses s + (t_latch e + t_dot e + t_while e))%nat
    /\ dots s' = dots s.
Proof.
  intros Hsteps Hon Hadc Ha1 Ha2 Hp Hc Hcs Hk Hmax.
  assert (Hb : bump (t_while e) (bump (t_dot e) (bump (t_latch e) 0))
               = Z.of_nat (t_latch e + t_dot e + t_while e)).
  { rewrite <- !bump_add. rewrite bump_exact; unfold INT_MIN, INT_MAX in *; lia. }
  enter_turn Hadc Ha1 Ha2.
  all: rewrite Hp, Hc.
  all: rewrite bind_gets; fields; rewrite Hsteps.
  all: change (0 <? 0) with false; cbv iota.
  all: rewrite !bind_ret.
  all: rewrite bind_interrupts by (fields; assumption).
  all: rewrite bind_gets; fields; rewrite ?bump_0, Hcs.
  all: change (negb (0 =? 0)) with false; cbv iota.
  all: run_turn.
  all: rewrite ?bump_0, ?Hcs, Hb.
  all: destruct (Z.ltb_spec (Z.of_nat (t_latch e + t_dot e + t_while e)) (totalMotorSteps s));
         [|lia].
  all: eexists; (split; [reflexivity|]); fields.
  all: rewrite ?bump_0, ?Hcs, ?Hb.
  all: split; [auto|].
  all: split; [reflexivity|].
  all: split; [unfold same_plan; fields; repeat split; reflexivity|].
  all: unfold motor_pulses, dots; fields.
  all: repeat rewrite ?count_events_app, ?count_events_cons, ?pulses_steps, ?pulses_no_dot.
  all: cbn [is_step is_dot]; split; lia.
Qed.

(** Turns without any firing, the counter still at 0. *)
Lemma quiet_turns (n : nat) :
  forall s : state,
    currentStepsInt s = 0 ->
    timer_on s = true ->
    currentStep s = 0 ->
    0 < totalMotorSteps s <= INT_MAX ->
    calm (adc_in s) = true ->
    (2 * n <= length (adc_in s))%nat ->
    exists s',
      turns (repeat no_tick n) 0 s = Done (Again 0) s'
      /\ currentStep s' = 0
      /\ same_plan s s'
      /\ calm (adc_in s') = true
      /\ (length (adc_in s) <= length (adc_in s') + 2 * n)%nat
      /\ motor_pulses s' = motor_pulses s
      /\ dots s' = dots s.
Proof.
  induction n as [|n IH]; intros s Hsteps Hon Hcs Htot Hcalm Hlen.
  - exists s. cbn [repeat turns]. split; [reflexivity|]. split; [exact Hcs|].
    split; [unfold same_plan; repeat split; reflexivity|].
    split; [exact Hcalm|]. split; [lia|]. split; reflexivity.
  - destruct (adc_in s) as [|a1 [|a2 rest]] eqn:Hadc; cbn [length] in Hlen; try lia.
    destruct (calm_cons2 _ _ _ Hcalm) as (Ha1 & Ha2 & Hrest).
    destruct (quiet_turn no_tick s a1 a2 rest Hsteps Hon Hadc Ha1 Ha2 eq_refl eq_refl Hcs)
      as (s1 & Hit & Hadc1 & Hcs1 & (P1 & P2 & P3 & P4 & P5 & P6) & Hmp & Hdots);
      [cbn; lia | lia |].
    change (Z.of_nat (t_latch no_tick + t_dot no_tick + t_while no_tick)) with 0 in Hcs1.
    change (t_latch no_tick + t_dot no_tick + t_while no_tick)%nat with 0%nat in Hmp.
    assert (Hcalm1 : calm (adc_in s1) = true).
    { destruct Hadc1 as [-> | ->]; [|exact Hrest].
      cbn [calm forallb]. apply andb_true_intro.
      split; [apply negb_true_iff, Z.eqb_neq, Ha2 | exact Hrest]. }
    assert (Hlen1 : (2 * n <= length (adc_in s1))%nat)
      by (destruct Hadc1 as [-> | ->]; cbn [length]; lia).
    destruct (IH s1) as (s' & Hrun & Hcs' & (Q1 & Q2 & Q3 & Q4 & Q5 & Q6) & Hcalm' & Hlen' & Hmp' & Hdots');
      [congruence | congruence | exact Hcs1 | rewrite P2; exact Htot
      | exact Hcalm1 | exact Hlen1 |].
    + exists s'. cbn [repeat turns]. rewrite (bind_Done _ _ _ _ _ Hit).
      split; [exact Hrun|]. split; [exact Hcs'|].
      split; [unfold same_plan; repeat split; congruence|].
      split; [exact Hcalm'|].
      split; [destruct Hadc1 as [E | E]; rewrite E in Hlen'; cbn [length] in *; lia|].
      split; [lia | congruence].
Qed.

(** A turn in video mode with [dotDistance = 0] that sees a changed
    counter divides by zero. *)
Lemma seen_turn_divides (e : ticks) (p : Z) (s : state) (a1 a2 : Z) (rest : list Z) :
  currentStepsInt s = 0 ->
  timer_on s = true ->
  dotDistance s = 0 ->
  adc_in s = a1 :: a2 :: rest ->
  button_of_adc a1 <> btnSel ->
  button_of_adc a2 <> btnSel ->
  bump (t_poll e + t_changed e) (currentStep s) <> p ->
  exists s',
    iteration e p s = Undefined s'
    /\ dotDistance s' = 0
    /\ timer_on s' = true
    /\ motor_pulses s' = (motor_pulses s + (t_poll e + t_changed e + t_latch e + t_dot e))%nat
    /\ dots s' = dots s.
Proof.
  intros Hsteps Hon Hdd Hadc Ha1 Ha2 Hne.
  rewrite bump_add in Hne. apply Z.eqb_neq in Hne.
  enter_turn Hadc Ha1 Ha2.
  all: rewrite bind_gets; fields; rewrite Hsteps.
  all: change (0 <? 0) with false; cbv iota.
  all: rewrite !bind_ret.
  all: rewrite bind_interrupts by (fields; assumption).
  all: rewrite bind_gets; fields; rewrite Hne.
  all: cbn [negb].
  all: repeat first [ rewrite bind_assoc | rewrite bind_gets
                    | rewrite bind_interrupts by (fields; assumption) ]; fields.
  all: rewrite Hdd.
  all: unfold bind at 1, c_rem; cbn [Z.eqb]; unfold undefined.
  all: eexists; (split; [reflexivity|]); fields.
  all: split; [exact Hdd|].
  all: split; [exact Hon|].
  all: unfold motor_pulses, dots; fields.
  all: repeat rewrite ?count_events_app, ?count_events_cons, ?pulses_steps, ?pulses_no_dot.
  all: cbn [is_step is_dot]; split; lia.
Qed.

Lemma late_only_cases (late : list ticks) :
  late_only late = true ->
  late = []
  \/ exists e0, late = [e0] /\ t_poll e0 = 0%nat /\ t_changed e0 = 0%nat.
Proof.
  unfold late_only. intros H. apply andb_prop in H as [Hl Hf].
  apply Nat.leb_le in Hl.
  destruct late as [|e0 [|e1 late]]; cbn [length] in Hl; [left; reflexivity | | lia].
  right. exists e0. cbn [forallb] in Hf. apply andb_prop in Hf as [Hf _].
  apply Nat.eqb_eq in Hf. split; [reflexivity|]. lia.
Qed.

(** X19.  In video mode over 1 to 3 mm the travel has fewer than 16 motor
    steps, [dotDistance] is 0, and the run stops on [currentStep % 0] in the
    first turn of the loop that sees a motor step, with the timer left
    running and no marker printed.  The keypad is left alone.  Any number
    [n] of turns without a firing may come first; then the first firings
    either fall in a turn before its test of the counter, and that turn
    divides; or they fall in a turn after the test ([late], fewer firings
    than the travel has steps), and the next turn divides.  The pulses
    given are those that fell before the division. *)
Theorem short_distance_divides_by_zero
    (n : nat) (late : list ticks) (e : ticks) (sch : list ticks) (s : state) :
  currentStepsInt s = 0 ->
  1 <= currentDistanceInt s <= 3 ->
  calm (adc_in s) = true ->
  (2 * (n + length late + 1) <= length (adc_in s))%nat ->
  late_only late = true ->
  Z.of_nat (ticks_total late) < currentDistanceInt s * 5 ->
  (1 <= ticks_total late + t_poll e + t_changed e)%nat ->
  Z.of_nat (t_poll e + t_changed e) <= 32000 ->
  exists s',
    motionControl (repeat no_tick n ++ late ++ e :: sch) s = Undefined s'
    /\ dotDistance s' = 0
    /\ motor_pulses s'
       = (motor_pulses s + ticks_total late
          + (t_poll e + t_changed e + t_latch e + t_dot e))%nat
    /\ dots s' = dots s
    /\ timer_on s' = true.
Proof.
  intros Hsteps Hdist Hcalm Hlen Hlate Hk Hfirst Hbound.
  destruct (plan_eq s)
    as (s0 & pre & Hp & Hcs & Htot & Hpd & Hiv & Hdd & Hst & Hon & Hadc & Htr & Hpre).
  assert (Hdd0 : dotDistance s0 = 0).
  { rewrite Hdd. apply Z.quot_small. unfold dotSteps. lia. }
  assert (Hmp0 : motor_pulses s0 = motor_pulses s).
  { unfold motor_pulses. rewrite Htr, !count_events_cons, count_events_app. cbn [is_step].
    destruct Hpre as [-> | [-> | ->]]; reflexivity. }
  assert (Hdot0 : dots s0 = dots s).
  { unfold dots. rewrite Htr, !count_events_cons, count_events_app. cbn [is_dot].
    destruct Hpre as [-> | [-> | ->]]; reflexivity. }
  rewrite Hsteps in Hst. rewrite <- Hadc in Hcalm, Hlen.
  (* the turns without a firing *)
  destruct (quiet_turns n s0 Hst Hon Hcs) as
    (s1 & Hrun1 & Hcs1 & (P1 & P2 & P3 & P4 & P5 & P6) & Hcalm1 & Hlen1 & Hmp1 & Hdot1);
    [unfold INT_MAX; lia | exact Hcalm | lia |].
  (* the turn whose firings fall late, when there is one *)
  assert (Hmid : exists s2,
            turns late 0 s1 = Done (Again 0) s2
            /\ currentStep s2 = Z.of_nat (ticks_total late)
            /\ same_plan s1 s2
            /\ calm (adc_in s2) = true
            /\ (2 <= length (adc_in s2))%nat
            /\ motor_pulses s2 = (motor_pulses s1 + ticks_total late)%nat
            /\ dots s2 = dots s1).
  { destruct (late_only_cases late Hlate) as [-> | (e0 & -> & Hp0 & Hc0)].
    - exists s1. cbn [turns ticks_total fold_right Z.of_nat length] in *.
      split; [reflexivity|]. split; [exact Hcs1|].
      split; [unfold same_plan; repeat split; reflexivity|].
      split; [exact Hcalm1|]. split; [lia|]. split; [lia | reflexivity].
    - cbn [length] in Hlen.
      destruct (adc_in s1) as [|a1 [|a2 [|a3 [|a4 rest]]]] eqn:Hadc1;
        cbn [length] in Hlen1; try lia.
      destruct (calm_cons2 _ _ _ Hcalm1) as (Ha1 & Ha2 & Hrest).
      cbn [ticks_total fold_right] in Hk |- *. unfold ticks_in in Hk |- *.
      rewrite Hp0, Hc0 in Hk |- *.
      destruct (quiet_turn e0 s1 a1 a2 (a3 :: a4 :: rest)) as
        (s2 & Hit & Hadc2 & Hcs2 & Hsame & Hmp2 & Hdot2); try assumption; try congruence.
      + rewrite P2, Htot. lia.
      + rewrite P2, Htot. unfold INT_MAX. lia.
      + exists s2. cbn [turns]. rewrite (bind_Done _ _ _ _ _ Hit).
        split; [reflexivity|]. split; [rewrite Hcs2; f_equal; lia|].
        split; [exact Hsame|].
        split; [destruct Hadc2 as [-> | ->]; [|exact Hrest];
                cbn [calm forallb]; apply andb_true_intro;
                split; [apply negb_true_iff, Z.eqb_neq, Ha2 | exact Hrest]|].
        split; [destruct Hadc2 as [-> | ->]; cbn [length]; lia|].
        split; [rewrite Hmp2; lia | exact Hdot2]. }
  destruct Hmid as (s2 & Hrun2 & Hcs2 & (Q1 & Q2 & Q3 & Q4 & Q5 & Q6) & Hcalm2 & Hlen2 & Hmp2 & Hdot2).
  (* the turn that sees the step *)
  destruct (adc_in s2) as [|a1 [|a2 rest]] eqn:Hadc2; cbn [length] in Hlen2; try lia.
  destruct (calm_cons2 _ _ _ Hcalm2) as (Ha1 & Ha2 & _).
  destruct (seen_turn_divides e 0 s2 a1 a2 rest) as (s' & Hit & R1 & R2 & R3 & R4);
    try congruence.
  { rewrite Hcs2, bump_exact; unfold INT_MIN, INT_MAX; lia. }
  exists s'. split.
  - rewrite (motionControl_eq _ _ _ Hp). unfold supervise.
    unfold bind at 1. rewrite turns_app, Hrun1, turns_app, Hrun2.
    cbn [turns]. unfold bind at 1. rewrite Hit. reflexivity.
  - split; [exact R1|]. split; [rewrite R3, Hmp2, Hmp1, Hmp0; lia|].
    split; [congruence | exact R2].
Qed.

Lemma short_distance_divides_by_zero_witness :
  exists s',
    motionControl (repeat no_tick 2 ++ [tick_at_end] ++ no_tick :: [tick_in_poll])
      (committed 3 10 0 (idle_pad 8)) = Undefined s'
    /\ dotDistance s' = 0
    /\ motor_pulses s'
       = (motor_pulses (committed 3 10 0 (idle_pad 8)) + ticks_total [tick_at_end]
          + (t_poll no_tick + t_changed no_tick + t_latch no_tick + t_dot no_tick))%nat
    /\ dots s' = dots (committed 3 10 0 (idle_pad 8))
    /\ timer_on s' = true.
Proof.
  apply (short_distance_divides_by_zero 2 [tick_at_end] no_tick [tick_in_poll]
           (committed 3 10 0 (idle_pad 8))).
  - reflexivity.
  - vm_compute. split; intros H; discriminate H.
  - reflexivity.
  - vm_compute. lia.
  - reflexivity.
  - vm_compute. reflexivity.
  - vm_compute. lia.
  - vm_compute. intros H. discriminate H.
Defined.

(** X20.  With distance 0 in video mode the plan has no motor step to make
    and its [pulseDelay] is a quotient by zero, with no finite value,
    whatever the duration.  If neither of the two samples the first poll may
    take reads Select and the timer does not fire in the first turn of the
    loop, the run is left by the loop condition at once: no pulse given, the
    timer stopped. *)
Theorem zero_distance_run_ends_at_once (sch : list ticks) (s : state)
    (a1 a2 : Z) (rest : list Z) :
  currentStepsInt s = 0 ->
  currentDistanceInt s = 0 ->
  adc_in s = a1 :: a2 :: rest ->
  button_of_adc a1 <> btnSel ->
  button_of_adc a2 <> btnSel ->
  exists s',
    motionControl (no_tick :: sch) s = Done Completed s'
    /\ totalMotorSteps s' = 0
    /\ pulseDelay s' = None
    /\ motor_pulses s' = motor_pulses s
    /\ timer_on s' = false.
Proof.
  intros Hsteps Hdist Hadc0 Ha1 Ha2.
  destruct (plan_eq s)
    as (s0 & pre & Hp & Hcs & Htot & Hpd & Hiv & Hdd & Hst & Hon & Hadc & Htr & Hpre).
  rewrite Hdist in Htot, Hpd. change (0 * 5) with 0 in Htot, Hpd.
  change (pulse_delay (currentDurationInt s) 0) with (@None Q) in Hpd.
  assert (Hmp0 : count_events is_step (trace s0) = count_events is_step (trace s)).
  { rewrite Htr, !count_events_cons, count_events_app. cbn [is_step].
    destruct Hpre as [-> | [-> | ->]]; reflexivity. }
  rewrite Hadc0 in Hadc. rewrite Hsteps in Hst.
  assert (Hit : exists s',
            iteration no_tick 0 s0 = Done (Leave Completed) s'
            /\ totalMotorSteps s' = 0 /\ pulseDelay s' = None
            /\ count_events is_step (trace s') = count_events is_step (trace s0)).
  { enter_turn Hadc Ha1 Ha2.
    all: cbn [t_poll t_changed t_latch t_dot t_while no_tick].
    all: rewrite bind_gets; fields; rewrite Hst.
    all: change (0 <? 0) with false; cbv iota.
    all: rewrite !bind_ret.
    all: rewrite bind_interrupts by (fields; assumption).
    all: rewrite bind_gets; fields; rewrite ?bump_0, Hcs.
    all: change (negb (0 =? 0)) with false; cbv iota.
    all: run_turn.
    all: rewrite ?bump_0, ?Hcs, ?Htot; change (0 <? 0) with false; cbv iota.
    all: eexists; (split; [reflexivity|]); fields.
    all: split; [exact Htot|]; split; [exact Hpd|].
    all: repeat rewrite ?count_events_app, ?count_events_cons.
    all: cbn [pulses is_step count_events List.filter length]; lia. }
  destruct Hit as (s' & Hit & P1 & P2 & P3).
  exists (set_timer_on false (set_trace (TimerStop :: trace s') s')). split.
  - rewrite (motionControl_eq _ _ _ Hp). unfold supervise. cbn [turns].
    rewrite bind_assoc, (bind_Done _ _ _ _ _ Hit). reflexivity.
  - fields. split; [exact P1|]. split; [exact P2|]. split; [|reflexivity].
    unfold motor_pulses. fields. rewrite count_events_cons, P3, Hmp0. reflexivity.
Qed.

Lemma zero_distance_run_ends_at_once_witness :
  exists s',
    motionControl (no_tick :: [tick_in_poll]) (committed 0 10 0 [1023; 1023])
      = Done Completed s'
    /\ totalMotorSteps s' = 0
    /\ pulseDelay s' = None
    /\ motor_pulses s' = motor_pulses (committed 0 10 0 [1023; 1023])
    /\ timer_on s' = false.
Proof.
  apply (zero_distance_run_ends_at_once [tick_in_poll] (committed 0 10 0 [1023; 1023])
           1023 1023 []).
  - reflexivity.
  - reflexivity.
  - reflexivity.
  - vm_compute. intros H. discriminate H.
  - vm_compute. intros H. discriminate H.
Defined.

(** ** Counting the progress markers *)

Lemma div_step (c dd : Z) :
  0 <= c -> 0 < dd ->
  (c + 1) / dd = c / dd + (if Z.rem (c + 1) dd =? 0 then 1 else 0).
Proof.
  intros Hc Hdd. rewrite Z.rem_mod_nonneg by lia.
  pose proof (Z.div_mod c dd ltac:(lia)) as E.
  pose proof (Z.mod_pos_bound c dd Hdd) as Hr.
  destruct (Z.eq_dec (c mod dd + 1) dd) as [Hfull | Hpart].
  - assert (Hm : (c + 1) mod dd = 0)
      by (symmetry; apply (Z.mod_unique _ _ (c / dd + 1)); [lia | nia]).
    rewrite Hm. cbn [Z.eqb].
    symmetry. apply (Z.div_unique _ _ _ 0); [lia | nia].
  - assert (Hm : (c + 1) mod dd = c mod dd + 1)
      by (symmetry; apply (Z.mod_unique _ _ (c / dd)); [lia | nia]).
    rewrite Hm. destruct (Z.eqb_spec (c mod dd + 1) 0); [lia|].
    symmetry. apply (Z.div_unique _ _ _ (c mod dd + 1)); [lia | nia].
Qed.

(** One turn in video mode when the firing, if any, falls in the poll and
    [prevStep] holds the count of the turn before: the count seen is tested
    for a marker once. *)
Lemma iteration_in_poll (t : nat) (s : state) (a1 a2 : Z) (rest : list Z) :
  (t <= 1)%nat ->
  currentStepsInt s = 0 ->
  0 < dotDistance s ->
  timer_on s = true ->
  adc_in s = a1 :: a2 :: rest ->
  button_of_adc a1 <> btnSel ->
  button_of_adc a2 <> btnSel ->
  0 <= currentStep s < totalMotorSteps s ->
  totalMotorSteps s <= INT_MAX ->
  exists c s',
    iteration (mkTicks t 0 0 0 0) (currentStep s) s = Done c s'
    /\ (adc_in s' = a2 :: rest \/ adc_in s' = rest)
    /\ currentStep s' = currentStep s + Z.of_nat t
    /\ same_plan s s'
    /\ Z.of_nat (dots s')
       = Z.of_nat (dots s) + (currentStep s' / dotDistance s - currentStep s / dotDistance s)
    /\ match c with
       | Again p' => p' = currentStep s' /\ currentStep s' < totalMotorSteps s
       | Leave o => o = Completed /\ totalMotorSteps s <= currentStep s'
       end.
Proof.
  intros Ht Hsteps Hdd Hon Hadc Ha1 Ha2 Hcs Hmax.
  assert (Hdd' : dotDistance s <> 0) by lia.
  pose proof (div_step (currentStep s) (dotDistance s) ltac:(lia) Hdd) as Hdiv.
  destruct t as [|[|t]]; [| |lia].
  - enter_turn Hadc Ha1 Ha2.
    all: cbn [t_poll t_changed t_latch t_dot t_while].
    all: rewrite bind_gets; fields; rewrite Hsteps.
    all: change (0 <? 0) with false; cbv iota.
    all: rewrite !bind_ret.
    all: rewrite bind_interrupts by (fields; assumption).
    all: rewrite bind_gets; fields; rewrite ?bump_0, Z.eqb_refl.
    all: cbn [negb].
    all: run_turn.
    all: rewrite ?bump_0.
    all: destruct (Z.ltb_spec (currentStep s) (totalMotorSteps s)); [|lia].
    all: eexists; eexists; (split; [reflexivity|]); fields.
    all: rewrite ?bump_0.
    all: split; [auto|].
    all: split; [cbn [Z.of_nat]; lia|].
    all: split; [unfold same_plan; fields; repeat split; reflexivity|].
    all: unfold dots; fields.
    all: repeat rewrite ?count_events_app, ?count_events_cons.
    all: cbn [pulses is_dot count_events List.filter length].
    all: split; [lia | split; [reflexivity | assumption]].
  - assert (Hb : bump 1 (currentStep s) = currentStep s + 1)
      by (apply bump_1; unfold INT_MIN, INT_MAX in *; lia).
    assert (Hne : (currentStep s + 1 =? currentStep s) = false) by (apply Z.eqb_neq; lia).
    enter_turn Hadc Ha1 Ha2.
    all: cbn [t_poll t_changed t_latch t_dot t_while].
    all: rewrite bind_gets; fields; rewrite Hsteps.
    all: change (0 <? 0) with false; cbv iota.
    all: rewrite !bind_ret.
    all: rewrite bind_interrupts by (fields; assumption).
    all: rewrite bind_gets; fields; rewrite ?bump_0, Hb, Hne.
    all: cbn [negb].
    all: repeat first [ rewrite bind_assoc | rewrite bind_gets
                      | rewrite bind_interrupts by (fields; assumption)
                      | rewrite bind_c_rem by (fields; assumption) ]; fields.
    all: rewrite ?bump_0, ?Hb.
    all: destruct (Z.rem (currentStep s + 1) (dotDistance s) =? 0).
    all: run_turn.
    all: rewrite ?bump_0, ?Hb.
    all: destruct (Z.ltb_spec (currentStep s + 1) (totalMotorSteps s)).
    all: eexists; eexists; (split; [reflexivity|]); fields.
    all: rewrite ?bump_0, ?Hb.
    all: split; [auto|].
    all: split; [cbn [Z.of_nat]; lia|].
    all: split; [unfold same_plan; fields; repeat split; reflexivity|].
    all: unfold dots; fields.
    all: repeat rewrite ?count_events_app, ?count_events_cons.
    all: cbn [pulses is_dot count_events List.filter length String.eqb Ascii.eqb Bool.eqb].
    all: unfold HIGH, LOW; cbv iota.
    all: split; [lia | split; [reflexivity | assumption]].
Qed.

Lemma in_poll_cons (e : ticks) (sch : list ticks) :
  in_poll (e :: sch) = true ->
  (exists t, (t <= 1)%nat /\ e = mkTicks t 0 0 0 0) /\ in_poll sch = true.
Proof.
  cbn [in_poll forallb]. intros H. apply andb_prop in H as [He H].
  apply andb_prop in He as [H1 H2]. apply Nat.leb_le in H1. apply Nat.eqb_eq in H2.
  split; [|exact H]. destruct e as [t b c d f]. cbn [t_poll t_changed t_latch t_dot t_while] in *.
  exists t. split; [exact H1|]. f_equal; lia.
Qed.

Lemma turns_in_poll (sch : list ticks) :
  forall s : state,
    in_poll sch = true ->
    currentStepsInt s = 0 ->
    0 < dotDistance s ->
    timer_on s = true ->
    calm (adc_in s) = true ->
    (2 * length sch <= length (adc_in s))%nat ->
    0 <= currentStep s < totalMotorSteps s ->
    totalMotorSteps s <= INT_MAX ->
    totalMotorSteps s <= currentStep s + Z.of_nat (ticks_total sch) ->
    exists s',
      turns sch (currentStep s) s = Done (Leave Completed) s'
      /\ currentStep s' = totalMotorSteps s
      /\ Z.of_nat (dots s')
         = Z.of_nat (dots s)
           + (totalMotorSteps s / dotDistance s - currentStep s / dotDistance s).
Proof.
  induction sch as [|e sch IH]; intros s Hin Hsteps Hdd Hon Hcalm Hlen Hcs Hmax Htot.
  - cbn in Htot. lia.
  - cbn [length] in Hlen.
    destruct (adc_in s) as [|a1 [|a2 rest]] eqn:Hadc; cbn [length] in Hlen; try lia.
    destruct (calm_cons2 _ _ _ Hcalm) as (Ha1 & Ha2 & Hrest).
    destruct (in_poll_cons _ _ Hin) as ((t & Ht & ->) & Hin').
    cbn [ticks_total fold_right] in Htot. fold (ticks_total sch) in Htot.
    unfold ticks_in in Htot. cbn [t_poll t_changed t_latch t_dot t_while] in Htot.
    destruct (iteration_in_poll t s a1 a2 rest Ht Hsteps Hdd Hon Hadc Ha1 Ha2 Hcs Hmax)
      as (c & s1 & Hit & Hadc1 & Hcs1 & (P1 & P2 & P3 & P4 & P5 & P6) & Hdots & Hc).
    cbn [turns]. rewrite (bind_Done _ _ _ _ _ Hit).
    destruct c as [p'|o].
    + destruct Hc as [-> Hlt].
      destruct (IH s1) as (s' & Hrun & Hfin & Hdots'); try congruence.
      * destruct Hadc1 as [-> | ->]; [|exact Hrest].
        cbn [calm forallb]. apply andb_true_intro.
        split; [apply negb_true_iff, Z.eqb_neq, Ha2 | exact Hrest].
      * destruct Hadc1 as [-> | ->]; cbn [length]; lia.
      * rewrite P2. lia.
      * rewrite P2. lia.
      * exists s'. split; [exact Hrun|]. split; [congruence|].
        rewrite Hdots', Hdots, P2, P5. lia.
    + destruct Hc as [-> Hge]. exists s1. split; [reflexivity|].
      assert (Hend : currentStep s1 = totalMotorSteps s) by lia.
      split; [exact Hend|]. rewrite Hdots, Hend. reflexivity.
Qed.

Lemma markers_at_least_16 (T : Z) : 16 <= T -> 16 <= T / (T / 16).
Proof.
  intros HT.
  assert (Hq : 0 < T / 16) by (apply Z.div_str_pos; lia).
  apply Z.div_le_lower_bound; [exact Hq|].
  pose proof (Z.mul_div_le T 16 ltac:(lia)). lia.
Qed.

Lemma markers_exactly_16 (T : Z) : 256 <= T -> T / (T / 16) = 16.
Proof.
  intros HT.
  pose proof (Z.div_mod T 16 ltac:(lia)) as E.
  pose proof (Z.mod_pos_bound T 16 ltac:(lia)) as Hr.
  assert (Hq : 16 <= T / 16) by (apply Z.div_le_lower_bound; lia).
  symmetry. apply (Z.div_unique _ _ _ (T mod 16)); [lia | lia].
Qed.

(** X21.  In video mode over 4 mm or more, a full run in which the loop sees
    every count - the keypad left alone, each timer firing falling in a
    button poll - prints [totalMotorSteps / dotDistance] progress markers
    with [dotDistance = totalMotorSteps / 16]: never fewer than 16, and
    exactly 16 from 52 mm on. *)
Theorem video_run_marker_count (sch : list ticks) (s : state) :
  currentStepsInt s = 0 ->
  4 <= currentDistanceInt s <= MAX_TRAVEL_DISTANCE ->
  calm (adc_in s) = true ->
  (2 * length sch <= length (adc_in s))%nat ->
  in_poll sch = true ->
  currentDistanceInt s * 5 <= Z.of_nat (ticks_total sch) ->
  exists s',
    motionControl sch s = Done Completed s'
    /\ Z.of_nat (dots s')
       = Z.of_nat (dots s)
         + currentDistanceInt s * 5 / (currentDistanceInt s * 5 / dotSteps)
    /\ dotSteps <= currentDistanceInt s * 5 / (currentDistanceInt s * 5 / dotSteps)
    /\ (52 <= currentDistanceInt s ->
        currentDistanceInt s * 5 / (currentDistanceInt s * 5 / dotSteps) = dotSteps).
Proof.
  unfold MAX_TRAVEL_DISTANCE. intros Hsteps Hdist Hcalm Hlen Hin Hticks.
  destruct (plan_eq s)
    as (s0 & pre & Hp & Hcs & Htot & Hpd & _ & Hdd & Hst & Hon & Hadc & Htr & Hpre).
  assert (Hpre0 : count_events is_dot pre = 0%nat)
    by (destruct Hpre as [-> | [-> | ->]]; reflexivity).
  rewrite Z.quot_div_nonneg in Hdd by (unfold dotSteps; lia).
  assert (Hq : 0 < currentDistanceInt s * 5 / dotSteps)
    by (apply Z.div_str_pos; unfold dotSteps; lia).
  pose proof (turns_in_poll sch s0) as Hrun. rewrite Hcs in Hrun.
  destruct Hrun as (s1 & Hrun & Hfin & Hdots); try congruence.
  { rewrite Htot. lia. }
  { rewrite Htot. unfold INT_MAX. lia. }
  { rewrite Htot. lia. }
  exists (set_timer_on false (set_trace (TimerStop :: trace s1) s1)).
  split.
  { rewrite (motionControl_eq _ _ _ Hp). unfold supervise.
    rewrite (bind_Done _ _ _ _ _ Hrun). reflexivity. }
  split.
  { unfold dots in *. fields.
    change (count_events is_dot (TimerStop :: trace s1))
      with (count_events is_dot (trace s1)).
    rewrite Hdots, Htot, Hdd, Htr.
    rewrite !count_events_cons, count_events_app, Hpre0. cbn [is_dot].
    rewrite Z.div_0_l by lia. lia. }
  unfold dotSteps in *.
  split; [apply markers_at_least_16; lia|].
  intros H52. apply markers_exactly_16. lia.
Qed.

Lemma video_run_marker_count_witness :
  exists s',
    motionControl (paced 35) (short_start (idle_pad 210)) = Done Completed s'
    /\ Z.of_nat (dots s')
       = Z.of_nat (dots (short_start (idle_pad 210)))
         + currentDistanceInt (short_start (idle_pad 210)) * 5
           / (currentDistanceInt (short_start (idle_pad 210)) * 5 / dotSteps)
    /\ dotSteps <= currentDistanceInt (short_start (idle_pad 210)) * 5
                   / (currentDistanceInt (short_start (idle_pad 210)) * 5 / dotSteps)
    /\ (52 <= currentDistanceInt (short_start (idle_pad 210)) ->
        currentDistanceInt (short_start (idle_pad 210)) * 5
        / (currentDistanceInt (short_start (idle_pad 210)) * 5 / dotSteps) = dotSteps).
Proof.
  apply (video_run_marker_count (paced 35) (short_start (idle_pad 210))).
  - reflexivity.
  - vm_compute. split; intros H; discriminate H.
  - vm_compute. reflexivity.
  - apply Nat.leb_le. vm_compute. reflexivity.
  - vm_compute. reflexivity.
  - vm_compute. intros H. discriminate H.
Defined.

(** * The menu *)

(** ** What the layers below the menu leave alone

    A property of the [store] and the cursor is kept by every function
    that writes neither. *)

Section Frame.
Context (Inv : state -> Prop).
Context (Inv_frame : forall s s', store s' = store s -> Inv s -> Inv s').

Lemma frame_modify (f : state -> state) :
  (forall s, store (f s) = store s) -> keeps Inv (modify f).
Proof. intros H s Hs. cbn. apply (Inv_frame s); auto. Qed.

Lemma frame_emit (e : event) : keeps Inv (emit e).
Proof. apply frame_modify; reflexivity. Qed.

Lemma frame_readLcdButtons : keeps Inv readLcdButtons.
Proof.
  intros s Hs. rewrite readLcdButtons_eq.
  destruct (adc_in s) as [|a1 rest]; [exact Hs|].
  destruct (button_of_adc a1 =? prevButton s).
  { apply (Inv_frame s); [reflexivity | exact Hs]. }
  cbv zeta. destruct rest as [|a2 rest];
    (apply (Inv_frame s); [reflexivity | exact Hs]).
Qed.

Lemma frame_getKeyClick_loop (fuel : nat) :
  forall q btnVal, keeps Inv (getKeyClick_loop fuel q btnVal).
Proof.
  induction fuel as [|fuel IH]; intros q btnVal; [apply keeps_starved|].
  destruct q; cbn [getKeyClick_loop]; unfold delay;
    repeat first
      [ apply keeps_ret | apply frame_emit | apply frame_readLcdButtons | apply IH
      | apply keeps_bind; [|intros ?]
      | match goal with |- keeps _ (if ?c then _ else _) => destruct c end ].
Qed.

Lemma frame_getKeyClick : keeps Inv getKeyClick.
Proof. intros s. apply frame_getKeyClick_loop. Qed.

Lemma frame_print_line2 (k : nat) : forall i, keeps Inv (print_line2 k i).
Proof.
  induction k as [|k IH]; intros i; cbn [print_line2]; [apply keeps_ret|].
  apply keeps_bind; [apply frame_emit | intros _].
  apply keeps_bind; [apply keeps_gets | intros line].
  apply keeps_bind; [apply frame_emit | intros _]. apply IH.
Qed.

Lemma frame_supervise (sch : list ticks) (p : Z) : keeps Inv (supervise sch p).
Proof.
  apply stable_supervise.
  - intros e s _ _ Hs. apply (Inv_frame s); [reflexivity | exact Hs].
  - intros n s _ Hs. apply (Inv_frame s); [reflexivity | exact Hs].
  - intros a s Hs. apply (Inv_frame s); [reflexivity | exact Hs].
  - intros b s Hs. apply (Inv_frame s); [reflexivity | exact Hs].
  - intros s Hs. rewrite shutter_eq.
    apply (Inv_frame s); [reflexivity | exact Hs].
Qed.

Lemma frame_motionControl (sch : list ticks) : keeps Inv (motionControl sch).
Proof.
  unfold motionControl, plan, MsTimer2_set, MsTimer2_start, MsTimer2_stop, digitalWrite.
  repeat first
    [ apply keeps_ret | apply keeps_gets | apply keeps_c_rem | apply frame_emit
    | apply frame_supervise
    | apply frame_modify; reflexivity
    | apply keeps_bind; [|intros ?]
    | match goal with |- keeps _ (if ?c then _ else _) => destruct c end
    | match goal with |- keeps _ (match ?c with _ => _ end) => destruct c end ].
Qed.
End Frame.

(** ** What the editors keep of the store *)

Lemma store_ok_at_frame (C : Z -> Prop) (s s' : state) :
  store s' = store s -> store_ok_at C s -> store_ok_at C s'.
Proof.
  unfold store. intros E Hs. injection E as E1 E2 E3 E4 E5 E6 E7 E8 E9.
  unfold store_ok_at, store_ok in *.
  rewrite E1, E2, E3, E4, E5, E6, E7, E8, E9. exact Hs.
Qed.

Lemma store_ok_at_line (C : Z -> Prop) (s : state) (line : list Z) :
  store_ok_at C s -> digits_ok 6 line -> store_ok_at C (set_LCDLine2Value line s).
Proof.
  unfold store_ok_at, store_ok. cbn. intros Hs Hl. tauto.
Qed.

Lemma copy_digits_digits (k : nat) :
  forall (i : Z) (from to : list Z),
    Forall is_digit from -> Forall is_digit to -> Forall is_digit (copy_digits k i from to).
Proof.
  induction k as [|k IH]; intros i from to Hf Ht; cbn [copy_digits]; [exact Ht|].
  apply IH; [exact Hf|]. unfold array_set.
  apply Forall_insert; [exact Ht | apply array_get_digit, Hf].
Qed.

Lemma writeToLCDLine2_keeps (C : Z -> Prop) (n : nat) (from : list Z) (k : Z) :
  digits_ok n from -> keeps (store_ok_at C) (writeToLCDLine2 from k).
Proof.
  intros (_ & Hf) s Hs. cbn. apply store_ok_at_line; [exact Hs|].
  destruct Hs as ((_ & _ & _ & _ & _ & _ & _ & Hl & Hd) & _).
  split; [rewrite copy_digits_length; exact Hl | apply copy_digits_digits; assumption].
Qed.

Lemma refresh_line2_keeps (C : Z -> Prop) (item : Z) :
  keeps (store_ok_at C) (refresh_line2 item).
Proof.
  pose proof (store_ok_at_frame C) as F.
  unfold refresh_line2.
  destruct (item =? MENU_ITEM_DISTANCE); [|destruct (item =? MENU_ITEM_DURATION);
    [|destruct (item =? MENU_ITEM_STEPS); [|destruct (item =? MENU_ITEM_DIRECTION);
      [|destruct (item =? MENU_ITEM_GO)]]]].
  - apply keeps_bind_gets. intros s0 Hs0.
    apply keeps_bind; [apply (writeToLCDLine2_keeps C 4), Hs0 | intros _].
    apply keeps_bind; [apply frame_print_line2, F | intros _].
    apply keeps_bind; [apply frame_emit, F | intros _]. apply frame_emit, F.
  - apply keeps_bind_gets. intros s0 Hs0.
    apply keeps_bind; [apply (writeToLCDLine2_keeps C 6), Hs0 | intros _].
    apply keeps_bind; [apply frame_print_line2, F | intros _].
    apply keeps_bind; [apply frame_emit, F | intros _]. apply frame_emit, F.
  - apply keeps_bind_gets. intros s0 Hs0.
    apply keeps_bind; [apply (writeToLCDLine2_keeps C 4), Hs0 | intros _].
    apply frame_print_line2, F.
  - apply keeps_bind; [apply keeps_gets | intros d].
    destruct (d =? 0); apply frame_emit, F.
  - apply frame_emit, F.
  - apply keeps_ret.
Qed.

Lemma editing_only_store (s s' : state) :
  editing_only s s' ->
  travelDir s' = travelDir s
  /\ currentDistanceInt s' = currentDistanceInt s
  /\ currentDurationInt s' = currentDurationInt s
  /\ currentStepsInt s' = currentStepsInt s
  /\ currentDistance s' = currentDistance s
  /\ currentDuration s' = currentDuration s
  /\ currentSteps s' = currentSteps s.
Proof.
  unfold editing_only. intros E. rewrite E. cbn. tauto.
Qed.

Lemma editing_ok_after (n : Z) (s s' : state) :
  editing_ok n s ->
  editing_only s s' ->
  0 <= currentCursorPos s' < n ->
  Forall is_digit (LCDLine2Value s') ->
  length (LCDLine2Value s') = length (LCDLine2Value s) ->
  editing_ok n s'.
Proof.
  intros ((H1 & H2 & H3 & H4 & H5 & H6 & H7 & Hl & _) & _) He Hc Hd Hlen.
  destruct (editing_only_store _ _ He) as (E1 & E2 & E3 & E4 & E5 & E6 & E7).
  unfold editing_ok, store_ok_at, store_ok.
  rewrite E1, E2, E3, E4, E5, E6, E7.
  split; [|exact Hc]. repeat (split; [assumption|]).
  split; [congruence | exact Hd].
Qed.

Lemma getUserInputValue_switch_keeps (n btnVal : Z) :
  keeps (editing_ok n) (getUserInputValue_switch n btnVal).
Proof.
  intros s Hs. pose proof Hs as ((_ & _ & _ & _ & _ & _ & _ & _ & Hd) & Hc).
  destruct (getUserInputValue_switch_post n btnVal s Hc Hd)
    as (leave & s' & -> & Hc' & Hd' & Hlen' & He').
  cbn [final]. eapply editing_ok_after; eassumption.
Qed.

Lemma getUserInputValue_loop_keeps (fuel : nat) (n : Z) :
  keeps (editing_ok n) (getUserInputValue_loop fuel n).
Proof.
  pose proof (store_ok_at_frame (fun c => 0 <= c < n)) as F.
  induction fuel as [|fuel IH]; [apply keeps_starved|].
  cbn [getUserInputValue_loop].
  apply keeps_bind; [apply frame_getKeyClick, F | intros b].
  apply keeps_bind; [apply getUserInputValue_switch_keeps | intros leave].
  destruct leave; [apply keeps_ret|].
  apply keeps_bind; [apply keeps_gets | intros pos].
  apply keeps_bind; [apply frame_emit, F | intros _]. exact IH.
Qed.

Lemma getUserInputValue_keeps (n : Z) : keeps (editing_ok n) (getUserInputValue n).
Proof.
  pose proof (store_ok_at_frame (fun c => 0 <= c < n)) as F.
  unfold getUserInputValue.
  apply keeps_bind; [apply keeps_gets | intros pos].
  apply keeps_bind; [apply frame_emit, F | intros _].
  intros s. apply getUserInputValue_loop_keeps.
Qed.

(** The digits a commit reads back from line 2. *)
Lemma committed_digits (n : nat) (line to : list Z) :
  digits_ok 6 line -> digits_ok n to -> (n <= 6)%nat ->
  digits_ok n (copy_digits n 0 line to).
Proof.
  intros (Hl & Hd) (Ht & Hdt) Hn.
  split; [rewrite copy_digits_length; exact Ht | apply copy_digits_digits; assumption].
Qed.

Lemma getDistance_keeps : keeps (editing_ok 4) getDistance.
Proof.
  unfold getDistance.
  apply keeps_bind; [apply getUserInputValue_keeps | intros _].
  intros s Hs. unfold readFromLCDLine2.
  repeat first [rewrite bind_gets | rewrite bind_modify | rewrite bind_assoc | rewrite bind_ret].
  destruct Hs as ((H1 & H2 & H3 & H4 & H5 & H6 & H7 & H8) & Hc).
  pose proof (committed_digits 4 _ _ H8 H5 ltac:(lia)) as Hd.
  change (Z.to_nat NUM_DISTANCE_DIGITS) with 4%nat.
  set (digits := copy_digits 4 0 (LCDLine2Value s) (currentDistance s)) in *. clearbody digits.
  destruct (decimal_4 digits (proj2 Hd) (proj1 Hd)) as (Hv & Hr).
  change NUM_DISTANCE_DIGITS with 4. rewrite Hv.
  cbn [currentDistanceInt set_currentDistanceInt set_currentDistance].
  unfold MAX_TRAVEL_DISTANCE in *.
  destruct (Z.ltb_spec 1300 (decimal digits)); cbn;
    unfold editing_ok, store_ok_at, store_ok, MAX_TRAVEL_DISTANCE; cbn;
    (split; [|exact Hc]); repeat (split; [first [assumption | lia]|]); assumption.
Qed.

Lemma getSteps_keeps : keeps (editing_ok 4) getSteps.
Proof.
  unfold getSteps.
  apply keeps_bind; [apply getUserInputValue_keeps | intros _].
  intros s Hs. unfold readFromLCDLine2.
  repeat first [rewrite bind_gets | rewrite bind_modify | rewrite bind_assoc | rewrite bind_ret].
  destruct Hs as ((H1 & H2 & H3 & H4 & H5 & H6 & H7 & H8) & Hc).
  pose proof (committed_digits 4 _ _ H8 H7 ltac:(lia)) as Hd.
  change (Z.to_nat NUM_STEPS_DIGITS) with 4%nat.
  set (digits := copy_digits 4 0 (LCDLine2Value s) (currentSteps s)) in *. clearbody digits.
  destruct (decimal_4 digits (proj2 Hd) (proj1 Hd)) as (Hv & Hr).
  change NUM_STEPS_DIGITS with 4. rewrite Hv. cbn.
  unfold editing_ok, store_ok_at, store_ok; cbn.
  split; [|exact Hc]. repeat (split; [first [assumption | lia]|]). assumption.
Qed.

Lemma getDuration_keeps : keeps (editing_ok 6) getDuration.
Proof.
  unfold getDuration.
  apply keeps_bind; [apply getUserInputValue_keeps | intros _].
  intros s Hs. unfold readFromLCDLine2.
  repeat first [rewrite bind_gets | rewrite bind_modify | rewrite bind_assoc | rewrite bind_ret].
  destruct Hs as ((H1 & H2 & H3 & H4 & H5 & H6 & H7 & H8) & Hc).
  pose proof (committed_digits 6 _ _ H8 H6 ltac:(lia)) as Hd.
  change (Z.to_nat NUM_DURATION_DIGITS) with 6%nat.
  set (digits := copy_digits 6 0 (LCDLine2Value s) (currentDuration s)) in *. clearbody digits.
  assert (Hr : in_int (getIntFromDigits digits NUM_DURATION_DIGITS)).
  { unfold getIntFromDigits. apply getIntFromDigits_loop_range.
    unfold in_int, INT_MIN, INT_MAX. lia. }
  set (v := getIntFromDigits digits NUM_DURATION_DIGITS) in *. clearbody v.
  cbn. unfold editing_ok, store_ok_at, store_ok; cbn.
  split; [|exact Hc]. repeat (split; [first [assumption | lia]|]). assumption.
Qed.

(** ** The menu functions keep the store *)

Lemma bkeeps_bind {A B} (Inv : board -> Prop) (m : MB A) (k : A -> MB B) :
  bkeeps Inv m -> (forall a, bkeeps Inv (k a)) -> bkeeps Inv (bbind m k).
Proof.
  intros Hm Hk b Hb. unfold bbind. specialize (Hm b Hb).
  destruct (m b) as [a b'| |]; cbn [bfinal] in *; [apply Hk|..]; assumption.
Qed.

Lemma bkeeps_ret {A} (Inv : board -> Prop) (a : A) : bkeeps Inv (bret a).
Proof. intros b Hb. exact Hb. Qed.

Lemma bkeeps_starved {A} (Inv : board -> Prop) : bkeeps Inv (fun b => @BStarved A b).
Proof. intros b Hb. exact Hb. Qed.

Lemma bkeeps_bgets {A} (Inv : board -> Prop) (f : board -> A) : bkeeps Inv (bgets f).
Proof. intros b Hb. exact Hb. Qed.

Lemma bbind_lift_modify {B} (f : state -> state) (k : unit -> MB B) (b : board) :
  bbind (lift (modify f)) k b = k tt (set_core (f (core b)) b).
Proof. reflexivity. Qed.

Section OnBoard.
Context (K : Z -> Prop) (I : state -> Prop).

Lemma bkeeps_lift {A} (m : M A) : keeps I m -> bkeeps (on_board K I) (lift m).
Proof.
  intros H b (Hk & Hi). unfold lift. specialize (H _ Hi).
  destruct (m (core b)); cbn in *; split; assumption.
Qed.

Lemma bkeeps_blink (v : bool) : bkeeps (on_board K I) (bmodify (set_lcd_blink v)).
Proof. intros b Hb. exact Hb. Qed.

Lemma bkeeps_motion (v : Z) : bkeeps (on_board K I) (bmodify (set_motion v)).
Proof. intros b Hb. exact Hb. Qed.

Lemma bkeeps_next_run : bkeeps (on_board K I) next_run.
Proof. intros b Hb. unfold next_run. destruct (runs b); exact Hb. Qed.
End OnBoard.

(** With the menu item known, the code that reads it goes one way. *)
Lemma bkeeps_item {B} (k0 : Z) (I : state -> Prop) (m : Z -> MB B) :
  bkeeps (on_board (eq k0) I) (m k0) ->
  bkeeps (on_board (eq k0) I) (bbind (bgets currentMenuItem) m).
Proof.
  intros H b Hb. unfold bbind, bgets. pose proof Hb as (E & _).
  rewrite <- E. apply H, Hb.
Qed.

Lemma refreshLCD_keeps (K C : Z -> Prop) :
  bkeeps (on_board K (store_ok_at C)) refreshLCD.
Proof.
  pose proof (store_ok_at_frame C) as F.
  unfold refreshLCD.
  apply bkeeps_bind; [apply bkeeps_lift, frame_emit, F | intros _].
  apply bkeeps_bind; [apply bkeeps_lift, frame_emit, F | intros _].
  apply bkeeps_bind; [apply bkeeps_bgets | intros item].
  apply bkeeps_bind; [apply bkeeps_lift, frame_emit, F | intros _].
  apply bkeeps_bind; [apply bkeeps_lift, frame_emit, F | intros _].
  apply bkeeps_bind; [apply bkeeps_lift, refresh_line2_keeps | intros _].
  apply bkeeps_lift. apply keeps_bind; [apply keeps_gets | intros pos].
  apply frame_emit, F.
Qed.

Lemma set_travelDir_keeps (C : Z -> Prop) (d : Z) :
  d = 0 \/ d = 1 -> keeps (store_ok_at C) (modify (set_travelDir d)).
Proof.
  intros Hd. apply keeps_modify. intros s ((_ & H) & Hc).
  split; [split; [exact Hd | exact H] | exact Hc].
Qed.

Lemma getDirection_loop_keeps (K C : Z -> Prop) (fuel : nat) :
  bkeeps (on_board K (store_ok_at C)) (getDirection_loop fuel).
Proof.
  pose proof (store_ok_at_frame C) as F.
  induction fuel as [|fuel IH]; [apply bkeeps_starved|].
  cbn [getDirection_loop].
  apply bkeeps_bind; [apply bkeeps_lift, frame_getKeyClick, F | intros btnVal].
  destruct (btnVal =? btnUp); [|destruct (btnVal =? btnDn); [|destruct (btnVal =? btnSel)]].
  - apply bkeeps_bind; [apply bkeeps_lift, set_travelDir_keeps; right; reflexivity | intros _].
    apply bkeeps_bind; [apply refreshLCD_keeps | intros _]. exact IH.
  - apply bkeeps_bind; [apply bkeeps_lift, set_travelDir_keeps; left; reflexivity | intros _].
    apply bkeeps_bind; [apply refreshLCD_keeps | intros _]. exact IH.
  - apply bkeeps_ret.
  - apply bkeeps_bind; [apply refreshLCD_keeps | intros _]. exact IH.
Qed.

Lemma getDirection_keeps (K C : Z -> Prop) :
  bkeeps (on_board K (store_ok_at C)) getDirection.
Proof. intros b. apply getDirection_loop_keeps. Qed.

Lemma getGo_keeps (K C : Z -> Prop) : bkeeps (on_board K (store_ok_at C)) getGo.
Proof.
  pose proof (store_ok_at_frame C) as F.
  unfold getGo.
  apply bkeeps_bind; [apply bkeeps_lift, frame_emit, F | intros _].
  apply bkeeps_bind; [apply bkeeps_lift, frame_emit, F | intros _].
  apply bkeeps_bind; [apply bkeeps_lift, frame_emit, F | intros _].
  apply bkeeps_bind; [apply bkeeps_motion | intros _].
  apply bkeeps_bind; [apply bkeeps_next_run | intros sch].
  apply bkeeps_bind; [apply bkeeps_lift, frame_motionControl, F | intros _].
  apply bkeeps_lift. unfold delay. apply frame_emit, F.
Qed.

(** A visit to a menu item: the item stays, the store stays valid, and the
    cursor stays on the field of the item ([n] digits wide). *)
Lemma processSecondaryLevelMenu_session (k n : Z) (b : board) :
  (k = 0 /\ n = 4) \/ (k = 1 /\ n = 6) \/ (k = 2 /\ n = 4) \/ (k = 3 /\ n = 1) \/ (k = 4 /\ n = 1) ->
  currentMenuItem b = k ->
  store_ok (core b) ->
  on_board (eq k) (editing_ok n) (bfinal (processSecondaryLevelMenu b)).
Proof.
  intros Hkn Hk Hs. unfold processSecondaryLevelMenu. rewrite bbind_lift_modify.
  match goal with |- on_board _ _ (bfinal (?rest ?b1)) =>
    assert (R : bkeeps (on_board (eq k) (editing_ok n)) rest);
    [| apply R; split; [symmetry; exact Hk | split; [exact Hs | cbn; lia]] ]
  end.
  cbv beta.
  apply bkeeps_bind; [apply refreshLCD_keeps | intros _].
  apply bkeeps_bind; [apply bkeeps_blink | intros _].
  apply bkeeps_item.
  apply bkeeps_bind; [|intros _; apply bkeeps_bind; [apply refreshLCD_keeps | intros _];
                       apply bkeeps_blink].
  destruct Hkn as [(-> & ->)|[(-> & ->)|[(-> & ->)|[(-> & ->)|(-> & ->)]]]]; cbn.
  - apply bkeeps_lift, getDistance_keeps.
  - apply bkeeps_lift, getDuration_keeps.
  - apply bkeeps_lift, getSteps_keeps.
  - apply getDirection_keeps.
  - apply getGo_keeps.
Qed.

Lemma processSecondaryLevelMenu_keeps : bkeeps menu_ok processSecondaryLevelMenu.
Proof.
  intros b (Hk & Hs).
  assert (Hkn : exists n,
    (currentMenuItem b = 0 /\ n = 4) \/ (currentMenuItem b = 1 /\ n = 6)
    \/ (currentMenuItem b = 2 /\ n = 4) \/ (currentMenuItem b = 3 /\ n = 1)
    \/ (currentMenuItem b = 4 /\ n = 1)).
  { assert (currentMenuItem b = 0 \/ currentMenuItem b = 1 \/ currentMenuItem b = 2
            \/ currentMenuItem b = 3 \/ currentMenuItem b = 4) as [E|[E|[E|[E|E]]]] by lia.
    - exists 4. tauto.
    - exists 6. tauto.
    - exists 4. tauto.
    - exists 1. tauto.
    - exists 1. tauto. }
  destruct Hkn as (n & Hkn).
  destruct (processSecondaryLevelMenu_session _ n b Hkn eq_refl Hs) as (E & Hs' & _).
  split; [rewrite <- E; exact Hk | exact Hs'].
Qed.

Lemma store_ok_keeps {A} (m : MB A) :
  bkeeps (on_board (fun k => 0 <= k <= 4) (store_ok_at (fun _ => True))) m ->
  bkeeps menu_ok m.
Proof.
  intros H b (Hk & Hs).
  destruct (H b) as (Hk' & Hs' & _); [split; [exact Hk | split; [exact Hs | exact Logic.I]]|].
  split; assumption.
Qed.

Lemma top_turn_keeps : bkeeps menu_ok top_turn.
Proof.
  pose proof (store_ok_at_frame (fun _ => True)) as F.
  unfold top_turn.
  apply bkeeps_bind; [apply store_ok_keeps, bkeeps_lift, frame_getKeyClick, F | intros btnVal].
  apply bkeeps_bind; [|intros _; apply store_ok_keeps, refreshLCD_keeps].
  destruct (btnVal =? btnL); [|destruct (btnVal =? btnR); [|destruct (btnVal =? btnSel)]].
  - intros b Hb. unfold bbind, bgets.
    destruct (Z.eqb_spec (currentMenuItem b) MENU_ITEM_DISTANCE); [exact Hb|].
    destruct Hb as (Hk & Hs). unfold MENU_ITEM_DISTANCE in *.
    split; [cbn; lia | exact Hs].
  - intros b Hb. unfold bbind, bgets.
    destruct (Z.eqb_spec (currentMenuItem b) MENU_ITEM_GO); [exact Hb|].
    destruct Hb as (Hk & Hs). unfold MENU_ITEM_GO in *.
    split; [cbn; lia | exact Hs].
  - apply processSecondaryLevelMenu_keeps.
  - apply bkeeps_ret.
Qed.

Lemma processTopLevelMenu_loop_keeps (fuel : nat) :
  bkeeps menu_ok (processTopLevelMenu_loop fuel).
Proof.
  induction fuel as [|fuel IH]; [apply bkeeps_starved|].
  cbn [processTopLevelMenu_loop].
  apply bkeeps_bind; [apply top_turn_keeps | intros _; exact IH].
Qed.

(** X22.  Wherever a session at the menu stops - at the end of the input,
    or in a run that divides by zero - the menu item is one of the five of
    the table, the direction is 0 or 1, the distance is between 0 and 1300,
    the duration is an [int], the step count is between 0 and 9999, and the
    three parameter arrays and line 2 hold decimal digits only (4, 6, 4 and
    6 of them), provided all this held when the session began. *)
Theorem menu_keeps_parameters_valid (b : board) :
  menu_ok b -> menu_ok (bfinal (processTopLevelMenu b)).
Proof. intros Hb. apply processTopLevelMenu_loop_keeps, Hb. Qed.

Lemma menu_keeps_parameters_valid_witness :
  menu_ok (bfinal (processTopLevelMenu
                     (initial_board (click adc_select ++ typing [2; 0; 0; 0]%nat) []))).
Proof.
  apply (menu_keeps_parameters_valid
           (initial_board (click adc_select ++ typing [2; 0; 0; 0]%nat) [])).
  unfold menu_ok, initial_board, initial_state, store_ok, digits_ok, in_int, is_digit,
    MAX_TRAVEL_DISTANCE, INT_MIN, INT_MAX. cbn.
  repeat split; first [lia | (left; reflexivity) | repeat constructor; lia].
Defined.

(** ** Moving through the menu *)

Lemma paints_ret {A} (a : A) : paints (ret a).
Proof. intros s. exists a, s, []. repeat split; reflexivity. Qed.

Lemma paints_gets {A} (f : state -> A) : paints (gets f).
Proof. intros s. exists (f s), s, []. repeat split; reflexivity. Qed.

Lemma paints_emit (e : event) : is_text e = true -> paints (emit e).
Proof.
  intros He s. exists tt, (set_trace (e :: trace s) s), [e].
  split; [reflexivity|]. split; [reflexivity|]. split; [reflexivity|].
  cbn [forallb]. rewrite He. reflexivity.
Qed.

Lemma paints_bind {A B} (m : M A) (k : A -> M B) :
  paints m -> (forall a, paints (k a)) -> paints (bind m k).
Proof.
  intros Hm Hk s. destruct (Hm s) as (a & s1 & n1 & E1 & B1 & T1 & F1).
  destruct (Hk a s1) as (b & s2 & n2 & E2 & B2 & T2 & F2).
  exists b, s2, (n2 ++ n1). split; [rewrite (bind_Done _ _ _ _ _ E1); exact E2|].
  split; [congruence|]. split; [rewrite T2, T1, app_assoc; reflexivity|].
  rewrite forallb_app, F1, F2. reflexivity.
Qed.

Lemma paints_writeToLCDLine2 (from : list Z) (n : Z) : paints (writeToLCDLine2 from n).
Proof.
  intros s. eexists; eexists; exists []. repeat split; reflexivity.
Qed.

Lemma paints_print_line2 (k : nat) : forall i, paints (print_line2 k i).
Proof.
  induction k as [|k IH]; intros i; cbn [print_line2]; [apply paints_ret|].
  apply paints_bind; [apply paints_emit; reflexivity | intros _].
  apply paints_bind; [apply paints_gets | intros line].
  apply paints_bind; [apply paints_emit; reflexivity | intros _]. apply IH.
Qed.

Lemma paints_refresh_line2 (item : Z) : paints (refresh_line2 item).
Proof.
  unfold refresh_line2.
  repeat first
    [ apply paints_ret | apply paints_gets | apply paints_emit; reflexivity
    | apply paints_writeToLCDLine2 | apply paints_print_line2
    | apply paints_bind; [|intros ?]
    | match goal with |- paints (if ?c then _ else _) => destruct c end ].
Qed.

Lemma behind_display_parts (s s' : state) :
  behind_display s' = behind_display s ->
  adc_in s' = adc_in s
  /\ currentCursorPos s' = currentCursorPos s
  /\ parameters s' = parameters s.
Proof.
  unfold behind_display, parameters. intros E.
  injection E as E1 _ _ E4 _ P1 P2 P3 P4 P5 P6 P7 _ _ _ _ _.
  split; [exact E1|]. split; [exact E4|]. congruence.
Qed.

Lemma set_core_twice (s s' : state) (b : board) :
  set_core s' (set_core s b) = set_core s' b.
Proof. reflexivity. Qed.

Lemma bbind_lift_emit {B} (e : event) (k : unit -> MB B) (b : board) :
  bbind (lift (emit e)) k b = k tt (set_core (set_trace (e :: trace (core b)) (core b)) b).
Proof. reflexivity. Qed.

(** [refreshLCD] always returns.  It redraws the display - cleared, the
    title of the current item on line 1, the item's value on line 2, the
    cursor put back - and changes nothing behind the display; what it does
    to the digits of line 2 is what [refresh_line2] does, from state [sa]
    to state [sb]. *)
Lemma refreshLCD_done (b : board) :
  exists sa sb s',
    refreshLCD b = BDone tt (set_core s' b)
    /\ behind_display s' = behind_display (core b)
    /\ (exists value_line,
          trace s'
          = LcdSetCursor (currentCursorPos (core b)) 1 :: value_line
            ++ LcdSetCursor 0 1
               :: LcdPrint (nth (Z.to_nat (currentMenuItem b)) menuItemsTop ""%string)
               :: LcdSetCursor 0 0 :: LcdClear :: trace (core b)
          /\ forallb is_text value_line = true)
    /\ store sa = store (core b)
    /\ refresh_line2 (currentMenuItem b) sa = Done tt sb
    /\ store s' = store sb.
Proof.
  unfold refreshLCD. rewrite !bbind_lift_emit.
  unfold bbind at 1, bgets at 1. cbn [currentMenuItem set_core core].
  rewrite !bbind_lift_emit, !set_core_twice. cbn [currentMenuItem set_core core].
  set (title := nth (Z.to_nat (currentMenuItem b)) menuItemsTop ""%string).
  match goal with
  | |- context [bbind (lift (refresh_line2 _)) _ (set_core ?s b)] => set (sa := s)
  end.
  assert (Sa : store sa = store (core b)) by reflexivity.
  assert (Ba : behind_display sa = behind_display (core b)) by reflexivity.
  assert (Ta : trace sa = LcdSetCursor 0 1 :: LcdPrint title :: LcdSetCursor 0 0
                          :: LcdClear :: trace (core b)) by reflexivity.
  clearbody sa.
  destruct (paints_refresh_line2 (currentMenuItem b) sa) as ([] & sb & vl & Eb & Bb & Tb & Fb).
  exists sa, sb, (set_trace (LcdSetCursor (currentCursorPos sb) 1 :: trace sb) sb).
  split; [|split; [|split; [|split; [|split]]]].
  - unfold bbind, lift. cbn [core set_core]. rewrite Eb. cbn [core set_core].
    rewrite bind_gets. reflexivity.
  - rewrite <- Ba, <- Bb. reflexivity.
  - exists vl. split; [|exact Fb]. cbn [trace set_trace].
    destruct (behind_display_parts _ _ Bb) as (_ & C1 & _).
    destruct (behind_display_parts _ _ Ba) as (_ & C2 & _).
    rewrite C1, C2, Tb, Ta. reflexivity.
  - exact Sa.
  - exact Eb.
  - reflexivity.
Qed.

(** X23.  One turn of the top-level menu on a clean click of Left or Right
    returns with the click consumed: Right moves one item on and stops at
    the last, Left moves one item back and stops at the first; no parameter
    is changed.  What the turn adds to the trace is the delays of the key
    click and then one redraw: the display cleared, the cursor put at the
    start of line 1, the title of the item arrived at printed, the cursor
    put at the start of line 2, the value line of the item (text and cursor
    moves only) and the cursor put back where it was. *)
Theorem left_right_move_through_menu (level : Z) (rest : list Z) (b : board) :
  0 <= currentMenuItem b <= 4 ->
  button_of_adc level = btnL \/ button_of_adc level = btnR ->
  adc_in (core b) = click level ++ rest ->
  exists b',
    top_turn b = BDone tt b'
    /\ currentMenuItem b'
       = (if button_of_adc level =? btnL
          then Z.max (currentMenuItem b - 1) 0
          else Z.min (currentMenuItem b + 1) 4)
    /\ adc_in (core b') = rest
    /\ parameters (core b') = parameters (core b)
    /\ exists ds value_line,
         trace (core b')
         = LcdSetCursor (currentCursorPos (core b)) 1 :: value_line
           ++ LcdSetCursor 0 1
              :: LcdPrint (nth (Z.to_nat (currentMenuItem b')) menuItemsTop ""%string)
              :: LcdSetCursor 0 0 :: LcdClear :: ds ++ trace (core b)
         /\ forallb is_delay ds = true
         /\ forallb is_text value_line = true.
Proof.
  intros Hk Hb Hadc.
  assert (HB : button_of_adc level <> btnNone)
    by (unfold btnL, btnR, btnNone in *; lia).
  destruct (getKeyClick_click level rest (core b) HB Hadc) as (s1 & K & Ha1 & _).
  destruct (getKeyClick_loop_post _ _ _ _ _ _ K) as (_ & (E1 & _ & ds & Tds & Fds) & _).
  assert (C1 : parameters s1 = parameters (core b)) by (rewrite E1; reflexivity).
  assert (C2 : currentCursorPos s1 = currentCursorPos (core b)) by (rewrite E1; reflexivity).
  unfold top_turn. unfold bbind at 1. unfold lift at 1. rewrite K.
  set (b1 := set_core s1 b).
  assert (Hnav : exists k,
    (if button_of_adc level =? btnL
     then bbind (bgets currentMenuItem)
            (fun item => if item =? MENU_ITEM_DISTANCE then bret tt
                         else bmodify (set_currentMenuItem (item - 1)))
     else if button_of_adc level =? btnR
     then bbind (bgets currentMenuItem)
            (fun item => if item =? MENU_ITEM_GO then bret tt
                         else bmodify (set_currentMenuItem (item + 1)))
     else if button_of_adc level =? btnSel then processSecondaryLevelMenu
     else bret tt) b1 = BDone tt (set_currentMenuItem k b1)
    /\ k = (if button_of_adc level =? btnL
            then Z.max (currentMenuItem b - 1) 0
            else Z.min (currentMenuItem b + 1) 4)).
  { destruct Hb as [-> | ->]; cbn [Z.eqb btnL btnR Pos.eqb];
      unfold bbind, bgets, MENU_ITEM_DISTANCE, MENU_ITEM_GO; cbn [currentMenuItem b1 set_core].
    - destruct (Z.eqb_spec (currentMenuItem b) 0) as [E|E].
      + exists (currentMenuItem b). split; [destruct b; reflexivity | lia].
      + exists (currentMenuItem b - 1). split; [reflexivity | lia].
    - destruct (Z.eqb_spec (currentMenuItem b) 4) as [E|E].
      + exists (currentMenuItem b). split; [destruct b; reflexivity | lia].
      + exists (currentMenuItem b + 1). split; [reflexivity | lia]. }
  destruct Hnav as (k & Hnav & Hkv).
  unfold bbind at 1. rewrite Hnav.
  destruct (refreshLCD_done (set_currentMenuItem k b1))
    as (_ & _ & s2 & R & B2 & (vl & T2 & F2) & _).
  exists (set_core s2 (set_currentMenuItem k b1)).
  split; [exact R|]. subst b1. cbn [currentMenuItem core set_core set_currentMenuItem] in *.
  split; [exact Hkv|].
  destruct (behind_display_parts _ _ B2) as (B2a & _ & B2c).
  split; [congruence|]. split; [congruence|].
  exists ds, vl. rewrite T2, C2, Tds. auto.
Qed.

Lemma left_right_move_through_menu_witness :
  exists b',
    top_turn (initial_board (click adc_right ++ [1023]) []) = BDone tt b'
    /\ currentMenuItem b'
       = (if button_of_adc adc_right =? btnL
          then Z.max (currentMenuItem (initial_board (click adc_right ++ [1023]) []) - 1) 0
          else Z.min (currentMenuItem (initial_board (click adc_right ++ [1023]) []) + 1) 4)
    /\ adc_in (core b') = [1023]
    /\ parameters (core b') = parameters (core (initial_board (click adc_right ++ [1023]) []))
    /\ exists ds value_line,
         trace (core b')
         = LcdSetCursor (currentCursorPos (core (initial_board (click adc_right ++ [1023]) []))) 1
           :: value_line
           ++ LcdSetCursor 0 1
              :: LcdPrint (nth (Z.to_nat (currentMenuItem b')) menuItemsTop ""%string)
              :: LcdSetCursor 0 0 :: LcdClear
              :: ds ++ trace (core (initial_board (click adc_right ++ [1023]) []))
         /\ forallb is_delay ds = true
         /\ forallb is_text value_line = true.
Proof.
  apply (left_right_move_through_menu adc_right [1023]
           (initial_board (click adc_right ++ [1023]) [])).
  - cbn. lia.
  - right. reflexivity.
  - reflexivity.
Defined.

(** ** A visit to the Distance item *)

Lemma store_parts (s s' : state) :
  store s' = store s ->
  LCDLine2Value s' = LCDLine2Value s
  /\ currentDistance s' = currentDistance s
  /\ currentCursorPos s' = currentCursorPos s.
Proof.
  unfold store. intros E. injection E as _ _ _ _ E5 _ _ E8 E9. auto.
Qed.

Lemma refresh_line2_distance (sa sb : state) :
  refresh_line2 MENU_ITEM_DISTANCE sa = Done tt sb ->
  LCDLine2Value sb = copy_digits 4 0 (currentDistance sa) (LCDLine2Value sa).
Proof.
  unfold refresh_line2. change (MENU_ITEM_DISTANCE =? MENU_ITEM_DISTANCE) with true.
  cbv iota. rewrite bind_gets. unfold writeToLCDLine2. rewrite bind_modify.
  change (Z.to_nat NUM_DISTANCE_DIGITS) with 4%nat.
  set (L := copy_digits 4 0 (currentDistance sa) (LCDLine2Value sa)).
  set (s1 := set_LCDLine2Value L sa). intros H.
  assert (F : forall s s', store s' = store s -> LCDLine2Value s = L -> LCDLine2Value s' = L).
  { intros s s' E <-. apply (store_parts _ _ E). }
  assert (Kp : keeps (fun x => LCDLine2Value x = L)
                 (bind (print_line2 4 0)
                    (fun _ => bind (emit (LcdSetCursor NUM_DISTANCE_DIGITS 1))
                                (fun _ => emit (LcdPrint "mm(max 1300)"))))).
  { apply keeps_bind; [apply frame_print_line2, F | intros _].
    apply keeps_bind; [apply frame_emit, F | intros _]. apply frame_emit, F. }
  specialize (Kp s1 eq_refl). rewrite H in Kp. exact Kp.
Qed.

Lemma refreshLCD_distance (b : board) :
  currentMenuItem b = MENU_ITEM_DISTANCE ->
  exists s',
    refreshLCD b = BDone tt (set_core s' b)
    /\ behind_display s' = behind_display (core b)
    /\ LCDLine2Value s'
       = copy_digits 4 0 (currentDistance (core b)) (LCDLine2Value (core b)).
Proof.
  intros Hitem.
  destruct (refreshLCD_done b) as (sa & sb & s' & R & Bd & _ & Sa & Eb & S').
  exists s'. split; [exact R|]. split; [exact Bd|].
  rewrite Hitem in Eb. apply refresh_line2_distance in Eb.
  destruct (store_parts _ _ Sa) as (A1 & A2 & _).
  destruct (store_parts _ _ S') as (B1 & _). congruence.
Qed.

(** The editor on a click of Select alone. *)
Lemma getUserInputValue_select (n : Z) (rest : list Z) (s : state) :
  adc_in s = click adc_select ++ rest ->
  exists s1,
    getUserInputValue n s = Done tt s1
    /\ adc_in s1 = rest
    /\ store s1 = store s.
Proof.
  intros Hadc. unfold getUserInputValue. rewrite bind_gets, bind_emit.
  cbn [adc_in set_trace]. rewrite Hadc. cbn [click app length getUserInputValue_loop].
  set (s0 := set_trace (LcdSetCursor (currentCursorPos s) 1 :: trace s) s).
  assert (HB : button_of_adc adc_select <> btnNone) by (vm_compute; intros Hne; discriminate Hne).
  destruct (getKeyClick_click adc_select rest s0 HB Hadc) as (s1 & K & Ha1 & _).
  destruct (getKeyClick_loop_post _ _ _ _ _ _ K) as (_ & (E1 & _) & _).
  rewrite (bind_Done _ _ _ _ _ K).
  change (button_of_adc adc_select) with btnSel.
  exists s1. split; [reflexivity|]. split; [exact Ha1|].
  rewrite E1. reflexivity.
Qed.

Lemma getDistance_done_after (s s1 : state) :
  getUserInputValue NUM_DISTANCE_DIGITS s = Done tt s1 ->
  exists s', getDistance s = Done tt s'.
Proof.
  intros G. unfold getDistance. rewrite (bind_Done _ _ _ _ _ G).
  unfold readFromLCDLine2.
  repeat first [rewrite bind_gets | rewrite bind_assoc | rewrite bind_ret | rewrite bind_modify].
  match goal with |- context [if ?c then _ else _] => destruct c end;
    eexists; reflexivity.
Qed.

(** The visit, step by step: the editor is entered in [s2], with the stored
    digits on line 2 and the cursor on the first; the visit returns exactly
    when the editor's commit does, and then redraws the display with the
    committed digits. *)
Lemma distance_visit_steps (b : board) :
  currentMenuItem b = MENU_ITEM_DISTANCE ->
  store_ok (core b) ->
  exists s2,
    editing_ok 4 s2
    /\ behind_display s2 = behind_display (set_currentCursorPos 0 (core b))
    /\ take 4 (LCDLine2Value s2) = currentDistance (core b)
    /\ (forall s3, getDistance s2 = Done tt s3 ->
        exists s4,
          processSecondaryLevelMenu b = BDone tt (set_lcd_blink false (set_core s4 b))
          /\ behind_display s4 = behind_display s3
          /\ LCDLine2Value s4 = copy_digits 4 0 (currentDistance s3) (LCDLine2Value s3))
    /\ (forall b', processSecondaryLevelMenu b = BDone tt b' ->
        exists s3, getDistance s2 = Done tt s3).
Proof.
  intros Hitem Hs.
  set (b1 := set_core (set_currentCursorPos 0 (core b)) b).
  destruct (refreshLCD_distance b1 Hitem) as (s2 & R1 & B1 & L1).
  assert (Hed : editing_ok 4 s2).
  { pose proof (refreshLCD_keeps (eq MENU_ITEM_DISTANCE) (fun c => 0 <= c < 4) b1) as Hk.
    rewrite R1 in Hk. apply Hk.
    split; [symmetry; exact Hitem | split; [exact Hs | cbn; lia]]. }
  assert (EQ : processSecondaryLevelMenu b
               = match getDistance s2 with
                 | Done _ s3 =>
                     bbind refreshLCD (fun _ => bmodify (set_lcd_blink false))
                       (set_lcd_blink true (set_core s3 b))
                 | Starved s3 => BStarved (set_lcd_blink true (set_core s3 b))
                 | Undefined s3 => BUndefined (set_lcd_blink true (set_core s3 b))
                 end).
  { unfold processSecondaryLevelMenu. rewrite bbind_lift_modify. fold b1.
    unfold bbind at 1. rewrite R1.
    unfold bbind at 1, bmodify at 1. unfold bbind at 1, bgets at 1.
    subst b1. cbn [currentMenuItem set_core set_lcd_blink core]. rewrite Hitem.
    change (MENU_ITEM_DISTANCE =? MENU_ITEM_DISTANCE) with true. cbv iota.
    unfold bbind at 1, lift at 1. cbn [core set_core set_lcd_blink].
    destruct (getDistance s2) as [[] s3| |]; reflexivity. }
  exists s2. split; [exact Hed|]. split; [exact B1|].
  split.
  { rewrite L1. subst b1. cbn [core set_core currentDistance LCDLine2Value set_currentCursorPos].
    destruct Hs as (_ & _ & _ & _ & (H5 & _) & _ & _ & (H8 & _)).
    rewrite copy_digits_prefix by lia. apply take_ge. lia. }
  rewrite EQ. clear EQ.
  destruct (getDistance s2) as [[] s3| |] eqn:G.
  - set (b3 := set_lcd_blink true (set_core s3 b)).
    destruct (refreshLCD_distance b3 Hitem) as (s4 & R3 & B3 & L3).
    split.
    + intros s3' E. injection E as <-. exists s4.
      split; [|split; [exact B3 | exact L3]].
      unfold bbind. rewrite R3. unfold bmodify. destruct b; reflexivity.
    + intros b' _. exists s3. reflexivity.
  - split; [intros s3' E; discriminate E | intros b' E; discriminate E].
  - split; [intros s3' E; discriminate E | intros b' E; discriminate E].
Qed.

(** X24.  A visit to the Distance item that returns: line 2 shows the
    committed digits; the distance is the number they denote, cut down to
    1300; the item is still Distance and the cursor blink is off; and
    direction, duration and step count are as they were. *)
Theorem distance_visit_commits (b b' : board) :
  currentMenuItem b = MENU_ITEM_DISTANCE ->
  store_ok (core b) ->
  processSecondaryLevelMenu b = BDone tt b' ->
  lcd_blink b' = false
  /\ currentMenuItem b' = MENU_ITEM_DISTANCE
  /\ take 4 (LCDLine2Value (core b')) = currentDistance (core b')
  /\ currentDistanceInt (core b')
     = Z.min (decimal (currentDistance (core b'))) MAX_TRAVEL_DISTANCE
  /\ 0 <= currentDistanceInt (core b') <= MAX_TRAVEL_DISTANCE
  /\ travelDir (core b') = travelDir (core b)
  /\ currentDuration (core b') = currentDuration (core b)
  /\ currentDurationInt (core b') = currentDurationInt (core b)
  /\ currentSteps (core b') = currentSteps (core b)
  /\ currentStepsInt (core b') = currentStepsInt (core b).
Proof.
  intros Hitem Hs H.
  destruct (distance_visit_steps b Hitem Hs) as (s2 & Hed & B2 & _ & Hfwd & Hbwd).
  destruct (Hbwd b' H) as (s3 & G).
  destruct (Hfwd s3 G) as (s4 & E & B4 & L4).
  rewrite E in H. injection H as <-.
  pose proof Hed as ((_ & _ & _ & _ & (H5 & _) & _ & _ & (H8 & H8d)) & Hc).
  destruct (getDistance_commit_post s2 s3 G Hc H8d ltac:(lia) H5)
    as (s1 & _ & He & Hd1 & Hl1 & Hb & ->).
  destruct (editing_only_store _ _ He) as (E1 & _ & E3 & E4 & _ & E6 & E7).
  destruct (behind_display_parts _ _ B4) as (_ & _ & P4).
  destruct (behind_display_parts _ _ B2) as (_ & _ & P2).
  unfold parameters in P4, P2.
  cbn [travelDir currentDistanceInt currentDurationInt currentStepsInt currentDistance
       currentDuration currentSteps LCDLine2Value set_currentDistanceInt
       set_currentDistance set_currentCursorPos] in P4, P2, L4.
  injection P4 as Q1 Q2 Q3 Q4 Q5 Q6 Q7. injection P2 as R1 R2 R3 R4 R5 R6 R7.
  cbn [lcd_blink currentMenuItem core set_core set_lcd_blink].
  split; [reflexivity|]. split; [exact Hitem|].
  assert (Hl4 : length (take 4 (LCDLine2Value s1)) = 4%nat)
    by (rewrite length_take_le; lia).
  split.
  { rewrite L4, Q5. rewrite copy_digits_prefix by lia. apply take_ge. lia. }
  rewrite Q2, Q5. split; [reflexivity|].
  unfold MAX_TRAVEL_DISTANCE. split; [lia|].
  repeat split; congruence.
Qed.

Lemma distance_visit_commits_witness :
  lcd_blink (bfinal (processSecondaryLevelMenu (initial_board (typing [2; 0; 0; 0]%nat) [])))
    = false
  /\ currentMenuItem (bfinal (processSecondaryLevelMenu
                               (initial_board (typing [2; 0; 0; 0]%nat) [])))
     = MENU_ITEM_DISTANCE
  /\ take 4 (LCDLine2Value (core (bfinal (processSecondaryLevelMenu
                                           (initial_board (typing [2; 0; 0; 0]%nat) [])))))
     = currentDistance (core (bfinal (processSecondaryLevelMenu
                                        (initial_board (typing [2; 0; 0; 0]%nat) []))))
  /\ currentDistanceInt (core (bfinal (processSecondaryLevelMenu
                                         (initial_board (typing [2; 0; 0; 0]%nat) []))))
     = Z.min (decimal (currentDistance
                         (core (bfinal (processSecondaryLevelMenu
                                          (initial_board (typing [2; 0; 0; 0]%nat) []))))))
         MAX_TRAVEL_DISTANCE
  /\ 0 <= currentDistanceInt (core (bfinal (processSecondaryLevelMenu
                                              (initial_board (typing [2; 0; 0; 0]%nat) []))))
     <= MAX_TRAVEL_DISTANCE
  /\ travelDir (core (bfinal (processSecondaryLevelMenu
                                (initial_board (typing [2; 0; 0; 0]%nat) []))))
     = travelDir (core (initial_board (typing [2; 0; 0; 0]%nat) []))
  /\ currentDuration (core (bfinal (processSecondaryLevelMenu
                                      (initial_board (typing [2; 0; 0; 0]%nat) []))))
     = currentDuration (core (initial_board (typing [2; 0; 0; 0]%nat) []))
  /\ currentDurationInt (core (bfinal (processSecondaryLevelMenu
                                         (initial_board (typing [2; 0; 0; 0]%nat) []))))
     = currentDurationInt (core (initial_board (typing [2; 0; 0; 0]%nat) []))
  /\ currentSteps (core (bfinal (processSecondaryLevelMenu
                                   (initial_board (typing [2; 0; 0; 0]%nat) []))))
     = currentSteps (core (initial_board (typing [2; 0; 0; 0]%nat) []))
  /\ currentStepsInt (core (bfinal (processSecondaryLevelMenu
                                      (initial_board (typing [2; 0; 0; 0]%nat) []))))
     = currentStepsInt (core (initial_board (typing [2; 0; 0; 0]%nat) [])).
Proof.
  apply (distance_visit_commits (initial_board (typing [2; 0; 0; 0]%nat) [])
           (bfinal (processSecondaryLevelMenu (initial_board (typing [2; 0; 0; 0]%nat) [])))).
  - reflexivity.
  - unfold initial_board, initial_state, store_ok, digits_ok, in_int, is_digit,
      MAX_TRAVEL_DISTANCE, INT_MIN, INT_MAX. cbn.
    repeat split; first [lia | (left; reflexivity) | repeat constructor; lia].
  - vm_compute. reflexivity.
Defined.

(** X25.  A visit to the Distance item that edits nothing - Select, and
    nothing else - returns with the digits as they were and the distance
    set to the number they denote, cut down to 1300, whatever the number
    held before. *)
Theorem unedited_distance_visit (rest : list Z) (b : board) :
  currentMenuItem b = MENU_ITEM_DISTANCE ->
  store_ok (core b) ->
  adc_in (core b) = click adc_select ++ rest ->
  exists b',
    processSecondaryLevelMenu b = BDone tt b'
    /\ adc_in (core b') = rest
    /\ currentDistance (core b') = currentDistance (core b)
    /\ currentDistanceInt (core b')
       = Z.min (decimal (currentDistance (core b))) MAX_TRAVEL_DISTANCE.
Proof.
  intros Hitem Hs Hadc.
  destruct (distance_visit_steps b Hitem Hs) as (s2 & Hed & B2 & T2 & Hfwd & _).
  destruct (behind_display_parts _ _ B2) as (A2 & _).
  cbn [adc_in set_currentCursorPos] in A2. rewrite Hadc in A2.
  destruct (getUserInputValue_select NUM_DISTANCE_DIGITS rest s2 A2) as (s1 & G1 & Ha1 & S1).
  destruct (getDistance_done_after s2 s1 G1) as (s3 & G).
  destruct (Hfwd s3 G) as (s4 & E & B4 & _).
  pose proof Hed as ((_ & _ & _ & _ & (H5 & _) & _ & _ & (H8 & H8d)) & Hc).
  destruct (getDistance_commit_post s2 s3 G Hc H8d ltac:(lia) H5)
    as (s1' & G1' & _ & _ & _ & _ & ->).
  rewrite G1 in G1'. injection G1' as <-.
  destruct (store_parts _ _ S1) as (L1 & _).
  destruct (behind_display_parts _ _ B4) as (A4 & _ & P4).
  unfold parameters in P4.
  cbn [adc_in travelDir currentDistanceInt currentDurationInt currentStepsInt
       currentDistance currentDuration currentSteps set_currentDistanceInt
       set_currentDistance] in P4, A4.
  injection P4 as _ Q2 _ _ Q5 _ _.
  eexists. split; [exact E|]. cbn [core set_core set_lcd_blink].
  split; [congruence|]. split; [congruence|].
  rewrite Q2, L1, T2. reflexivity.
Qed.

Lemma unedited_distance_visit_witness :
  exists b',
    processSecondaryLevelMenu (initial_board (click adc_select ++ [7]) []) = BDone tt b'
    /\ adc_in (core b') = [7]
    /\ currentDistance (core b')
       = currentDistance (core (initial_board (click adc_select ++ [7]) []))
    /\ currentDistanceInt (core b')
       = Z.min (decimal (currentDistance (core (initial_board (click adc_select ++ [7]) []))))
           MAX_TRAVEL_DISTANCE.
Proof.
  apply (unedited_distance_visit [7] (initial_board (click adc_select ++ [7]) [])).
  - reflexivity.
  - unfold initial_board, initial_state, store_ok, digits_ok, in_int, is_digit,
      MAX_TRAVEL_DISTANCE, INT_MIN, INT_MAX. cbn.
    repeat split; first [lia | (left; reflexivity) | repeat constructor; lia].
  - reflexivity.
Defined.

(** ** The direction editor *)

Section Direction.
Context (Inv : state -> Prop).
Context (Inv_key : forall s s', store s' = store s -> Inv s -> Inv s').
Context (Inv_display : forall s s', behind_display s' = behind_display s -> Inv s -> Inv s').
Context (Inv_dir : forall s d, d = 0 \/ d = 1 -> Inv s -> Inv (set_travelDir d s)).

Lemma refreshLCD_behind (K : Z -> Prop) : bkeeps (on_board K Inv) refreshLCD.
Proof.
  intros b (Hk & Hi). destruct (refreshLCD_done b) as (_ & _ & s' & R & Bd & _).
  rewrite R. split; [exact Hk | apply (Inv_display (core b)); assumption].
Qed.

Lemma getDirection_loop_behind (K : Z -> Prop) (fuel : nat) :
  bkeeps (on_board K Inv) (getDirection_loop fuel).
Proof.
  induction fuel as [|fuel IH]; [apply bkeeps_starved|].
  cbn [getDirection_loop].
  apply bkeeps_bind; [apply bkeeps_lift, frame_getKeyClick, Inv_key | intros btnVal].
  destruct (btnVal =? btnUp); [|destruct (btnVal =? btnDn); [|destruct (btnVal =? btnSel)]].
  - apply bkeeps_bind;
      [apply bkeeps_lift, keeps_modify; intros s; apply Inv_dir; right; reflexivity | intros _].
    apply bkeeps_bind; [apply refreshLCD_behind | intros _]. exact IH.
  - apply bkeeps_bind;
      [apply bkeeps_lift, keeps_modify; intros s; apply Inv_dir; left; reflexivity | intros _].
    apply bkeeps_bind; [apply refreshLCD_behind | intros _]. exact IH.
  - apply bkeeps_ret.
  - apply bkeeps_bind; [apply refreshLCD_behind | intros _]. exact IH.
Qed.
End Direction.

(** X26.  The direction editor, wherever it stops: the direction is as it
    was, or 0, or 1; the other parameters, the cursor and the menu item are
    as they were. *)
Theorem direction_editor_sets_direction_only (b : board) :
  currentMenuItem (bfinal (getDirection b)) = currentMenuItem b
  /\ (travelDir (core (bfinal (getDirection b))) = travelDir (core b)
      \/ travelDir (core (bfinal (getDirection b))) = 0
      \/ travelDir (core (bfinal (getDirection b))) = 1)
  /\ parameters (set_travelDir 0 (core (bfinal (getDirection b))))
     = parameters (set_travelDir 0 (core b))
  /\ currentCursorPos (core (bfinal (getDirection b))) = currentCursorPos (core b).
Proof.
  set (Inv := fun s' : state =>
    (travelDir s' = travelDir (core b) \/ travelDir s' = 0 \/ travelDir s' = 1)
    /\ parameters (set_travelDir 0 s') = parameters (set_travelDir 0 (core b))
    /\ currentCursorPos s' = currentCursorPos (core b)).
  assert (H : on_board (eq (currentMenuItem b)) Inv (bfinal (getDirection b))).
  { apply (getDirection_loop_behind Inv).
    - intros s s' E (H1 & H2 & H3). unfold store in E.
      injection E as E1 E2 E3 E4 E5 E6 E7 _ E9.
      unfold Inv, parameters in *. cbn in *.
      rewrite E1, E2, E3, E4, E5, E6, E7, E9. auto.
    - intros s s' E (H1 & H2 & H3).
      destruct (behind_display_parts _ _ E) as (_ & E9 & P).
      unfold Inv, parameters in *. cbn in *.
      injection P as E1 E2 E3 E4 E5 E6 E7.
      rewrite E1, E2, E3, E4, E5, E6, E7, E9. auto.
    - intros s d Hd (H1 & H2 & H3). unfold Inv, parameters in *. cbn in *.
      split; [destruct Hd; auto | auto].
    - split; [reflexivity|]. unfold Inv. auto. }
  destruct H as (Hk & H1 & H2 & H3).
  split; [symmetry; exact Hk|]. auto.
Qed.

(** X27.  A run, however it ends - completed, cancelled, out of input or in
    a division by zero - leaves the parameters, line 2 and the cursor as
    they were. *)
Theorem run_keeps_store (sch : list ticks) (s : state) :
  store (final (motionControl sch s)) = store s.
Proof.
  apply (frame_motionControl (fun s' => store s' = store s)); [|reflexivity].
  intros s1 s2 E H. congruence.
Qed.
